(** * Market Seasonality Explorer: the analytics core, embedded in Rocq

    The development follows [src/lib/market-utils.ts] (series synthesizer,
    week/month aggregation, lookup and volume display),
    [src/components/PatternAnalysis.tsx] (seasonal patterns and anomalies)
    and the data side of [src/components/Calendar.tsx] (the cells of the
    daily, weekly and monthly views).

    Modelling conventions.
    - A JavaScript [number] that is stored in a record is given by a
      rational ([Q]).  A number that results from a division, from reading
      past the end of an array or from [Math.sqrt] has type [number],
      which adds the two infinities and NaN.  Signed zeros are not
      modelled.
    - The program is embedded in exact arithmetic: sums, products and
      quotients of rationals are not rounded.  This is the arithmetic of
      the statements on grouping, order, categories, dates, strings and
      thresholds.
    - The aggregators and the anomaly detector are embedded a second time,
      in module [Rounded], in the binary64 arithmetic of the program:
      every stored number is read as the double nearest to it and every
      operation gives the exact result rounded to the nearest double
      (module [Double]).  This is the arithmetic of the statements on the
      conservation of volume (C3, X1) and on the z-score of the volume
      (C5, C6).
    - A calendar day (the ['YYYY-MM-DD'] string of a record) is the number
      of days since 1970-01-01; a [dayjs] object is its time value in
      milliseconds, in a zone without offset.
    - A plain object used as a dictionary is the list of its properties in
      creation order; [Object.entries] lists array-index keys first.
    - A function that can throw returns [option], [None] being the
      exception.  The [while] loop of the synthesizer takes a bound on its
      iterations, [None] meaning that the bound is reached.
    - [Math.random()] is a sequence of draws passed to the synthesizer, and
      [Math.sqrt] a parameter of the anomaly detector.

    The file has four parts: the program, the properties of its parts,
    the theorems on the claims C1 to C10 of the specification, and further
    properties of the code, numbered from X1 to X25. *)

From Stdlib Require Import String Ascii DecimalString DecimalZ.
From Stdlib Require Import ZArith QArith Qround Qabs Qreduction List Bool.
From Stdlib Require Import Lia Lqa.
From Stdlib Require SpecFloat.
From Stdlib Require Import Permutation Sorted.
Import ListNotations.

Set Implicit Arguments.

(** * The program *)

(** ** JavaScript numbers *)

Module JsNum.

Inductive number : Type :=
| Fin (q : Q)
| PosInf
| NegInf
| NaN.

Definition Qltb (a b : Q) : bool := negb (Qle_bool b a).

(** [ToNumber] of an array read: a missing element is [undefined]. *)
Definition of_element (o : option Q) : number :=
  match o with Some q => Fin q | None => NaN end.

Definition add (a b : number) : number :=
  match a, b with
  | NaN, _ | _, NaN => NaN
  | PosInf, NegInf | NegInf, PosInf => NaN
  | PosInf, _ | _, PosInf => PosInf
  | NegInf, _ | _, NegInf => NegInf
  | Fin x, Fin y => Fin (x + y)
  end.

Definition opp (a : number) : number :=
  match a with
  | Fin x => Fin (- x)
  | PosInf => NegInf
  | NegInf => PosInf
  | NaN => NaN
  end.

Definition sub (a b : number) : number := add a (opp b).

(** Sign of a number: [Some Gt], [Some Eq], [Some Lt]; [None] for NaN. *)
Definition sign (a : number) : option comparison :=
  match a with
  | Fin x => Some (x ?= 0)
  | PosInf => Some Gt
  | NegInf => Some Lt
  | NaN => None
  end.

Definition mul (a b : number) : number :=
  match a, b with
  | Fin x, Fin y => Fin (x * y)
  | _, _ =>
      match sign a, sign b with
      | Some Gt, Some Gt | Some Lt, Some Lt => PosInf
      | Some Gt, Some Lt | Some Lt, Some Gt => NegInf
      | _, _ => NaN
      end
  end.

(** Division never throws: a zero divisor gives an infinity or NaN. *)
Definition div (a b : number) : number :=
  match a, b with
  | NaN, _ | _, NaN => NaN
  | Fin x, Fin y =>
      if Qeq_bool y 0 then
        match x ?= 0 with Gt => PosInf | Lt => NegInf | Eq => NaN end
      else Fin (x / y)
  | Fin _, (PosInf | NegInf) => Fin 0
  | (PosInf | NegInf), (PosInf | NegInf) => NaN
  | PosInf, Fin y => if Qltb y 0 then NegInf else PosInf
  | NegInf, Fin y => if Qltb y 0 then PosInf else NegInf
  end.

Definition abs (a : number) : number :=
  match a with
  | Fin x => Fin (Qabs x)
  | PosInf | NegInf => PosInf
  | NaN => NaN
  end.

(** [a > b]; every comparison with NaN is false. *)
Definition gtb (a b : number) : bool :=
  match a, b with
  | NaN, _ | _, NaN => false
  | Fin x, Fin y => Qltb y x
  | PosInf, (Fin _ | NegInf) => true
  | Fin _, NegInf => true
  | _, _ => false
  end.

(** [a <= b]. *)
Definition leb (a b : number) : bool :=
  match a, b with
  | NaN, _ | _, NaN => false
  | Fin x, Fin y => Qle_bool x y
  | NegInf, _ | _, PosInf => true
  | _, _ => false
  end.

Definition ltb (a b : number) : bool := gtb b a.

(** [Math.min(a, b)]. *)
Definition min (a b : number) : number :=
  match a, b with
  | NaN, _ | _, NaN => NaN
  | _, _ => if leb a b then a else b
  end.

(** The same value, finite values up to equality of fractions. *)
Definition same (a b : number) : Prop :=
  match a, b with
  | Fin x, Fin y => x == y
  | PosInf, PosInf | NegInf, NegInf | NaN, NaN => True
  | _, _ => False
  end.

Definition of_Z (z : Z) : number := Fin (inject_Z z).
Definition of_nat (n : nat) : number := of_Z (Z.of_nat n).

End JsNum.
Import JsNum.

(** ** Binary64 arithmetic *)

(** The numbers of the program are IEEE-754 doubles.  A finite double is
    a rational, and the sum, difference, product and quotient of two
    doubles is the exact result, rounded to the nearest double, the one
    with the even last digit of two nearest ones.  Doubles have 53
    significant bits; the exponent of the last bit is at least -1074 and
    a magnitude of [2 ^ 1024] or more is an infinity. *)
Module Double.

(** [2 ^ e] *)
Definition pow2 (e : Z) : Q :=
  if (0 <=? e)%Z then inject_Z (2 ^ e) else 1 # Z.to_pos (2 ^ (- e)).

(** The integer part of the binary logarithm of a positive rational [a]:
    [pow2 (ilog2 a) <= a < pow2 (ilog2 a + 1)]. *)
Definition ilog2 (a : Q) : Z :=
  let k := (Z.log2 (Qnum a) - Z.log2 (Zpos (Qden a)))%Z in
  if Qle_bool (pow2 k) a then k else (k - 1)%Z.

(** The nearest integer, the even one of two nearest. *)
Definition nearest_even (x : Q) : Z :=
  let f := Qfloor x in
  match Qcompare (x - inject_Z f) (1 # 2) with
  | Lt => f
  | Gt => (f + 1)%Z
  | Eq => if Z.even f then f else (f + 1)%Z
  end.

(** The exponent of the last of the 53 bits of a positive rational. *)
Definition last_place (a : Q) : Z := Z.max (ilog2 a - 52) (- 1074).

(** The double nearest to a rational. *)
Definition round (x : Q) : number :=
  let x := Qred x in
  if Qeq_bool x 0 then Fin 0
  else
    let a := Qabs x in
    let e := last_place a in
    let r := Qred (inject_Z (nearest_even (a / pow2 e)) * pow2 e) in
    if Qle_bool (pow2 1024) r then (if Qltb x 0 then NegInf else PosInf)
    else Fin (if Qltb x 0 then - r else r).

(** The result of an operation: the exact result, rounded. *)
Definition rounded (x : number) : number :=
  match x with
  | Fin q => round q
  | _ => x
  end.

Definition add (a b : number) : number := rounded (JsNum.add a b).
Definition sub (a b : number) : number := rounded (JsNum.sub a b).
Definition mul (a b : number) : number := rounded (JsNum.mul a b).
Definition div (a b : number) : number := rounded (JsNum.div a b).

(** The number that a rational denotes: the double nearest to it.  This
    is how a stored number and a decimal literal of the program text are
    read. *)
Definition of_Q (q : Q) : number := round q.

(** [numbers.reduce((sum, x) => sum + x, 0)] *)
Definition sum (numbers : list number) : number :=
  fold_left add numbers (Fin 0).

End Double.

(** ** Strings of integers *)

(** [String(n)] for an integer [n]. *)
Definition String_of_Z (z : Z) : string := NilZero.string_of_int (Z.to_int z).

(** [parseInt(s)] on the decimal strings that [String_of_Z] produces;
    [None] is NaN. *)
Definition parseInt (s : string) : option Z :=
  option_map Z.of_int (NilZero.int_of_string s).

(** [s.padStart(2, '0')] *)
Definition padStart2 (s : string) : string :=
  match s with
  | EmptyString => "00"
  | String c EmptyString => String "0" (String c EmptyString)
  | _ => s
  end.

(** ** Plain objects with ordered properties *)

(** What a type needs to serve as the key of a plain object: a decidable
    equality, and whether the key is an array index (the canonical decimal
    string of an integer below 2^32 - 1).  [Object.entries] lists
    array-index keys first, in ascending numeric order, and then the other
    keys in creation order. *)
Class PropertyKey (K : Type) : Type := {
  key_eqb : K -> K -> bool;
  key_eqb_eq : forall a b : K, key_eqb a b = true <-> a = b;
  array_index : K -> option N
}.

Definition digit_value (c : ascii) : option N :=
  let n := N_of_ascii c in
  if ((48 <=? n) && (n <=? 57))%N then Some (n - 48)%N else None.

Fixpoint digits_value (s : string) (acc : N) : option N :=
  match s with
  | EmptyString => Some acc
  | String c s' =>
      match digit_value c with
      | Some d => digits_value s' (10 * acc + d)%N
      | None => None
      end
  end.

(** [s] is an array index when it is the decimal string of an integer
    below 2^32 - 1: no sign, no leading zero. *)
Definition string_array_index (s : string) : option N :=
  match digits_value s 0 with
  | Some n =>
      if String.eqb (String_of_Z (Z.of_N n)) s && (n <? 4294967295)%N
      then Some n
      else None
  | None => None
  end.

#[export] Instance string_PropertyKey : PropertyKey string := {
  key_eqb := String.eqb;
  key_eqb_eq := String.eqb_eq;
  array_index := string_array_index
}.

Module JsObject.

Section Objects.
Context {K V : Type} `{PropertyKey K}.

(** The own properties, in creation order. *)
Definition t : Type := list (K * V).

Definition empty : t := [].

Fixpoint get (k : K) (o : t) : option V :=
  match o with
  | [] => None
  | (k', v) :: o' => if key_eqb k k' then Some v else get k o'
  end.

(** [o[k] = v]: an existing property keeps its place, a new one is
    created last. *)
Fixpoint set (k : K) (v : V) (o : t) : t :=
  match o with
  | [] => [(k, v)]
  | (k', v') :: o' =>
      if key_eqb k k' then (k', v) :: o' else (k', v') :: set k v o'
  end.

Definition keys (o : t) : list K := map fst o.

Fixpoint insert_index (i : N) (e : K * V) (l : list (N * (K * V)))
    : list (N * (K * V)) :=
  match l with
  | [] => [(i, e)]
  | (j, e') :: l' =>
      if (i <=? j)%N then (i, e) :: l else (j, e') :: insert_index i e l'
  end.

(** The properties whose key is an array index, by ascending index. *)
Fixpoint index_entries (o : t) : list (N * (K * V)) :=
  match o with
  | [] => []
  | e :: o' =>
      match array_index (fst e) with
      | Some i => insert_index i e (index_entries o')
      | None => index_entries o'
      end
  end.

Definition named_entries (o : t) : list (K * V) :=
  filter (fun e => match array_index (fst e) with
                   | Some _ => false
                   | None => true
                   end) o.

(** [Object.entries(o)] *)
Definition entries (o : t) : list (K * V) :=
  map snd (index_entries o) ++ named_entries o.

End Objects.

Arguments t : clear implicits.

End JsObject.

(** ** The dayjs library, as far as the program uses it *)

(** Modelled from the library's documented behaviour: [dayjs] and its
    [weekOfYear] plugin are dependencies, not part of the repository.
    Objects are immutable; the locale is the default one (weeks start on
    Sunday, week 1 is the week of January 1st). *)
Module Dayjs.

Local Open Scope Z_scope.

(** A dayjs object: its time value in milliseconds. *)
Definition t : Type := Z.

Definition MILLISECONDS_A_DAY : Z := 86400000.
Definition MILLISECONDS_A_WEEK : Z := 604800000.

(** Day number to (year, month 1-12, day of month) in the proleptic
    Gregorian calendar: eras of 400 years, years counted from March. *)
Definition era_of (z : Z) : Z := (z + 719468) / 146097.

Definition doe_of (z : Z) : Z := z + 719468 - era_of z * 146097.

Definition yoe_of (doe : Z) : Z :=
  (doe - doe / 1460 + doe / 36524 - doe / 146096) / 365.

Definition doy_of (doe : Z) : Z :=
  let yoe := yoe_of doe in
  doe - (365 * yoe + yoe / 4 - yoe / 100).

Definition mp_of (doy : Z) : Z := (5 * doy + 2) / 153.

Definition civil_from_days (z : Z) : Z * Z * Z :=
  let doe := doe_of z in
  let y := yoe_of doe + era_of z * 400 in
  let doy := doy_of doe in
  let mp := mp_of doy in
  let d := doy - (153 * mp + 2) / 5 + 1 in
  let m := if mp <? 10 then mp + 3 else mp - 9 in
  (if m <=? 2 then y + 1 else y, m, d).

Definition days_from_civil (y m d : Z) : Z :=
  let y := if m <=? 2 then y - 1 else y in
  let era := y / 400 in
  let yoe := y - era * 400 in
  let doy := (153 * (if 2 <? m then m - 3 else m + 9) + 2) / 5 + d - 1 in
  let doe := yoe * 365 + yoe / 4 - yoe / 100 + doy in
  era * 146097 + doe - 719468.

(** [dayjs('YYYY-MM-DD')]: midnight of that day. *)
Definition of_day (d : Z) : t := d * MILLISECONDS_A_DAY.

(** [dayjs(date)] for a [Date] with time value [ms]. *)
Definition of_Date (ms : Z) : t := ms.

Definition valueOf (x : t) : Z := x.

Definition day_number (x : t) : Z := x / MILLISECONDS_A_DAY.

Definition year (x : t) : Z := fst (fst (civil_from_days (day_number x))).

(** [month()] is zero-based. *)
Definition month (x : t) : Z := snd (fst (civil_from_days (day_number x))) - 1.

(** [date()]: the day of the month. *)
Definition date (x : t) : Z := snd (civil_from_days (day_number x)).

(** [day()]: the day of the week, 0 for Sunday; 1970-01-01 was a Thursday. *)
Definition day (x : t) : Z := (day_number x + 4) mod 7.

Definition isBefore (x y : t) : bool := x <? y.

(** [x.isSame(y, 'day')] *)
Definition isSame_day (x y : t) : bool := day_number x =? day_number y.

(** [x.add(n, 'day')]: a new object; [x] itself is left as it is. *)
Definition add_day (x : t) (n : Z) : t := x + n * MILLISECONDS_A_DAY.

Definition startOf_year (x : t) : t := of_day (days_from_civil (year x) 1 1).

Definition startOf_week (x : t) : t := of_day (day_number x - day x).

Definition endOf_week (x : t) : t := startOf_week x + MILLISECONDS_A_WEEK - 1.

(** [x.diff(yearStartWeek, 'week', true)], a fraction of weeks. *)
Definition diffInWeek (x : t) : Q :=
  let yearStart := 1 in
  let yearStartDay := of_day (days_from_civil (year x) 1 yearStart) in
  let yearStartWeek := startOf_week yearStartDay - 1 in
  Qmake (x - yearStartWeek) 604800000.

(** The late-December test of [week()]: the week of [x] already holds
    January 1st of the next year. *)
Definition in_first_week_of_next_year (x : t) : bool :=
  let yearStart := 1 in
  (month x =? 11) && (25 <? date x) &&
  (let nextYearStartDay := of_day (days_from_civil (year x + 1) 1 yearStart) in
   let thisEndOfWeek := endOf_week x in
   isBefore nextYearStartDay thisEndOfWeek).

(** [week()] of the plugin.  Its recursive call on a negative difference
    is unfolded once (it goes to the start of the week, whose own
    difference is not negative). *)
Definition week (x : t) : Z :=
  if in_first_week_of_next_year x then 1
  else if Qltb (diffInWeek x) 0 then
    let x' := startOf_week x in
    if in_first_week_of_next_year x' then 1 else Qceiling (diffInWeek x')
  else Qceiling (diffInWeek x).

(** [daysInMonth()] *)
Definition daysInMonth (x : t) : Z :=
  let y := year x in
  let m := month x + 1 in
  (if m =? 12 then days_from_civil (y + 1) 1 1 else days_from_civil y (m + 1) 1)
  - days_from_civil y m 1.

(** [format('MM')] *)
Definition format_MM (x : t) : string := padStart2 (String_of_Z (month x + 1)).

(** [format('YYYY-MM-DD')] names the day; days are kept as day numbers. *)
Definition format_YYYY_MM_DD (x : t) : Z := day_number x.

(** The first day of the month after the month of [x]. *)
Definition next_month_start (x : t) : Z :=
  let y := year x in
  let m := month x + 1 in
  if m =? 12 then days_from_civil (y + 1) 1 1 else days_from_civil y (m + 1) 1.

Definition startOf_month (x : t) : t :=
  of_day (days_from_civil (year x) (month x + 1) 1).

(** [endOf('month')]: the last millisecond of the month. *)
Definition endOf_month (x : t) : t := of_day (next_month_start x) - 1.

(** [toDate()]: the [Date], as its time value. *)
Definition toDate (x : t) : Z := x.

End Dayjs.

(** ** First occurrences in a list *)

Section FirstOccurrences.
Variable A : Type.
Variable eqb : A -> A -> bool.

(** The distinct elements of [l], each at the place of its first
    occurrence. *)
Definition first_occurrences (l : list A) : list A :=
  fold_left (fun acc x => if existsb (eqb x) acc then acc else acc ++ [x]) l [].

(** The position of the first occurrence of [x] in [l]. *)
Fixpoint first_index (x : A) (l : list A) : option nat :=
  match l with
  | [] => None
  | y :: l' => if eqb x y then Some 0%nat else option_map S (first_index x l')
  end.

(** How often [x] occurs in [l]. *)
Definition occurrences (x : A) (l : list A) : nat :=
  List.length (filter (eqb x) l).

End FirstOccurrences.

(** ** types/market.ts *)

Inductive VolatilityLevel : Type := low | medium | high.

Inductive Performance : Type := positive | negative | neutral.

Record MarketData : Type := {
  date : Z;
  volatilityLevel : VolatilityLevel;
  volume : Q;
  performance : Performance;
  priceChange : Q;
  liquidity : Q
}.

(** [startDate] and [endDate] are the time values of the two [Date]s. *)
Record AggregatedData : Type := {
  period : string;
  startDate : number;
  endDate : number;
  avgVolatility : VolatilityLevel;
  totalVolume : Q;
  avgPerformance : Performance;
  avgPriceChange : number;
  avgLiquidity : number
}.

Definition VolatilityLevel_eqb (a b : VolatilityLevel) : bool :=
  match a, b with
  | low, low | medium, medium | high, high => true
  | _, _ => false
  end.

Definition Performance_eqb (a b : Performance) : bool :=
  match a, b with
  | positive, positive | negative, negative | neutral, neutral => true
  | _, _ => false
  end.

(** The strings ['low'], ['positive'], ... are not array indices. *)
#[export] Instance VolatilityLevel_PropertyKey : PropertyKey VolatilityLevel := {
  key_eqb := VolatilityLevel_eqb;
  key_eqb_eq := ltac:(intros [] []; simpl; split; congruence);
  array_index := fun _ => None
}.

#[export] Instance Performance_PropertyKey : PropertyKey Performance := {
  key_eqb := Performance_eqb;
  key_eqb_eq := ltac:(intros [] []; simpl; split; congruence);
  array_index := fun _ => None
}.

(** ** market-utils.ts: the weighted sampler *)

(** [weights.reduce((sum, weight) => sum + weight, 0)] *)
Definition Qsum (l : list Q) : Q := fold_left Qplus l 0.

(** The [for] loop of [weightedRandom], from index [i] on; [items_i] and
    [weights_i] are the arrays from that index.  [None] means the loop
    ran to the end of [items] without returning. *)
Fixpoint weightedRandom_loop (T : Type) (items_i : list T) (weights_i : list Q)
    (random : number) : option T :=
  match items_i with
  | [] => None
  | item :: items' =>
      let random := sub random (of_element (hd_error weights_i)) in
      if leb random (Fin 0) then Some item
      else weightedRandom_loop items' (tl weights_i) random
  end.

(** [weightedRandom(items, weights)], with [u] the value that
    [Math.random()] returns.  The result is [None] for JavaScript's
    [undefined], which is [items[-1]] of an empty array. *)
Definition weightedRandom (T : Type) (items : list T) (weights : list Q)
    (u : Q) : option T :=
  let totalWeight := Qsum weights in
  let random := Fin (u * totalWeight) in
  match weightedRandom_loop items weights random with
  | Some item => Some item
  | None => nth_error items (length items - 1)
  end.

(** ** market-utils.ts: the series synthesizer *)

(** The source of randomness: the [n]-th call of [Math.random()] returns
    [draws n], a value in the interval from 0 to 1, 1 excluded. *)
Definition Random : Type := nat -> Q.

Definition volatilityLevels : list VolatilityLevel := [low; medium; high].

Definition performances : list Performance := [positive; negative; neutral].

(** [dayOfMonth > 25] *)
Definition isMonthEnd (current : Dayjs.t) : bool := (25 <? Dayjs.date current)%Z.

(** [[1, 4, 7, 10].includes(current.month() + 1)] *)
Definition isEarningsSeason (current : Dayjs.t) : bool :=
  existsb (Z.eqb (Dayjs.month current + 1)) [1; 4; 7; 10]%Z.

Definition volatilityWeights (current : Dayjs.t) : list Q :=
  if isMonthEnd current || isEarningsSeason current
  then [0.2; 0.4; 0.4]
  else [0.5; 0.3; 0.2].

(** The record that the loop body pushes for a weekday; it uses the draws
    [n] to [n + 4].  The two defaults stand for [undefined] and are not
    reached: the item list has three elements, and a draw below 1 gives an
    index below 3. *)
Definition mock_point (current : Dayjs.t) (draws : Random) (n : nat)
    : MarketData :=
  let volatilityLevel :=
    match weightedRandom volatilityLevels (volatilityWeights current) (draws n) with
    | Some v => v
    | None => high
    end in
  let performance :=
    nth (Z.to_nat (Qfloor (draws (n + 1)%nat * inject_Z 3))) performances neutral in
  {| date := Dayjs.format_YYYY_MM_DD current;
     volatilityLevel := volatilityLevel;
     volume := inject_Z (Qfloor (draws (n + 2)%nat * 1000000)) + 100000;
     performance := performance;
     priceChange := (draws (n + 3)%nat - 0.5) * 10;
     liquidity := inject_Z (Qfloor (draws (n + 4)%nat * 100)) + 1 |}.

(** The [while] loop.  [fuel] bounds the number of iterations; [None]
    means that the loop is still running when the fuel is used up.
    [current] is a [const] and dayjs objects are immutable:
    [current.add(1, 'day')] builds a new object, which the loop drops. *)
Fixpoint generate_loop (fuel : nat) (current end_ : Dayjs.t) (draws : Random)
    (n : nat) (data : list MarketData) : option (list MarketData) :=
  match fuel with
  | O => None
  | S fuel' =>
      if Dayjs.isBefore current end_ || Dayjs.isSame_day current end_ then
        let dayOfWeek := Dayjs.day current in
        let isWeekend := ((dayOfWeek =? 0) || (dayOfWeek =? 6))%Z in
        let '(data, n) :=
          if negb isWeekend
          then (data ++ [mock_point current draws n], (n + 5)%nat)
          else (data, n) in
        let _dropped := Dayjs.add_day current 1 in
        generate_loop fuel' current end_ draws n data
      else Some data
  end.

(** [generateMockMarketData(startDate, endDate)]; the two dates are given
    by their time values. *)
Definition generateMockMarketData (fuel : nat) (startDate endDate : Z)
    (draws : Random) : option (list MarketData) :=
  let current := Dayjs.of_Date startDate in
  let end_ := Dayjs.of_Date endDate in
  generate_loop fuel current end_ draws 0 [].

(** ** market-utils.ts: aggregation *)

(** [array.reduce(f)] without an initial value throws on an empty array. *)
Definition reduce1 (A : Type) (f : A -> A -> A) (l : list A) : option A :=
  match l with
  | [] => None
  | x :: l' => Some (fold_left f l' x)
  end.

(** [array.map(f)] for an [f] that can throw. *)
Fixpoint map_throwing (A B : Type) (f : A -> option B) (l : list A)
    : option (list B) :=
  match l with
  | [] => Some []
  | x :: l' =>
      match f x with
      | Some y => option_map (cons y) (map_throwing f l')
      | None => None
      end
  end.

Section MostFrequent.
Context {L : Type} `{PropertyKey L}.
Variable level : MarketData -> L.

(** [data.reduce((acc, item) => { acc[k] = (acc[k] || 0) + 1; return acc }, {})] *)
Definition count_levels (data : list MarketData) : JsObject.t L nat :=
  fold_left
    (fun acc item =>
       let k := level item in
       JsObject.set k
         (match JsObject.get k acc with Some n => n | None => 0 end + 1)%nat
         acc)
    data JsObject.empty.

(** [counts[a[0]] > counts[b[0]]]; a comparison with [undefined] is false. *)
Definition count_gtb (counts : JsObject.t L nat) (a b : L * nat) : bool :=
  match JsObject.get (fst a) counts, JsObject.get (fst b) counts with
  | Some x, Some y => (y <? x)%nat
  | _, _ => false
  end.

(** [Object.entries(counts).reduce((a, b) => counts[a[0]] > counts[b[0]] ? a : b)[0]] *)
Definition getMostFrequent (data : list MarketData) : option L :=
  let counts := count_levels data in
  option_map fst
    (reduce1 (fun a b => if count_gtb counts a b then a else b)
       (JsObject.entries counts)).

End MostFrequent.

Definition getMostFrequentVolatility : list MarketData -> option VolatilityLevel :=
  getMostFrequent volatilityLevel.

Definition getMostFrequentPerformance : list MarketData -> option Performance :=
  getMostFrequent performance.

(** [Math.min(...l)] and [Math.max(...l)] on time values. *)
Definition Math_min (l : list Z) : number :=
  fold_right (fun x acc => JsNum.min (of_Z x) acc) PosInf l.

Definition Math_max (l : list Z) : number :=
  fold_right (fun x acc => if leb acc (of_Z x) then of_Z x else acc) NegInf l.

(** [new Date(n)]: the time value, NaN (an invalid date) unless finite. *)
Definition new_Date (n : number) : number :=
  match n with Fin q => Fin q | _ => NaN end.

(** [if (!groups[key]) groups[key] = []; groups[key].push(item)] *)
Definition push_group (key : string) (item : MarketData)
    (groups : JsObject.t string (list MarketData))
    : JsObject.t string (list MarketData) :=
  match JsObject.get key groups with
  | Some bucket => JsObject.set key (bucket ++ [item]) groups
  | None => JsObject.set key [item] groups
  end.

(** The function mapped over [Object.entries(groups)]; week and month
    aggregation have the same one. *)
Definition aggregate_entry (e : string * list MarketData) : option AggregatedData :=
  let '(period, bucket) := e in
  let dates := map (fun d => Dayjs.of_day (date d)) bucket in
  let timestamps := map Dayjs.valueOf dates in
  let startDate := new_Date (Math_min timestamps) in
  let endDate := new_Date (Math_max timestamps) in
  match getMostFrequentVolatility bucket with
  | None => None
  | Some avgVolatility =>
      let totalVolume := fold_left (fun sum d => sum + volume d) bucket 0 in
      match getMostFrequentPerformance bucket with
      | None => None
      | Some avgPerformance =>
          Some {|
            period := period;
            startDate := startDate;
            endDate := endDate;
            avgVolatility := avgVolatility;
            totalVolume := totalVolume;
            avgPerformance := avgPerformance;
            avgPriceChange :=
              div (Fin (fold_left (fun sum d => sum + priceChange d) bucket 0))
                (of_nat (List.length bucket));
            avgLiquidity :=
              div (Fin (fold_left (fun sum d => sum + liquidity d) bucket 0))
                (of_nat (List.length bucket))
          |}
      end
  end.

Definition weekKey (year : Z) (d : Dayjs.t) : string :=
  String_of_Z year ++ "-W" ++ String_of_Z (Dayjs.week d).

Definition monthKey (year : Z) (d : Dayjs.t) : string :=
  String_of_Z year ++ "-" ++ padStart2 (String_of_Z (Dayjs.month d + 1)).

(** The grouping [reduce] of both aggregators, for a key function. *)
Definition group_year (key : Z -> Dayjs.t -> string) (data : list MarketData)
    (year : Z) : JsObject.t string (list MarketData) :=
  fold_left
    (fun groups item =>
       let d := Dayjs.of_day (date item) in
       if negb (Dayjs.year d =? year)%Z then groups
       else push_group (key year d) item groups)
    data JsObject.empty.

Definition aggregateDataByWeek (data : list MarketData) (year : Z)
    : option (list AggregatedData) :=
  let weekGroups := group_year weekKey data year in
  map_throwing aggregate_entry (JsObject.entries weekGroups).

Definition aggregateDataByMonth (data : list MarketData) (year : Z)
    : option (list AggregatedData) :=
  let monthGroups := group_year monthKey data year in
  map_throwing aggregate_entry (JsObject.entries monthGroups).

(** ** Strings of numbers, and sorting *)

(** [s.padStart(width, '0')] *)
Fixpoint pad_zeros (missing : nat) (s : string) : string :=
  match missing with
  | O => s
  | S m => String "0" (pad_zeros m s)
  end.

(** [x.toFixed(digits)] for a number of magnitude below [10 ^ 21],
    rounding half away from zero.  From [10 ^ 21] on the code prints the
    exponent form of the number, which the function does not give. *)
Definition toFixed (x : number) (digits : nat) : string :=
  match x with
  | NaN => "NaN"
  | PosInf => "Infinity"
  | NegInf => "-Infinity"
  | Fin q =>
      let p := (10 ^ Z.of_nat digits)%Z in
      let n := Qfloor (Qabs q * inject_Z p + 0.5) in
      let fraction := String_of_Z (n mod p) in
      (if Qltb q 0 then "-" else "") ++
      String_of_Z (n / p) ++
      match digits with
      | O => ""
      | _ => "." ++ pad_zeros (digits - String.length fraction) fraction
      end
  end.

(** [array.sort(compare)]: a stable sort; [a] goes behind [b] when
    [compare(a, b)] is positive. *)
Section Sort.
Variable A : Type.
Variable compare : A -> A -> number.

Fixpoint sort_insert (a : A) (l : list A) : list A :=
  match l with
  | [] => [a]
  | b :: l' => if gtb (compare a b) (Fin 0) then b :: sort_insert a l' else a :: l
  end.

Definition sort (l : list A) : list A := fold_right sort_insert [] l.

End Sort.

(** ** market-utils.ts: lookup and display *)

(** [getMarketDataForDate(data, date)], with [date] the time value of the
    [Date]; [None] is [undefined], the result of [find] without a match. *)
Definition getMarketDataForDate (data : list MarketData) (date_ : Z)
    : option MarketData :=
  let dateString := Dayjs.format_YYYY_MM_DD (Dayjs.of_Date date_) in
  find (fun d => (date d =? dateString)%Z) data.

Section FormatVolume.

(** [volume.toString()], the shortest decimal that reads back as the
    number; it is left open, the model has no floating point. *)
Variable Number_toString : Q -> string.

Definition formatVolume (volume : Q) : string :=
  if Qle_bool 1000000 volume then
    toFixed (div (Fin volume) (Fin 1000000)) 1 ++ "M"
  else if Qle_bool 1000 volume then
    toFixed (div (Fin volume) (Fin 1000)) 0 ++ "K"
  else Number_toString volume.

End FormatVolume.

(** ** PatternAnalysis.tsx *)

Module PatternAnalysis.

Module SeasonalPattern.

Inductive kind : Type := bullish | bearish | volatile | stable.

Record t : Type := {
  type : kind;
  period : string;
  strength : number;
  description : string;
  frequency : nat
}.

End SeasonalPattern.

Module Anomaly.

Inductive kind : Type := volume_spike | volatility_spike | price_gap.

Inductive severity_level : Type := low | medium | high.

Record t : Type := {
  date : Z;
  type : kind;
  severity : severity_level;
  description : string;
  value : Q
}.

End Anomaly.

(** [data.reduce((sum, d) => sum + d.priceChange, 0) / data.length] and
    the like. *)
Definition average (field : MarketData -> Q) (data : list MarketData) : number :=
  div (Fin (fold_left (fun sum d => sum + field d) data 0))
    (of_nat (List.length data)).

(** The groups by [dayjs(data.date).format('MM')]. *)
Definition monthlyData (marketData : list MarketData)
    : JsObject.t string (list MarketData) :=
  fold_left
    (fun acc data =>
       let month := Dayjs.format_MM (Dayjs.of_day (date data)) in
       push_group month data acc)
    marketData JsObject.empty.

(** The callback of the first [forEach], with the patterns it pushes. *)
Definition month_patterns (e : string * list MarketData)
    : list SeasonalPattern.t :=
  let '(month, data) := e in
  if (List.length data <? 3)%nat then []
  else
    let avgChange := average priceChange data in
    let volatilityCount :=
      List.length
        (filter (fun d => VolatilityLevel_eqb (volatilityLevel d) high) data) in
    let volatilityRatio := div (of_nat volatilityCount) (of_nat (List.length data)) in
    (if gtb (abs avgChange) (Fin 2) then
       [ {| SeasonalPattern.type :=
              if gtb avgChange (Fin 0) then SeasonalPattern.bullish
              else SeasonalPattern.bearish;
            SeasonalPattern.period := "Month " ++ month;
            SeasonalPattern.strength :=
              JsNum.min (Fin 100) (mul (abs avgChange) (Fin 20));
            SeasonalPattern.description :=
              "Historically " ++
              (if gtb avgChange (Fin 0) then "positive" else "negative") ++
              " in month " ++ month ++ " (" ++ toFixed avgChange 1 ++ "% avg)";
            SeasonalPattern.frequency := List.length data |} ]
     else []) ++
    (if gtb volatilityRatio (Fin 0.6) then
       [ {| SeasonalPattern.type := SeasonalPattern.volatile;
            SeasonalPattern.period := "Month " ++ month;
            SeasonalPattern.strength := mul volatilityRatio (Fin 100);
            SeasonalPattern.description :=
              "High volatility period in month " ++ month ++ " (" ++
              toFixed (mul volatilityRatio (Fin 100)) 0 ++ "% of days)";
            SeasonalPattern.frequency := List.length data |} ]
     else []).

(** The groups by [dayjs(data.date).day()]; the number is the property
    key, that is, its decimal string. *)
Definition weeklyData (marketData : list MarketData)
    : JsObject.t string (list MarketData) :=
  fold_left
    (fun acc data =>
       let dayOfWeek := Dayjs.day (Dayjs.of_day (date data)) in
       push_group (String_of_Z dayOfWeek) data acc)
    marketData JsObject.empty.

Definition dayNames : list string :=
  ["Sunday"; "Monday"; "Tuesday"; "Wednesday"; "Thursday"; "Friday";
   "Saturday"]%string.

(** [dayNames[parseInt(day)]]; the keys are ["0"] to ["6"], so the value
    is never [undefined]. *)
Definition dayName (day : string) : string :=
  match parseInt day with
  | Some i =>
      if (i <? 0)%Z then "undefined"%string
      else nth (Z.to_nat i) dayNames "undefined"%string
  | None => "undefined"%string
  end.

(** The callback of the second [forEach]. *)
Definition day_patterns (marketData : list MarketData)
    (e : string * list MarketData) : list SeasonalPattern.t :=
  let '(day, data) := e in
  if (List.length data <? 3)%nat then []
  else
    let avgChange := average priceChange data in
    let avgVolume := average volume data in
    let overallAvgVolume := average volume marketData in
    let volumeRatio := div avgVolume overallAvgVolume in
    (if gtb (abs avgChange) (Fin 1.5) then
       [ {| SeasonalPattern.type :=
              if gtb avgChange (Fin 0) then SeasonalPattern.bullish
              else SeasonalPattern.bearish;
            SeasonalPattern.period := dayName day;
            SeasonalPattern.strength :=
              JsNum.min (Fin 100) (mul (abs avgChange) (Fin 30));
            SeasonalPattern.description :=
              dayName day ++ "s tend to be " ++
              (if gtb avgChange (Fin 0) then "positive" else "negative") ++
              " (" ++ toFixed avgChange 1 ++ "% avg)";
            SeasonalPattern.frequency := List.length data |} ]
     else []) ++
    (if gtb volumeRatio (Fin 1.3) then
       [ {| SeasonalPattern.type := SeasonalPattern.volatile;
            SeasonalPattern.period := dayName day;
            SeasonalPattern.strength :=
              JsNum.min (Fin 100) (mul (sub volumeRatio (Fin 1)) (Fin 100));
            SeasonalPattern.description :=
              "High trading activity on " ++ dayName day ++ "s (" ++
              toFixed (mul volumeRatio (Fin 100)) 0 ++ "% above average)";
            SeasonalPattern.frequency := List.length data |} ]
     else []).

(** The array [patterns] after both passes, before it is sorted. *)
Definition detected_patterns (marketData : list MarketData)
    : list SeasonalPattern.t :=
  flat_map month_patterns (JsObject.entries (monthlyData marketData)) ++
  flat_map (day_patterns marketData) (JsObject.entries (weeklyData marketData)).

(** [(a, b) => b.strength - a.strength] *)
Definition by_strength (a b : SeasonalPattern.t) : number :=
  sub (SeasonalPattern.strength b) (SeasonalPattern.strength a).

Definition seasonalPatterns (marketData : list MarketData)
    : list SeasonalPattern.t :=
  if (List.length marketData <? 30)%nat then []
  else firstn 6 (sort by_strength (detected_patterns marketData)).

Section Anomalies.

(** [Math.sqrt] on the finite numbers that are not negative.  Which
    rational it returns is left open: the model has no rounding. *)
Variable Math_sqrt : Q -> Q.

Definition sqrt (x : number) : number :=
  match x with
  | Fin q => if Qltb q 0 then NaN else Fin (Math_sqrt q)
  | PosInf => PosInf
  | NegInf | NaN => NaN
  end.

(** [Math.pow(x, 2)] *)
Definition square (x : number) : number := mul x x.

(** [Math.sqrt(values.reduce((sum, c) => sum + Math.pow(c - avg, 2), 0) / values.length)] *)
Definition standard_deviation (values : list Q) (avg : number) : number :=
  sqrt
    (div
       (fold_left (fun sum c => add sum (square (sub (Fin c) avg))) values (Fin 0))
       (of_nat (List.length values))).

Definition avgVolume (marketData : list MarketData) : number :=
  average volume marketData.

Definition volumeStdDev (marketData : list MarketData) : number :=
  standard_deviation (map volume marketData) (avgVolume marketData).

(** [marketData.map(d => Math.abs(d.priceChange))] *)
Definition priceChanges (marketData : list MarketData) : list Q :=
  map (fun d => Qabs (priceChange d)) marketData.

Definition avgPriceChange (marketData : list MarketData) : number :=
  div (Fin (fold_left (fun sum c => sum + c) (priceChanges marketData) 0))
    (of_nat (List.length (priceChanges marketData))).

Definition priceChangeStdDev (marketData : list MarketData) : number :=
  standard_deviation (priceChanges marketData) (avgPriceChange marketData).

Definition volumeZScore (marketData : list MarketData) (data : MarketData)
    : number :=
  div (sub (Fin (volume data)) (avgVolume marketData)) (volumeStdDev marketData).

(** The three rules of the [forEach] callback, each with what it pushes. *)
Definition volume_rule (marketData : list MarketData) (data : MarketData)
    : list Anomaly.t :=
  let volumeZScore := volumeZScore marketData data in
  if gtb volumeZScore (Fin 2) then
    [ {| Anomaly.date := date data;
         Anomaly.type := Anomaly.volume_spike;
         Anomaly.severity :=
           if gtb volumeZScore (Fin 3) then Anomaly.high
           else if gtb volumeZScore (Fin 2.5) then Anomaly.medium
           else Anomaly.low;
         Anomaly.description :=
           "Unusual trading volume: " ++
           toFixed
             (mul (sub (div (Fin (volume data)) (avgVolume marketData)) (Fin 1))
                (Fin 100)) 0 ++
           "% above average";
         Anomaly.value := volume data |} ]
  else [].

Definition volatility_rule (marketData : list MarketData) (data : MarketData)
    : list Anomaly.t :=
  if VolatilityLevel_eqb (volatilityLevel data) high &&
     gtb (Fin (Qabs (priceChange data)))
       (add (avgPriceChange marketData)
          (mul (Fin 2) (priceChangeStdDev marketData)))
  then
    [ {| Anomaly.date := date data;
         Anomaly.type := Anomaly.volatility_spike;
         Anomaly.severity :=
           if gtb (Fin (Qabs (priceChange data)))
                (add (avgPriceChange marketData)
                   (mul (Fin 3) (priceChangeStdDev marketData)))
           then Anomaly.high else Anomaly.medium;
         Anomaly.description :=
           "High volatility event: " ++
           toFixed (Fin (Qabs (priceChange data))) 1 ++ "% price movement";
         Anomaly.value := Qabs (priceChange data) |} ]
  else [].

(** [prev] is [marketData[index - 1]], or [None] at index 0. *)
Definition gap_rule (prev : option MarketData) (data : MarketData)
    : list Anomaly.t :=
  match prev with
  | None => []
  | Some prevData =>
      let gap := Qabs (priceChange data - priceChange prevData) in
      if Qltb 5 gap then
        [ {| Anomaly.date := date data;
             Anomaly.type := Anomaly.price_gap;
             Anomaly.severity :=
               if Qltb 10 gap then Anomaly.high
               else if Qltb 7 gap then Anomaly.medium
               else Anomaly.low;
             Anomaly.description :=
               "Significant price gap: " ++ toFixed (Fin gap) 1 ++
               "% difference from previous day";
             Anomaly.value := gap |} ]
      else []
  end.

(** The [forEach] over the rest of the array, [prev] being the element
    before it. *)
Fixpoint detect_from (marketData : list MarketData) (prev : option MarketData)
    (rest : list MarketData) : list Anomaly.t :=
  match rest with
  | [] => []
  | data :: rest' =>
      volume_rule marketData data ++
      volatility_rule marketData data ++
      gap_rule prev data ++
      detect_from marketData (Some data) rest'
  end.

(** The array [anomalies] after the [forEach], before it is sorted. *)
Definition detected_anomalies (marketData : list MarketData) : list Anomaly.t :=
  detect_from marketData None marketData.

(** [(a, b) => dayjs(b.date).valueOf() - dayjs(a.date).valueOf()] *)
Definition by_date_descending (a b : Anomaly.t) : number :=
  of_Z (Dayjs.valueOf (Dayjs.of_day (Anomaly.date b)) -
        Dayjs.valueOf (Dayjs.of_day (Anomaly.date a))).

Definition anomalies (marketData : list MarketData) : list Anomaly.t :=
  if (List.length marketData <? 10)%nat then []
  else firstn 10 (sort by_date_descending (detected_anomalies marketData)).

End Anomalies.

End PatternAnalysis.

(** ** Calendar.tsx *)

Module Calendar.

(** The [while] loop of [renderDailyView].  Here [current] is a [let]
    that is assigned the next day on every round.  [None] means that the
    loop is still running when the fuel is used up. *)
Fixpoint days_loop (fuel : nat) (current endOfCalendar : Dayjs.t)
    (days : list Z) : option (list Z) :=
  match fuel with
  | O => None
  | S fuel' =>
      if Dayjs.isBefore current endOfCalendar ||
         Dayjs.isSame_day current endOfCalendar
      then
        let days := days ++ [Dayjs.toDate current] in
        let current := Dayjs.add_day current 1 in
        days_loop fuel' current endOfCalendar days
      else Some days
  end.

(** The array [days] of [renderDailyView]: the dates of the cells of the
    month grid. *)
Definition renderDailyView_days (fuel : nat) (currentDate : Dayjs.t)
    : option (list Z) :=
  let startOfMonth := Dayjs.startOf_month currentDate in
  let endOfMonth := Dayjs.endOf_month currentDate in
  let startOfCalendar := Dayjs.startOf_week startOfMonth in
  let endOfCalendar := Dayjs.endOf_week endOfMonth in
  days_loop fuel startOfCalendar endOfCalendar [].

(** The points shown in the cells of the month grid. *)
Definition renderDailyView_cells (fuel : nat) (marketData : list MarketData)
    (currentDate : Dayjs.t) : option (list (option MarketData)) :=
  option_map (map (getMarketDataForDate marketData))
    (renderDailyView_days fuel currentDate).





End Calendar.

(** ** The aggregators and the anomaly detector in binary64 arithmetic *)

(** The same functions of [market-utils.ts] and [PatternAnalysis.tsx],
    with every stored number read as the double nearest to it and every
    addition, subtraction, multiplication and division rounded to the
    nearest double.  Grouping, dominant categories and dates are those of
    the functions above. *)
Module Rounded.

(** The sums and the means are doubles; a sum of finite doubles can be
    an infinity. *)
Record AggregatedData : Type := {
  period : string;
  startDate : number;
  endDate : number;
  avgVolatility : VolatilityLevel;
  totalVolume : number;
  avgPerformance : Performance;
  avgPriceChange : number;
  avgLiquidity : number
}.

(** [bucket.reduce((sum, d) => sum + d.field, 0)] *)
Definition reduce_sum (field : MarketData -> Q) (bucket : list MarketData)
    : number :=
  fold_left (fun sum d => Double.add sum (Double.of_Q (field d))) bucket (Fin 0).

(** The function mapped over [Object.entries(groups)]. *)
Definition aggregate_entry (e : string * list MarketData)
    : option AggregatedData :=
  let '(period, bucket) := e in
  let dates := map (fun d => Dayjs.of_day (date d)) bucket in
  let timestamps := map Dayjs.valueOf dates in
  let startDate := new_Date (Math_min timestamps) in
  let endDate := new_Date (Math_max timestamps) in
  match getMostFrequentVolatility bucket with
  | None => None
  | Some avgVolatility =>
      let totalVolume := reduce_sum volume bucket in
      match getMostFrequentPerformance bucket with
      | None => None
      | Some avgPerformance =>
          Some {|
            period := period;
            startDate := startDate;
            endDate := endDate;
            avgVolatility := avgVolatility;
            totalVolume := totalVolume;
            avgPerformance := avgPerformance;
            avgPriceChange :=
              Double.div (reduce_sum priceChange bucket)
                (of_nat (List.length bucket));
            avgLiquidity :=
              Double.div (reduce_sum liquidity bucket)
                (of_nat (List.length bucket))
          |}
      end
  end.

Definition aggregateDataByWeek (data : list MarketData) (year : Z)
    : option (list AggregatedData) :=
  let weekGroups := group_year weekKey data year in
  map_throwing aggregate_entry (JsObject.entries weekGroups).

Definition aggregateDataByMonth (data : list MarketData) (year : Z)
    : option (list AggregatedData) :=
  let monthGroups := group_year monthKey data year in
  map_throwing aggregate_entry (JsObject.entries monthGroups).

Module PatternAnalysis.

Module Anomaly.

(** [value] is a double. *)
Record t : Type := {
  date : Z;
  type : PatternAnalysis.Anomaly.kind;
  severity : PatternAnalysis.Anomaly.severity_level;
  description : string;
  value : number
}.

End Anomaly.

Section Anomalies.

(** [Math.sqrt]: the root of zero is zero; the root of a positive number
    is the double nearest to [Math_sqrt q], and which rational
    [Math_sqrt q] is, is left open. *)
Variable Math_sqrt : Q -> Q.

Definition sqrt (x : number) : number :=
  match x with
  | Fin q =>
      if Qltb q 0 then NaN
      else if Qeq_bool q 0 then Fin 0
      else Double.round (Math_sqrt q)
  | PosInf => PosInf
  | NegInf | NaN => NaN
  end.

(** [Math.pow(x, 2)], taken as the rounded product of [x] with itself. *)
Definition square (x : number) : number := Double.mul x x.

Definition avgVolume (marketData : list MarketData) : number :=
  Double.div (reduce_sum volume marketData) (of_nat (List.length marketData)).

Definition volumeStdDev (marketData : list MarketData) : number :=
  let avgVolume := avgVolume marketData in
  sqrt
    (Double.div
       (fold_left
          (fun sum d =>
             Double.add sum
               (square (Double.sub (Double.of_Q (volume d)) avgVolume)))
          marketData (Fin 0))
       (of_nat (List.length marketData))).

(** [marketData.map(d => Math.abs(d.priceChange))] *)
Definition priceChanges (marketData : list MarketData) : list number :=
  map (fun d => abs (Double.of_Q (priceChange d))) marketData.

Definition avgPriceChange (marketData : list MarketData) : number :=
  Double.div
    (fold_left (fun sum c => Double.add sum c) (priceChanges marketData) (Fin 0))
    (of_nat (List.length (priceChanges marketData))).

Definition priceChangeStdDev (marketData : list MarketData) : number :=
  let avgPriceChange := avgPriceChange marketData in
  sqrt
    (Double.div
       (fold_left
          (fun sum c => Double.add sum (square (Double.sub c avgPriceChange)))
          (priceChanges marketData) (Fin 0))
       (of_nat (List.length (priceChanges marketData)))).

(** The callback of [forEach] reads the four numbers computed before the
    loop; they are parameters of its three rules. *)
Definition volumeZScore (avgVolume volumeStdDev : number) (data : MarketData)
    : number :=
  Double.div (Double.sub (Double.of_Q (volume data)) avgVolume) volumeStdDev.

(** The three rules of the callback, each with what it pushes. *)
Definition volume_rule (avgVolume volumeStdDev : number) (data : MarketData)
    : list Anomaly.t :=
  let volumeZScore := volumeZScore avgVolume volumeStdDev data in
  if gtb volumeZScore (Fin 2) then
    [ {| Anomaly.date := date data;
         Anomaly.type := PatternAnalysis.Anomaly.volume_spike;
         Anomaly.severity :=
           if gtb volumeZScore (Fin 3) then PatternAnalysis.Anomaly.high
           else if gtb volumeZScore (Fin 2.5) then PatternAnalysis.Anomaly.medium
           else PatternAnalysis.Anomaly.low;
         Anomaly.description :=
           "Unusual trading volume: " ++
           toFixed
             (Double.mul
                (Double.sub
                   (Double.div (Double.of_Q (volume data)) avgVolume)
                   (Fin 1))
                (Fin 100)) 0 ++
           "% above average";
         Anomaly.value := Double.of_Q (volume data) |} ]
  else [].

Definition volatility_rule (avgPriceChange priceChangeStdDev : number)
    (data : MarketData) : list Anomaly.t :=
  if VolatilityLevel_eqb (volatilityLevel data) high &&
     gtb (abs (Double.of_Q (priceChange data)))
       (Double.add avgPriceChange (Double.mul (Fin 2) priceChangeStdDev))
  then
    [ {| Anomaly.date := date data;
         Anomaly.type := PatternAnalysis.Anomaly.volatility_spike;
         Anomaly.severity :=
           if gtb (abs (Double.of_Q (priceChange data)))
                (Double.add avgPriceChange
                   (Double.mul (Fin 3) priceChangeStdDev))
           then PatternAnalysis.Anomaly.high
           else PatternAnalysis.Anomaly.medium;
         Anomaly.description :=
           "High volatility event: " ++
           toFixed (abs (Double.of_Q (priceChange data))) 1 ++ "% price movement";
         Anomaly.value := abs (Double.of_Q (priceChange data)) |} ]
  else [].

(** [prev] is [marketData[index - 1]], or [None] at index 0. *)
Definition gap_rule (prev : option MarketData) (data : MarketData)
    : list Anomaly.t :=
  match prev with
  | None => []
  | Some prevData =>
      let gap :=
        abs (Double.sub (Double.of_Q (priceChange data))
               (Double.of_Q (priceChange prevData))) in
      if gtb gap (Fin 5) then
        [ {| Anomaly.date := date data;
             Anomaly.type := PatternAnalysis.Anomaly.price_gap;
             Anomaly.severity :=
               if gtb gap (Fin 10) then PatternAnalysis.Anomaly.high
               else if gtb gap (Fin 7) then PatternAnalysis.Anomaly.medium
               else PatternAnalysis.Anomaly.low;
             Anomaly.description :=
               "Significant price gap: " ++ toFixed gap 1 ++
               "% difference from previous day";
             Anomaly.value := gap |} ]
      else []
  end.

(** The [forEach] over the rest of the array, [prev] being the element
    before it. *)
Fixpoint detect_from
    (avgVolume volumeStdDev avgPriceChange priceChangeStdDev : number)
    (prev : option MarketData) (rest : list MarketData) : list Anomaly.t :=
  match rest with
  | [] => []
  | data :: rest' =>
      volume_rule avgVolume volumeStdDev data ++
      volatility_rule avgPriceChange priceChangeStdDev data ++
      gap_rule prev data ++
      detect_from avgVolume volumeStdDev avgPriceChange priceChangeStdDev
        (Some data) rest'
  end.

(** The array [anomalies] after the [forEach], before it is sorted. *)
Definition detected_anomalies (marketData : list MarketData) : list Anomaly.t :=
  let avgVolume := avgVolume marketData in
  let volumeStdDev := volumeStdDev marketData in
  let avgPriceChange := avgPriceChange marketData in
  let priceChangeStdDev := priceChangeStdDev marketData in
  detect_from avgVolume volumeStdDev avgPriceChange priceChangeStdDev None
    marketData.

(** [(a, b) => dayjs(b.date).valueOf() - dayjs(a.date).valueOf()]; time
    values are integers, and their difference is exact. *)
Definition by_date_descending (a b : Anomaly.t) : number :=
  of_Z (Dayjs.valueOf (Dayjs.of_day (Anomaly.date b)) -
        Dayjs.valueOf (Dayjs.of_day (Anomaly.date a))).

Definition anomalies (marketData : list MarketData) : list Anomaly.t :=
  if (List.length marketData <? 10)%nat then []
  else firstn 10 (sort by_date_descending (detected_anomalies marketData)).

End Anomalies.

End PatternAnalysis.

End Rounded.

(** A square root that is exact on the squares of rationals, for
    computing examples: the root of [n/d] is taken as the integer root of
    [n * d], divided by [d]. *)
Definition sqrt_of_squares (q : Q) : Q :=
  Qmake (Z.sqrt (Qnum q * Zpos (Qden q))) (Qden q).

(** ** Vocabulary of the statements *)


(** The points of the series that lie in calendar month [m], of any year. *)
Definition points_of_month (m : Z) (marketData : list MarketData)
    : list MarketData :=
  filter (fun d => (Dayjs.month (Dayjs.of_day (date d)) + 1 =? m)%Z) marketData.

(** The point lies in the target year, as the aggregators test it. *)
Definition in_year (year : Z) (item : MarketData) : bool :=
  (Dayjs.year (Dayjs.of_day (date item)) =? year)%Z.

(** Unit indices of a point: week of the year, and month 1-12. *)
Definition week_index (item : MarketData) : Z :=
  Dayjs.week (Dayjs.of_day (date item)).

Definition month_index (item : MarketData) : Z :=
  (Dayjs.month (Dayjs.of_day (date item)) + 1)%Z.

Definition week_label (year w : Z) : string :=
  String_of_Z year ++ "-W" ++ String_of_Z w.

Definition month_label (year m : Z) : string :=
  String_of_Z year ++ "-" ++ padStart2 (String_of_Z m).

(** The series is ordered ascending by date. *)
Definition ascending (data : list MarketData) : Prop :=
  StronglySorted (fun a b => (date a <= date b)%Z) data.

(** [units] lists, once each, the unit indices that have a point of the
    year. *)
Definition one_per_unit (unit_of : MarketData -> Z) (data : list MarketData)
    (year : Z) (units : list Z) : Prop :=
  NoDup units /\
  forall u, In u units <->
    exists item, In item data /\ in_year year item = true /\ unit_of item = u.

(** The day is one of the last five days of its month. *)
Definition in_last_five_days (current : Dayjs.t) : bool :=
  (Dayjs.daysInMonth current - 5 <? Dayjs.date current)%Z.

(** The loop condition of the synthesizer. *)
Definition loop_continues (current end_ : Dayjs.t) : bool :=
  Dayjs.isBefore current end_ || Dayjs.isSame_day current end_.

Section Modes.
Variable L : Type.
Variable eqb : L -> L -> bool.

(** [r] occurs in [levels], and no value occurs more often. *)
Definition is_mode (levels : list L) (r : L) : Prop :=
  In r levels /\
  forall k, (occurrences eqb k levels <= occurrences eqb r levels)%nat.

(** Every other value that occurs as often as [r] is first seen before
    [r] is first seen: among tied values, the one seen last wins. *)
Definition last_seen_wins_ties (levels : list L) (r : L) : Prop :=
  forall k, k <> r ->
    occurrences eqb k levels = occurrences eqb r levels ->
    exists i j,
      first_index eqb k levels = Some i /\
      first_index eqb r levels = Some j /\ (i < j)%nat.

(** Among tied values, the one seen first wins. *)
Definition first_seen_wins_ties (levels : list L) (r : L) : Prop :=
  forall k, k <> r ->
    occurrences eqb k levels = occurrences eqb r levels ->
    exists i j,
      first_index eqb r levels = Some i /\
      first_index eqb k levels = Some j /\ (i < j)%nat.

End Modes.

(** The finite value of a number, 0 for the others. *)
Definition finite_part (x : number) : Q :=
  match x with Fin q => q | _ => 0 end.

(** The number is finite. *)
Definition is_finite (x : number) : Prop := exists q, x = Fin q.

(** The volume of a bucket. *)
Definition bucket_volume (bucket : list MarketData) : Q :=
  Qsum (map volume bucket).

(** The sum of [W] over the values of an object. *)
Definition object_sum (K V : Type) (W : V -> Q) (o : JsObject.t K V) : Q :=
  Qsum (map (fun e => W (snd e)) o).

(** The group key of a point, for a key function of the aggregators. *)
Definition key_of (key : Z -> Dayjs.t -> string) (year : Z)
    (item : MarketData) : string :=
  key year (Dayjs.of_day (date item)).

(** The points of the year whose group key is [k], in the order of the
    series. *)
Definition bucket_of (key : Z -> Dayjs.t -> string) (year : Z)
    (data : list MarketData) (k : string) : list MarketData :=
  filter (fun d => String.eqb k (key_of key year d)) (filter (in_year year) data).



(** The mean of a field over a bucket. *)
Definition mean (field : MarketData -> Q) (bucket : list MarketData) : Q :=
  Qsum (map field bucket) / inject_Z (Z.of_nat (List.length bucket)).



(** The points of the series that fall on weekday [i] (0 for Sunday). *)
Definition points_of_weekday (i : Z) (marketData : list MarketData)
    : list MarketData :=
  filter (fun d => (Dayjs.day (Dayjs.of_day (date d)) =? i)%Z) marketData.

(** The label of month [m] in a seasonal pattern. *)
Definition month_pattern_label (m : Z) : string :=
  "Month " ++ padStart2 (String_of_Z m).

(** The strength of a pattern as a rational. *)
Definition strength_of (p : PatternAnalysis.SeasonalPattern.t) : Q :=
  finite_part (PatternAnalysis.SeasonalPattern.strength p).

(** What a detected pattern looks like, whichever rule pushed it: a
    finite strength above 30 and at most 100, a group of at least three
    points, and a type other than [stable]. *)
Definition well_formed_pattern (p : PatternAnalysis.SeasonalPattern.t) : Prop :=
  (exists s,
     PatternAnalysis.SeasonalPattern.strength p = Fin s /\ 30 < s /\ s <= 100) /\
  (3 <= PatternAnalysis.SeasonalPattern.frequency p)%nat /\
  PatternAnalysis.SeasonalPattern.type p <> PatternAnalysis.SeasonalPattern.stable.




(** A natural number, as a number of traded units is. *)
Definition natural (q : Q) : Prop := 0 <= q /\ q == inject_Z (Qfloor q).

(** The volumes of a series, as the program reads them. *)
Definition volumes (marketData : list MarketData) : list number :=
  map (fun d => Double.of_Q (volume d)) marketData.

(** Mean, population standard deviation and z-score of the
    specification, in the arithmetic of the program: the sum is taken
    from left to right, and the square root is that of the detector. *)
Section ZScore.
Variable Math_sqrt : Q -> Q.

Definition population_mean (values : list number) : number :=
  Double.div (Double.sum values) (of_nat (List.length values)).

Definition squared_deviations (values : list number) : list number :=
  map (fun v => Double.mul (Double.sub v (population_mean values))
                  (Double.sub v (population_mean values)))
    values.

Definition population_standard_deviation (values : list number) : number :=
  Rounded.PatternAnalysis.sqrt Math_sqrt
    (population_mean (squared_deviations values)).

Definition z_score (values : list number) (v : number) : number :=
  Double.div (Double.sub v (population_mean values))
    (population_standard_deviation values).

End ZScore.

(** The reference arithmetic of the Standard Library: [SpecFloat] with 53
    bits of precision and infinities at [2 ^ 1024] is binary64. *)
Module Reference.

Definition of_Z (z : Z) : SpecFloat.spec_float :=
  SpecFloat.binary_normalize 53 1024 z 0 false.

(** The float of a double whose denominator is a power of two. *)
Definition of_number (x : number) : SpecFloat.spec_float :=
  match x with
  | Fin q =>
      SpecFloat.binary_normalize 53 1024 (Qnum q) (- Z.log2 (Zpos (Qden q)))
        false
  | PosInf => SpecFloat.S754_infinity false
  | NegInf => SpecFloat.S754_infinity true
  | NaN => SpecFloat.S754_nan
  end.

Definition value (f : SpecFloat.spec_float) : number :=
  match f with
  | SpecFloat.S754_zero _ => Fin 0
  | SpecFloat.S754_infinity s => if s then NegInf else PosInf
  | SpecFloat.S754_nan => NaN
  | SpecFloat.S754_finite s m e =>
      Fin (Qred (inject_Z (if s then Zneg m else Zpos m) * Double.pow2 e))
  end.

Definition add := SpecFloat.SFadd 53 1024.
Definition sub := SpecFloat.SFsub 53 1024.
Definition mul := SpecFloat.SFmul 53 1024.
Definition div := SpecFloat.SFdiv 53 1024.

End Reference.

(** ** Example series *)

(** A record, field by field. *)
Definition sample_point (d : Z) (v : VolatilityLevel) (vol : Q)
    (p : Performance) (change liq : Q) : MarketData :=
  {| date := d; volatilityLevel := v; volume := vol; performance := p;
     priceChange := change; liquidity := liq |}.

(** The first two points of the repository's own aggregation test. *)
Definition tied_bucket : list MarketData :=
  [ sample_point (Dayjs.days_from_civil 2024 1 1) low 1000 positive (5 # 2) 80;
    sample_point (Dayjs.days_from_civil 2024 1 2) high 1500 negative (- 3 # 2) 70 ].

(** An ascending series that starts in the last days of December 2024. *)
Definition year_end_series : list MarketData :=
  [ sample_point (Dayjs.days_from_civil 2024 12 23) low 1000 positive 1 50;
    sample_point (Dayjs.days_from_civil 2024 12 30) low 1000 positive 1 50 ].

(** The three points of the repository's month aggregation test. *)
Definition month_test_series : list MarketData :=
  [ sample_point (Dayjs.days_from_civil 2024 1 15) low 1000 positive (5 # 2) 80;
    sample_point (Dayjs.days_from_civil 2024 1 20) high 1500 negative (- 3 # 2) 70;
    sample_point (Dayjs.days_from_civil 2024 2 5) medium 1200 positive 1 75 ].

(** Midnight of Monday 2024-01-01, as a time value. *)
Definition monday_2024_01_01 : Z :=
  Dayjs.valueOf (Dayjs.of_day (Dayjs.days_from_civil 2024 1 1)).

(** Thursday 2024-12-26. *)
Definition thursday_2024_12_26 : Dayjs.t :=
  Dayjs.of_day (Dayjs.days_from_civil 2024 12 26).

(** Twelve days with mean volume 1000 and standard deviation 100; the
    first has z-score 2, the second 2.01. *)
Definition threshold_series : list MarketData :=
  map (fun '(i, v) =>
         sample_point (Dayjs.days_from_civil 2024 3 (1 + Z.of_nat i)) medium v
           neutral 0 50)
    (combine (seq 0 12)
       [1200; 1201; 954; 969; 934; 979; 874; 892; 952; 988; 1036; 1021]).


(** Ten days with the same volume. *)
Definition constant_series : list MarketData :=
  map (fun i =>
         sample_point (Dayjs.days_from_civil 2024 3 (1 + Z.of_nat i)) medium
           1000 neutral 0 50)
    (seq 0 10).


(** Thirty-three days: the three January days, and five days with a price
    change of 5 in each month from February to July 2023. *)
Definition crowded_series : list MarketData :=
  [ sample_point (Dayjs.days_from_civil 2023 1 2) low 1000 positive 3 50;
    sample_point (Dayjs.days_from_civil 2023 1 3) low 1000 positive 3 50 ] ++
  flat_map
    (fun m =>
       map (fun i =>
              sample_point
                (Dayjs.days_from_civil 2023 (2 + Z.of_nat m) (1 + Z.of_nat i))
                low 1000 positive 5 50)
         (seq 0 5))
    (seq 0 6) ++
  [ sample_point (Dayjs.days_from_civil 2024 1 2) low 1000 positive 3 50 ].



(** Three days with volumes that are not doubles: 0.1 in January, 0.2 and
    0.3 in February 2024. *)
Definition rounding_series : list MarketData :=
  [ sample_point (Dayjs.days_from_civil 2024 1 15) low 0.1 positive 1 50;
    sample_point (Dayjs.days_from_civil 2024 2 5) low 0.2 positive 1 50;
    sample_point (Dayjs.days_from_civil 2024 2 6) low 0.3 positive 1 50 ].


(** Ten days with the same tiny volume. *)
Definition tiny_constant_series : list MarketData :=
  map (fun i =>
         sample_point (Dayjs.days_from_civil 2024 3 (1 + Z.of_nat i)) medium
           5e-152 neutral 0 50)
    (seq 0 10).

(** * Properties *)

Lemma Qltb_lt a b : Qltb a b = true <-> a < b.
Proof.
  unfold Qltb. rewrite negb_true_iff, <- not_true_iff_false, Qle_bool_iff.
  split; intro H; [apply Qnot_le_lt | apply Qlt_not_le]; exact H.
Qed.

(** ** Sums of rationals *)

Lemma fold_left_Qplus_acc (l : list Q) (a : Q) :
  fold_left Qplus l a == a + Qsum l.
Proof.
  unfold Qsum. revert a.
  induction l as [| x l IH]; intros a; simpl.
  - ring.
  - rewrite (IH (a + x)), (IH (0 + x)). ring.
Qed.

Lemma Qsum_nil : Qsum [] == 0.
Proof. reflexivity. Qed.

Lemma Qsum_cons (x : Q) (l : list Q) : Qsum (x :: l) == x + Qsum l.
Proof.
  unfold Qsum at 1. simpl. rewrite fold_left_Qplus_acc. ring.
Qed.

Lemma Qsum_app (l1 l2 : list Q) : Qsum (l1 ++ l2) == Qsum l1 + Qsum l2.
Proof.
  induction l1 as [| x l1 IH]; simpl.
  - unfold Qsum at 2. simpl. ring.
  - rewrite !Qsum_cons, IH. ring.
Qed.

Lemma Qsum_Permutation (l l' : list Q) : Permutation l l' -> Qsum l == Qsum l'.
Proof.
  induction 1 as [| x l l' _ IH | x y l | l l' l'' _ IH1 _ IH2].
  - reflexivity.
  - rewrite !Qsum_cons, IH. reflexivity.
  - rewrite !Qsum_cons. ring.
  - now rewrite IH1.
Qed.

Lemma fold_left_field_sum (A : Type) (f : A -> Q) (l : list A) (a : Q) :
  fold_left (fun sum d => sum + f d) l a == a + Qsum (map f l).
Proof.
  revert a. induction l as [| x l IH]; intros a; simpl.
  - unfold Qsum. simpl. ring.
  - rewrite IH, Qsum_cons. ring.
Qed.

Lemma Qsum_nonneg (l : list Q) : Forall (fun w => 0 <= w) l -> 0 <= Qsum l.
Proof.
  induction 1 as [| w l Hw _ IH].
  - rewrite Qsum_nil. lra.
  - rewrite Qsum_cons. lra.
Qed.

Lemma Qsum_constant (l : list Q) (c : Q) :
  Forall (fun x => x == c) l ->
  Qsum l == inject_Z (Z.of_nat (List.length l)) * c.
Proof.
  induction 1 as [| x l Hx _ IH].
  - rewrite Qsum_nil. simpl. ring.
  - cbn [List.length]. rewrite Qsum_cons, IH, Hx.
    rewrite Nat2Z.inj_succ, <- Z.add_1_r, inject_Z_plus. ring.
Qed.

(** ** Plain objects *)

Section ObjectFacts.
Context {K V : Type} `{PropertyKey K}.
Implicit Types (o : JsObject.t K V) (k : K) (v : V).

Lemma key_eqb_refl k : key_eqb k k = true.
Proof. now apply key_eqb_eq. Qed.

Lemma key_eqb_neq k k' : k <> k' -> key_eqb k k' = false.
Proof.
  intros Hne. apply not_true_iff_false. intros E. now apply key_eqb_eq in E.
Qed.

Lemma existsb_key_eqb k (l : list K) : existsb (key_eqb k) l = true <-> In k l.
Proof.
  rewrite existsb_exists. split.
  - intros (x & Hin & E). apply key_eqb_eq in E. now subst.
  - intros Hin. exists k. split; [exact Hin | apply key_eqb_refl].
Qed.

Lemma get_Some_keys k o : (exists v, JsObject.get k o = Some v) <-> In k (JsObject.keys o).
Proof.
  induction o as [| [k' v'] o IH]; simpl.
  - split; [intros [v E]; discriminate | contradiction].
  - destruct (key_eqb k k') eqn:E.
    + apply key_eqb_eq in E. subst. split; [now left | now exists v'].
    + rewrite IH. split; [now right |].
      intros [-> | Hin]; [| exact Hin]. now rewrite key_eqb_refl in E.
Qed.

Lemma get_None_keys k o : JsObject.get k o = None <-> ~ In k (JsObject.keys o).
Proof.
  rewrite <- get_Some_keys. destruct (JsObject.get k o) as [v |].
  - split; [discriminate | intros Hn; exfalso; apply Hn; now exists v].
  - split; [intros _ [v E]; discriminate | reflexivity].
Qed.

Lemma get_set_same k v o : JsObject.get k (JsObject.set k v o) = Some v.
Proof.
  induction o as [| [k' v'] o IH]; simpl.
  - now rewrite key_eqb_refl.
  - destruct (key_eqb k k') eqn:E; simpl; rewrite E; [reflexivity | exact IH].
Qed.

Lemma get_set_other k k' v o :
  k <> k' -> JsObject.get k' (JsObject.set k v o) = JsObject.get k' o.
Proof.
  intros Hne. induction o as [| [k'' v''] o IH]; simpl.
  - rewrite key_eqb_neq; [reflexivity | congruence].
  - destruct (key_eqb k k'') eqn:E; simpl.
    + apply key_eqb_eq in E. subst k''.
      rewrite key_eqb_neq; [reflexivity | congruence].
    + now rewrite IH.
Qed.

Lemma keys_set k v o :
  JsObject.keys (JsObject.set k v o) =
  if existsb (key_eqb k) (JsObject.keys o) then JsObject.keys o
  else JsObject.keys o ++ [k].
Proof.
  induction o as [| [k' v'] o IH]; simpl.
  - reflexivity.
  - destruct (key_eqb k k') eqn:E; simpl.
    + reflexivity.
    + fold (JsObject.keys (JsObject.set k v o)). rewrite IH.
      fold (JsObject.keys o). now destruct (existsb _ _).
Qed.

Lemma insert_index_Permutation i (e : K * V) l :
  Permutation (map snd (JsObject.insert_index i e l)) (e :: map snd l).
Proof.
  induction l as [| [j e'] l IH]; simpl.
  - reflexivity.
  - destruct (i <=? j)%N; simpl.
    + reflexivity.
    + rewrite IH. apply perm_swap.
Qed.

(** [Object.entries] lists every property once. *)
Lemma entries_Permutation o : Permutation (JsObject.entries o) o.
Proof.
  unfold JsObject.entries.
  induction o as [| e o IH]; simpl.
  - reflexivity.
  - destruct (array_index (fst e)) as [i |].
    + rewrite insert_index_Permutation. simpl. now apply perm_skip.
    + apply Permutation_sym, Permutation_cons_app, Permutation_sym, IH.
Qed.

(** Without array-index keys, [Object.entries] follows creation order. *)
Lemma entries_named o :
  (forall k, In k (JsObject.keys o) -> array_index k = None) ->
  JsObject.entries o = o.
Proof.
  unfold JsObject.entries.
  induction o as [| e o IH]; simpl; intros Hnamed.
  - reflexivity.
  - rewrite (Hnamed (fst e)) by now left.
    simpl in IH. rewrite <- (IH (fun k Hk => Hnamed k (or_intror Hk))) at 3.
    assert (E : JsObject.index_entries o = []).
    { clear IH. induction o as [| e' o IH']; simpl; [reflexivity |].
      rewrite (Hnamed (fst e')) by (right; now left).
      apply IH'. intros k [Hk | Hk]; apply Hnamed; [now left | right; now right]. }
    rewrite E. reflexivity.
Qed.

End ObjectFacts.

(** ** First occurrences *)

Section FirstOccurrencesFacts.
Variable A : Type.
Variable eqb : A -> A -> bool.
Hypothesis eqb_eq : forall a b, eqb a b = true <-> a = b.

Lemma eqb_refl' a : eqb a a = true.
Proof. now apply eqb_eq. Qed.

Lemma existsb_eqb_In x (l : list A) : existsb (eqb x) l = true <-> In x l.
Proof.
  rewrite existsb_exists. split.
  - intros (y & Hin & E). apply eqb_eq in E. now subst.
  - intros Hin. exists x. split; [exact Hin | apply eqb_refl'].
Qed.

Lemma first_occurrences_snoc (l : list A) (x : A) :
  first_occurrences eqb (l ++ [x]) =
  if existsb (eqb x) (first_occurrences eqb l) then first_occurrences eqb l
  else first_occurrences eqb l ++ [x].
Proof. unfold first_occurrences. now rewrite fold_left_app. Qed.

Lemma first_occurrences_In (l : list A) (x : A) :
  In x (first_occurrences eqb l) <-> In x l.
Proof.
  revert x. induction l as [| y l IH] using rev_ind; intros x.
  - reflexivity.
  - rewrite first_occurrences_snoc, in_app_iff. simpl.
    destruct (existsb (eqb y) (first_occurrences eqb l)) eqn:E.
    + apply existsb_eqb_In, IH in E. rewrite IH.
      split; [now left | intros [Hin | [<- | []]]; assumption].
    + rewrite in_app_iff, IH. reflexivity.
Qed.

Lemma first_occurrences_NoDup (l : list A) : NoDup (first_occurrences eqb l).
Proof.
  induction l as [| y l IH] using rev_ind.
  - constructor.
  - rewrite first_occurrences_snoc.
    destruct (existsb (eqb y) (first_occurrences eqb l)) eqn:E; [exact IH |].
    apply NoDup_app; [exact IH | repeat constructor; intros [] |].
    intros a Ha [<- | []].
    apply existsb_eqb_In in Ha. congruence.
Qed.

Lemma first_index_In (x : A) (l : list A) :
  In x l -> exists i, first_index eqb x l = Some i /\ (i < List.length l)%nat.
Proof.
  induction l as [| y l IH]; simpl; [contradiction |].
  intros Hin. destruct (eqb x y) eqn:E.
  - exists 0%nat. split; [reflexivity | lia].
  - destruct Hin as [-> | Hin]; [now rewrite eqb_refl' in E |].
    destruct (IH Hin) as (i & -> & Hi). exists (S i). split; [reflexivity | lia].
Qed.

Lemma first_index_app_In (x : A) (l l' : list A) :
  In x l -> first_index eqb x (l ++ l') = first_index eqb x l.
Proof.
  induction l as [| y l IH]; simpl; [contradiction |].
  intros Hin. destruct (eqb x y) eqn:E; [reflexivity |].
  destruct Hin as [-> | Hin]; [now rewrite eqb_refl' in E |].
  now rewrite IH.
Qed.

Lemma first_index_app_new (x : A) (l l' : list A) :
  ~ In x l ->
  first_index eqb x (l ++ l') =
  option_map (fun i => (List.length l + i)%nat) (first_index eqb x l').
Proof.
  induction l as [| y l IH]; simpl; intros Hnin.
  - now destruct (first_index eqb x l').
  - destruct (eqb x y) eqn:E.
    + apply eqb_eq in E. subst. exfalso. apply Hnin. now left.
    + rewrite IH by (intros Hin; apply Hnin; now right).
      now destruct (first_index eqb x l').
Qed.

(** The order of [first_occurrences] is the order of the first indices. *)
Lemma first_occurrences_order (l : list A) :
  forall l1 r l2 k,
    first_occurrences eqb l = l1 ++ r :: l2 ->
    In k l1 ->
    exists i j,
      first_index eqb k l = Some i /\ first_index eqb r l = Some j /\ (i < j)%nat.
Proof.
  induction l as [| y l IH] using rev_ind; intros l1 r l2 k Hsplit Hk.
  - destruct l1; discriminate.
  - rewrite first_occurrences_snoc in Hsplit.
    destruct (existsb (eqb y) (first_occurrences eqb l)) eqn:E.
    + destruct (IH _ _ _ _ Hsplit Hk) as (i & j & Hi & Hj & Hij).
      exists i, j. repeat split; [| | exact Hij].
      * rewrite first_index_app_In; [exact Hi |].
        apply first_occurrences_In. rewrite Hsplit. apply in_or_app. now left.
      * rewrite first_index_app_In; [exact Hj |].
        apply first_occurrences_In. rewrite Hsplit. apply in_or_app. right. now left.
    + destruct l2 as [| z l2] using rev_ind.
      * apply app_inj_tail in Hsplit. destruct Hsplit as [Hl1 <-].
        assert (Hkl : In k l) by (apply first_occurrences_In; now rewrite Hl1).
        destruct (first_index_In k l Hkl) as (i & Hi & Hlt).
        exists i, (List.length l + 0)%nat. repeat split; [| | lia].
        -- now rewrite first_index_app_In.
        -- rewrite first_index_app_new.
           ++ simpl. now rewrite eqb_refl'.
           ++ intros Hin. apply first_occurrences_In, existsb_eqb_In in Hin.
              congruence.
      * clear IHl2. rewrite app_comm_cons, app_assoc in Hsplit.
        apply app_inj_tail in Hsplit. destruct Hsplit as [Hl _].
        destruct (IH _ _ _ _ Hl Hk) as (i & j & Hi & Hj & Hij).
        exists i, j. repeat split; [| | exact Hij].
        -- rewrite first_index_app_In; [exact Hi |].
           apply first_occurrences_In. rewrite Hl. apply in_or_app. now left.
        -- rewrite first_index_app_In; [exact Hj |].
           apply first_occurrences_In. rewrite Hl. apply in_or_app. right. now left.
Qed.

End FirstOccurrencesFacts.

(** ** The most frequent category *)

Lemma get_In (K V : Type) `{PropertyKey K} (k : K) (v : V) (o : JsObject.t K V) :
  JsObject.get k o = Some v -> In (k, v) o.
Proof.
  induction o as [| [k' v'] o IH]; simpl; [discriminate |].
  destruct (key_eqb k k') eqn:E.
  - apply key_eqb_eq in E. intros [= ->]. subst. now left.
  - intros Hget. right. now apply IH.
Qed.

Lemma In_get_NoDup (K V : Type) `{PropertyKey K} (k : K) (v : V)
    (o : JsObject.t K V) :
  NoDup (JsObject.keys o) -> In (k, v) o -> JsObject.get k o = Some v.
Proof.
  induction o as [| [k' v'] o IH]; simpl; [contradiction |].
  intros Hnd [[= -> ->] | Hin].
  - now rewrite key_eqb_refl.
  - inversion Hnd as [| ? ? Hnotin Hnd']; subst.
    destruct (key_eqb k k') eqn:E.
    + apply key_eqb_eq in E. subst k'. exfalso. apply Hnotin.
      change k with (fst (k, v)). now apply in_map.
    + now apply IH.
Qed.

(** A left fold that keeps [a] only when it is strictly heavier than [b]
    ends on the last of the heaviest elements. *)
Lemma reduce_last_max (E : Type) (w : E -> nat) (gt : E -> E -> bool)
    (P : E -> Prop) :
  (forall a b, P a -> P b -> gt a b = (w b <? w a)%nat) ->
  forall r x pre mid,
    P x -> Forall P r ->
    (forall e, In e pre -> (w e <= w x)%nat) ->
    (forall e, In e mid -> (w e < w x)%nat) ->
    exists l1 l2,
      pre ++ x :: mid ++ r =
        l1 ++ fold_left (fun a b => if gt a b then a else b) r x :: l2 /\
      (forall e, In e l1 ->
         (w e <= w (fold_left (fun a b => if gt a b then a else b) r x))%nat) /\
      (forall e, In e l2 ->
         (w e < w (fold_left (fun a b => if gt a b then a else b) r x))%nat).
Proof.
  intros Hgt. induction r as [| b r IH]; intros x pre mid Px Pr Hpre Hmid; simpl.
  - exists pre, mid. rewrite app_nil_r. auto.
  - inversion Pr as [| ? ? Pb Pr']; subst.
    rewrite (Hgt x b Px Pb).
    destruct (Nat.ltb_spec (w b) (w x)) as [Hlt | Hge].
    + destruct (IH x pre (mid ++ [b]) Px Pr' Hpre) as (l1 & l2 & Heq & H1 & H2).
      { intros e He. apply in_app_or in He.
        destruct He as [He | [<- | []]]; [now apply Hmid | exact Hlt]. }
      exists l1, l2. rewrite <- Heq, <- app_assoc. auto.
    + destruct (IH b (pre ++ x :: mid) [] Pb Pr') as (l1 & l2 & Heq & H1 & H2).
      { intros e He. apply in_app_or in He.
        destruct He as [He | [<- | He]].
        - specialize (Hpre e He). lia.
        - exact Hge.
        - specialize (Hmid e He). lia. }
      { intros e []. }
      exists l1, l2. rewrite <- Heq, <- app_assoc. auto.
Qed.

Lemma reduce1_last_max (E : Type) (w : E -> nat) (gt : E -> E -> bool)
    (l : list E) :
  (forall a b, In a l -> In b l -> gt a b = (w b <? w a)%nat) ->
  l <> [] ->
  exists m l1 l2,
    reduce1 (fun a b => if gt a b then a else b) l = Some m /\
    l = l1 ++ m :: l2 /\
    (forall e, In e l1 -> (w e <= w m)%nat) /\
    (forall e, In e l2 -> (w e < w m)%nat).
Proof.
  intros Hgt Hne. destruct l as [| x rest]; [contradiction |].
  destruct (@reduce_last_max E w gt (fun e => In e (x :: rest)) Hgt rest x [] [])
    as (l1 & l2 & Hsplit & H1 & H2).
  - now left.
  - apply Forall_forall. intros e He. now right.
  - intros e [].
  - intros e [].
  - simpl in Hsplit. eexists _, l1, l2. simpl. eauto.
Qed.

Section MostFrequentFacts.
Context {L : Type} `{PropertyKey L}.
Variable level : MarketData -> L.
Hypothesis named : forall k : L, array_index k = None.

Local Abbreviation occ k data := (occurrences key_eqb k (map level data)).

Lemma occurrences_snoc (k x : L) (l : list L) :
  occurrences key_eqb k (l ++ [x]) =
  (occurrences key_eqb k l + if key_eqb k x then 1 else 0)%nat.
Proof.
  unfold occurrences. rewrite filter_app, length_app. simpl.
  now destruct (key_eqb k x).
Qed.

Lemma count_levels_snoc (data : list MarketData) (item : MarketData) :
  count_levels level (data ++ [item]) =
  JsObject.set (level item)
    (match JsObject.get (level item) (count_levels level data) with
     | Some n => n
     | None => 0
     end + 1)%nat
    (count_levels level data).
Proof. unfold count_levels. now rewrite fold_left_app. Qed.

Lemma count_levels_keys (data : list MarketData) :
  JsObject.keys (count_levels level data) =
  first_occurrences key_eqb (map level data).
Proof.
  induction data as [| item data IH] using rev_ind.
  - reflexivity.
  - rewrite count_levels_snoc, map_app, keys_set, IH. simpl.
    now rewrite first_occurrences_snoc.
Qed.

Lemma count_levels_get (data : list MarketData) (k : L) :
  JsObject.get k (count_levels level data) =
  if (occ k data =? 0)%nat then None else Some (occ k data).
Proof.
  induction data as [| item data IH] using rev_ind.
  - reflexivity.
  - rewrite count_levels_snoc, map_app. simpl map. rewrite occurrences_snoc.
    destruct (key_eqb k (level item)) eqn:E.
    + apply key_eqb_eq in E. subst k. rewrite get_set_same, IH.
      destruct (Nat.eqb_spec (occ (level item) data) 0) as [-> | Hne].
      * reflexivity.
      * destruct (Nat.eqb_spec (occ (level item) data + 1) 0); [lia | reflexivity].
    + rewrite get_set_other, IH, Nat.add_0_r; [reflexivity |].
      intros <-. now rewrite key_eqb_refl in E.
Qed.

Lemma count_levels_entries (data : list MarketData) :
  JsObject.entries (count_levels level data) = count_levels level data.
Proof. apply entries_named. intros k _. apply named. Qed.

Lemma occurrences_pos_In (k : L) (l : list L) :
  (0 < occurrences key_eqb k l)%nat <-> In k l.
Proof.
  unfold occurrences. induction l as [| x l IH]; simpl.
  - split; [lia | contradiction].
  - destruct (key_eqb k x) eqn:E; simpl.
    + apply key_eqb_eq in E. subst. split; [now left | lia].
    + rewrite IH. split; [now right |].
      intros [-> | Hin]; [now rewrite key_eqb_refl in E | exact Hin].
Qed.

(** What [getMostFrequentVolatility] and [getMostFrequentPerformance]
    return on a non-empty array: a value of the array with the highest
    number of occurrences; every other value that occurs as often has
    its first occurrence before the first occurrence of the result. *)
Lemma getMostFrequent_spec (data : list MarketData) :
  data <> [] ->
  exists r,
    getMostFrequent level data = Some r /\
    In r (map level data) /\
    (forall k, (occ k data <= occ r data)%nat) /\
    (forall k, k <> r -> occ k data = occ r data ->
       exists i j,
         first_index key_eqb k (map level data) = Some i /\
         first_index key_eqb r (map level data) = Some j /\ (i < j)%nat).
Proof.
  intros Hne. unfold getMostFrequent. rewrite count_levels_entries.
  pose proof (count_levels_keys data) as Hkeys.
  pose proof (count_levels_get data) as Hget.
  assert (Hnd : NoDup (JsObject.keys (count_levels level data))).
  { rewrite Hkeys. apply first_occurrences_NoDup, key_eqb_eq. }
  remember (count_levels level data) as counts eqn:Ecounts.
  assert (Hcne : counts <> []).
  { intros ->. destruct data as [| d data]; [contradiction |].
    assert (Hin : In (level d) (JsObject.keys (@nil (L * nat)))).
    { rewrite Hkeys. apply first_occurrences_In; [apply key_eqb_eq | now left]. }
    destruct Hin. }
  destruct (@reduce1_last_max (L * nat) snd (count_gtb counts) counts)
    as ([r n] & l1 & l2 & Hred & Hsplit & Hl1 & Hl2); [| exact Hcne |].
  { intros [ka na] [kb nb] Ha Hb. unfold count_gtb. simpl.
    now rewrite (In_get_NoDup ka na counts), (In_get_NoDup kb nb counts). }
  rewrite Hred. cbn [option_map fst]. simpl in Hl1, Hl2.
  assert (Hm : In (r, n) counts).
  { rewrite Hsplit. apply in_or_app. right. now left. }
  assert (Hgr : JsObject.get r counts = Some n) by now apply In_get_NoDup.
  assert (Hn : n = occ r data /\ (0 < n)%nat).
  { rewrite Hget in Hgr. destruct (Nat.eqb_spec (occ r data) 0); [discriminate |].
    injection Hgr as <-. split; [reflexivity | lia]. }
  destruct Hn as [Hn Hpos].
  assert (Hle : forall k, In k (map level data) ->
            In (k, occ k data) l1 \/ k = r \/ In (k, occ k data) l2).
  { intros k Hk. apply occurrences_pos_In in Hk.
    assert (Hgk : JsObject.get k counts = Some (occ k data)).
    { rewrite Hget. destruct (Nat.eqb_spec (occ k data) 0); [lia | reflexivity]. }
    apply get_In in Hgk. rewrite Hsplit in Hgk. apply in_app_or in Hgk.
    destruct Hgk as [Hk1 | [[= -> _] | Hk2]]; auto. }
  exists r. split; [reflexivity |]. split; [| split].
  - apply occurrences_pos_In. lia.
  - intros k. destruct (Nat.eqb_spec (occ k data) 0) as [-> | Hk]; [lia |].
    assert (Hin : In k (map level data)) by (apply occurrences_pos_In; lia).
    destruct (Hle k Hin) as [Hk1 | [-> | Hk2]].
    + specialize (Hl1 _ Hk1). simpl in Hl1. lia.
    + lia.
    + specialize (Hl2 _ Hk2). simpl in Hl2. lia.
  - intros k Hkr Htie.
    assert (Hin : In k (map level data)) by (apply occurrences_pos_In; lia).
    destruct (Hle k Hin) as [Hk1 | [-> | Hk2]].
    + apply (@first_occurrences_order L key_eqb key_eqb_eq (map level data)
               (map fst l1) r (map fst l2) k).
      * rewrite <- Hkeys. unfold JsObject.keys.
        rewrite Hsplit, map_app. reflexivity.
      * change k with (fst (k, occ k data)). now apply in_map.
    + contradiction.
    + specialize (Hl2 _ Hk2). simpl in Hl2. lia.
Qed.

End MostFrequentFacts.

(** ** Strings of integers *)

Lemma parseInt_String_of_Z (z : Z) : parseInt (String_of_Z z) = Some z.
Proof.
  unfold parseInt, String_of_Z. rewrite NilZero.isi.
  - simpl. now rewrite DecimalZ.of_to.
  - destruct z; simpl; try discriminate.
    intros [= E]. now apply DecimalPos.Unsigned.to_uint_nonnil in E.
  - destruct z; simpl; try discriminate.
    intros [= E]. now apply DecimalPos.Unsigned.to_uint_nonnil in E.
Qed.

Lemma String_of_Z_inj (a b : Z) : String_of_Z a = String_of_Z b -> a = b.
Proof.
  intros E. apply (f_equal parseInt) in E.
  rewrite !parseInt_String_of_Z in E. congruence.
Qed.

Lemma append_inj_l (a x y : string) : (a ++ x = a ++ y)%string -> x = y.
Proof.
  induction a as [| c a IH]; simpl; [auto |]. intros [= E]. auto.
Qed.

Lemma digits_value_dash (s1 s2 : string) (acc : N) :
  digits_value (s1 ++ String "-" s2) acc = None.
Proof.
  revert acc. induction s1 as [| c s1 IH]; intros acc; simpl.
  - reflexivity.
  - destruct (digit_value c); [apply IH | reflexivity].
Qed.

(** A key with a hyphen in it is not an array index. *)
Lemma dash_not_array_index (s1 s2 : string) :
  array_index (s1 ++ String "-" s2)%string = None.
Proof.
  simpl. unfold string_array_index. now rewrite digits_value_dash.
Qed.

Lemma week_label_inj (year a b : Z) :
  week_label year a = week_label year b -> a = b.
Proof.
  unfold week_label. intros E.
  now apply append_inj_l, append_inj_l, String_of_Z_inj in E.
Qed.

Lemma parseInt_padStart2 (m : Z) :
  (1 <= m <= 12)%Z -> parseInt (padStart2 (String_of_Z m)) = Some m.
Proof.
  intros Hm.
  assert (E : (m = 1 \/ m = 2 \/ m = 3 \/ m = 4 \/ m = 5 \/ m = 6 \/ m = 7 \/
               m = 8 \/ m = 9 \/ m = 10 \/ m = 11 \/ m = 12)%Z) by lia.
  repeat destruct E as [-> | E]; try subst m; reflexivity.
Qed.

Lemma month_label_inj (year a b : Z) :
  (1 <= a <= 12)%Z -> (1 <= b <= 12)%Z ->
  month_label year a = month_label year b -> a = b.
Proof.
  unfold month_label. intros Ha Hb E.
  apply append_inj_l, append_inj_l, (f_equal parseInt) in E.
  rewrite !parseInt_padStart2 in E by assumption. congruence.
Qed.

(** ** The calendar *)

Section CalendarFacts.
Local Open Scope Z_scope.
Import Dayjs.

Ltac div_lia := Z.to_euclidean_division_equations; lia.

Lemma doe_bounds z : 0 <= doe_of z <= 146096.
Proof. unfold doe_of, era_of. div_lia. Qed.

Lemma yoe_bounds doe : 0 <= doe <= 146096 -> 0 <= yoe_of doe <= 399.
Proof. unfold yoe_of. intros. div_lia. Qed.

Lemma yoe_numerator_mono a b :
  0 <= a <= b -> b <= 146096 ->
  a - a / 1460 + a / 36524 - a / 146096 <= b - b / 1460 + b / 36524 - b / 146096.
Proof. intros. div_lia. Qed.

Lemma yoe_mono a b : 0 <= a <= b -> b <= 146096 -> yoe_of a <= yoe_of b.
Proof.
  intros. unfold yoe_of. apply Z.div_le_mono; [lia |].
  now apply yoe_numerator_mono.
Qed.

Lemma doy_bounds doe : 0 <= doe <= 146096 -> 0 <= doy_of doe <= 365.
Proof. unfold doy_of, yoe_of. cbv zeta. intros. div_lia. Qed.

Lemma mp_bounds doy : 0 <= doy <= 365 -> 0 <= mp_of doy <= 11.
Proof. unfold mp_of. intros. div_lia. Qed.

Lemma mp_mono a b : a <= b -> mp_of a <= mp_of b.
Proof. intros. unfold mp_of. apply Z.div_le_mono; lia. Qed.

Lemma era_mono a b : a <= b -> era_of a <= era_of b.
Proof. intros. unfold era_of. apply Z.div_le_mono; lia. Qed.

Lemma civil_month_bounds z : 1 <= snd (fst (civil_from_days z)) <= 12.
Proof.
  unfold civil_from_days. cbv zeta. cbn [fst snd].
  pose proof (mp_bounds (doy_bounds (doe_bounds z))) as Hm.
  destruct (Z.ltb_spec (mp_of (doy_of (doe_of z))) 10); lia.
Qed.

(** Within one calendar year, a later day is in a later or the same
    month. *)
Lemma civil_month_mono z1 z2 :
  z1 <= z2 ->
  fst (fst (civil_from_days z1)) = fst (fst (civil_from_days z2)) ->
  snd (fst (civil_from_days z1)) <= snd (fst (civil_from_days z2)).
Proof.
  intros Hle. unfold civil_from_days. cbv zeta. cbn [fst snd].
  pose proof (era_mono Hle) as He.
  pose proof (doe_bounds z1) as Hb1. pose proof (doe_bounds z2) as Hb2.
  pose proof (yoe_bounds Hb1) as Hy1. pose proof (yoe_bounds Hb2) as Hy2.
  pose proof (mp_bounds (doy_bounds Hb1)) as Hm1.
  pose proof (mp_bounds (doy_bounds Hb2)) as Hm2.
  assert (Hsame : era_of z1 = era_of z2 ->
                  yoe_of (doe_of z1) = yoe_of (doe_of z2) ->
                  mp_of (doy_of (doe_of z1)) <= mp_of (doy_of (doe_of z2))).
  { intros E Y. apply mp_mono. unfold doy_of. cbv zeta. rewrite Y.
    unfold doe_of. rewrite E. lia. }
  assert (Hyoe : era_of z1 = era_of z2 ->
                 yoe_of (doe_of z1) <= yoe_of (doe_of z2)).
  { intros E. apply yoe_mono; [| lia]. split; [lia |].
    unfold doe_of. rewrite E. lia. }
  destruct (Z.ltb_spec (mp_of (doy_of (doe_of z1))) 10);
    destruct (Z.ltb_spec (mp_of (doy_of (doe_of z2))) 10);
    repeat match goal with
           | |- context [?a <=? ?b] => destruct (Z.leb_spec a b)
           end; lia.
Qed.

Lemma day_number_of_day d : day_number (of_day d) = d.
Proof. unfold day_number, of_day, MILLISECONDS_A_DAY. now apply Z.div_mul. Qed.

Lemma month_bounds x : 0 <= month x <= 11.
Proof. unfold month. pose proof (civil_month_bounds (day_number x)). lia. Qed.

Lemma month_mono d1 d2 :
  d1 <= d2 -> year (of_day d1) = year (of_day d2) ->
  month (of_day d1) <= month (of_day d2).
Proof.
  unfold year, month. rewrite !day_number_of_day. intros Hle Hy.
  pose proof (civil_month_mono Hle Hy). lia.
Qed.

End CalendarFacts.

(** ** Grouping and aggregation *)

Section ObjectSums.
Context {K V : Type} `{PropertyKey K}.
Variable W : V -> Q.

Lemma object_sum_set_None k v (o : JsObject.t K V) :
  JsObject.get k o = None ->
  object_sum W (JsObject.set k v o) == object_sum W o + W v.
Proof.
  unfold object_sum. induction o as [| [k' v'] o IH]; simpl.
  - intros _. rewrite Qsum_cons. unfold Qsum. simpl. ring.
  - destruct (key_eqb k k'); [discriminate |]. intros Hget. simpl.
    rewrite !Qsum_cons, (IH Hget). simpl. ring.
Qed.

Lemma object_sum_set_Some k v b (o : JsObject.t K V) :
  JsObject.get k o = Some b ->
  object_sum W (JsObject.set k v o) + W b == object_sum W o + W v.
Proof.
  unfold object_sum. induction o as [| [k' v'] o IH]; simpl.
  - discriminate.
  - destruct (key_eqb k k').
    + intros [= ->]. simpl. rewrite !Qsum_cons. simpl. ring.
    + intros Hget. simpl. rewrite !Qsum_cons. simpl.
      specialize (IH Hget). rewrite <- Qplus_assoc, IH. ring.
Qed.

Lemma Forall_snd_set (P : V -> Prop) k v (o : JsObject.t K V) :
  Forall (fun e => P (snd e)) o -> P v ->
  Forall (fun e => P (snd e)) (JsObject.set k v o).
Proof.
  intros Ho Hv. induction o as [| [k' v'] o IH]; simpl.
  - now constructor.
  - inversion Ho; subst. destruct (key_eqb k k'); constructor; auto.
Qed.

End ObjectSums.

Lemma map_throwing_Some (A B : Type) (f : A -> option B) (l : list A) :
  Forall (fun x => exists y, f x = Some y) l ->
  exists out,
    map_throwing f l = Some out /\ Forall2 (fun x y => f x = Some y) l out.
Proof.
  induction 1 as [| x l [y Hy] _ (out & Hout & Hall)]; simpl.
  - exists []. split; [reflexivity | constructor].
  - exists (y :: out). rewrite Hy, Hout. split; [reflexivity |].
    now constructor.
Qed.

Lemma bucket_volume_singleton (item : MarketData) :
  bucket_volume [item] == volume item.
Proof. unfold bucket_volume. simpl. rewrite Qsum_cons, Qsum_nil. ring. Qed.

Lemma bucket_volume_snoc (b : list MarketData) (item : MarketData) :
  bucket_volume (b ++ [item]) == bucket_volume b + volume item.
Proof.
  unfold bucket_volume. rewrite map_app, Qsum_app. simpl.
  rewrite Qsum_cons, Qsum_nil. ring.
Qed.

Lemma aggregate_entry_Some (p : string) (bucket : list MarketData) :
  bucket <> [] ->
  exists a,
    aggregate_entry (p, bucket) = Some a /\
    period a = p /\
    totalVolume a == bucket_volume bucket.
Proof.
  intros Hne. unfold aggregate_entry.
  destruct (@getMostFrequent_spec _ VolatilityLevel_PropertyKey volatilityLevel
              (fun _ => eq_refl) bucket Hne) as (v & Hv & _).
  destruct (@getMostFrequent_spec _ Performance_PropertyKey performance
              (fun _ => eq_refl) bucket Hne) as (q & Hq & _).
  unfold getMostFrequentVolatility, getMostFrequentPerformance.
  rewrite Hv, Hq. eexists. split; [reflexivity |]. split; [reflexivity |].
  simpl. unfold bucket_volume. rewrite fold_left_field_sum. ring.
Qed.

(** Mapping [aggregate_entry] over the entries of an object whose buckets
    are not empty does not throw: it gives one record per entry, with the
    entry's key as period and the bucket's volume as total. *)
Lemma aggregate_entries_Some (g : JsObject.t string (list MarketData)) :
  Forall (fun e => snd e <> []) g ->
  exists out,
    map_throwing aggregate_entry (JsObject.entries g) = Some out /\
    map period out = JsObject.keys (JsObject.entries g) /\
    Qsum (map totalVolume out) == object_sum bucket_volume g.
Proof.
  intros Hne.
  assert (Hne' : Forall (fun e => snd e <> []) (JsObject.entries g)).
  { apply Forall_forall. intros e He. rewrite Forall_forall in Hne.
    apply Hne. eapply Permutation_in; [apply entries_Permutation | exact He]. }
  destruct (@map_throwing_Some _ _ aggregate_entry (JsObject.entries g))
    as (out & Hout & Hall).
  { apply Forall_forall. intros [p b] He. rewrite Forall_forall in Hne'.
    destruct (@aggregate_entry_Some p b (Hne' _ He)) as (a & Ha & _).
    now exists a. }
  exists out. split; [exact Hout |].
  assert (Hsum : Qsum (map totalVolume out) ==
                 object_sum bucket_volume (JsObject.entries g)).
  { unfold object_sum. clear Hout.
    induction Hall as [| [p b] a l out' Ha _ IH]; [reflexivity |].
    inversion Hne' as [| ? ? Hb Hne'']; subst. simpl.
    rewrite !Qsum_cons, (IH Hne'').
    destruct (@aggregate_entry_Some p b Hb) as (a' & Ha' & _ & Htot).
    rewrite Ha in Ha'. injection Ha' as <-. now rewrite Htot. }
  split.
  - clear Hsum Hout. unfold JsObject.keys.
    induction Hall as [| [p b] a l out' Ha _ IH]; [reflexivity |].
    inversion Hne' as [| ? ? Hb Hne'']; subst. simpl. rewrite (IH Hne'').
    destruct (@aggregate_entry_Some p b Hb) as (a' & Ha' & Hp & _).
    rewrite Ha in Ha'. injection Ha' as <-. now rewrite Hp.
  - rewrite Hsum. unfold object_sum. apply Qsum_Permutation, Permutation_map.
    apply entries_Permutation.
Qed.

Section GroupFacts.
Variable key : Z -> Dayjs.t -> string.
Variable year : Z.

Lemma group_year_snoc (data : list MarketData) (item : MarketData) :
  group_year key (data ++ [item]) year =
  if in_year year item
  then push_group (key_of key year item) item (group_year key data year)
  else group_year key data year.
Proof.
  unfold group_year. rewrite fold_left_app. simpl. unfold in_year, key_of.
  now destruct (Dayjs.year (Dayjs.of_day (date item)) =? year)%Z.
Qed.

Lemma keys_push_group k item (g : JsObject.t string (list MarketData)) :
  JsObject.keys (push_group k item g) =
  if existsb (String.eqb k) (JsObject.keys g) then JsObject.keys g
  else JsObject.keys g ++ [k].
Proof.
  unfold push_group.
  destruct (JsObject.get k g);
    exact (@keys_set string _ string_PropertyKey k _ g).
Qed.

(** The keys of the groups, in creation order, are the distinct keys of
    the points of the year, in order of first occurrence. *)
Lemma group_year_keys (data : list MarketData) :
  JsObject.keys (group_year key data year) =
  first_occurrences String.eqb (map (key_of key year) (filter (in_year year) data)).
Proof.
  induction data as [| item data IH] using rev_ind.
  - reflexivity.
  - rewrite group_year_snoc, filter_app. simpl.
    destruct (in_year year item).
    + rewrite keys_push_group, IH, map_app. simpl.
      now rewrite first_occurrences_snoc.
    + now rewrite app_nil_r.
Qed.

Lemma group_year_nonempty (data : list MarketData) :
  Forall (fun e => snd e <> []) (group_year key data year).
Proof.
  induction data as [| item data IH] using rev_ind.
  - constructor.
  - rewrite group_year_snoc. destruct (in_year year item); [| exact IH].
    unfold push_group.
    destruct (JsObject.get _ _) as [b |];
      (apply (Forall_snd_set (fun b => b <> [])); [exact IH |]).
    + now destruct b.
    + discriminate.
Qed.

(** Grouping keeps the volume of the points of the year. *)
Lemma group_year_volume (data : list MarketData) :
  object_sum bucket_volume (group_year key data year) ==
  Qsum (map volume (filter (in_year year) data)).
Proof.
  induction data as [| item data IH] using rev_ind.
  - reflexivity.
  - rewrite group_year_snoc, filter_app, map_app, Qsum_app.
    destruct (in_year year item) eqn:Ey.
    + simpl. rewrite Ey. simpl. rewrite Qsum_cons, Qsum_nil, <- IH.
      unfold push_group.
      destruct (JsObject.get (key_of key year item) (group_year key data year))
        as [b |] eqn:E.
      * pose proof (object_sum_set_Some bucket_volume (key_of key year item)
                      (b ++ [item]) _ E) as Hs.
        rewrite bucket_volume_snoc in Hs. lra.
      * rewrite (object_sum_set_None bucket_volume _ _ _ E).
        rewrite bucket_volume_singleton. lra.
    + simpl. rewrite Ey. simpl. rewrite Qsum_nil. lra.
Qed.

End GroupFacts.

(** ** Unit indices and their order *)

Lemma first_occurrences_map (A B : Type) (eqbA : A -> A -> bool)
    (eqbB : B -> B -> bool) (f : A -> B) (l : list A) :
  (forall a b, eqbA a b = true <-> a = b) ->
  (forall a b, eqbB a b = true <-> a = b) ->
  (forall a b, In a l -> In b l -> f a = f b -> a = b) ->
  first_occurrences eqbB (map f l) = map f (first_occurrences eqbA l).
Proof.
  intros HA HB. induction l as [| x l IH] using rev_ind; intros Hinj.
  - reflexivity.
  - rewrite map_app. simpl. rewrite !first_occurrences_snoc, IH.
    + assert (E : existsb (eqbB (f x)) (map f (first_occurrences eqbA l)) =
                  existsb (eqbA x) (first_occurrences eqbA l)).
      { apply eq_true_iff_eq.
        rewrite (@existsb_eqb_In _ eqbB HB), (@existsb_eqb_In _ eqbA HA), in_map_iff.
        split.
        - intros (a & Hfa & Ha).
          assert (a = x); [| now subst].
          apply Hinj; [| | exact Hfa].
          + apply in_or_app. left.
            apply (@first_occurrences_In _ eqbA HA). exact Ha.
          + apply in_or_app. right. now left.
        - intros Hx. now exists x. }
      rewrite E. clear E.
      destruct (existsb (eqbA x) (first_occurrences eqbA l)); [reflexivity |].
      now rewrite map_app.
    + intros a b Ha Hb. apply Hinj; apply in_or_app; now left.
Qed.

Lemma StronglySorted_snoc (A : Type) (R : A -> A -> Prop) (l : list A) (x : A) :
  StronglySorted R l -> Forall (fun y => R y x) l -> StronglySorted R (l ++ [x]).
Proof.
  induction 1 as [| a l Hl IH Ha]; intros Hx; simpl.
  - repeat constructor.
  - inversion Hx; subst. constructor; [now apply IH |].
    apply Forall_app. split; [exact Ha | now repeat constructor].
Qed.

Lemma StronglySorted_snoc_inv (A : Type) (R : A -> A -> Prop) (l : list A)
    (x : A) :
  StronglySorted R (l ++ [x]) -> StronglySorted R l /\ Forall (fun y => R y x) l.
Proof.
  induction l as [| a l IH]; simpl; intros Hs.
  - split; constructor.
  - inversion Hs as [| ? ? Hl Ha]; subst. destruct (IH Hl) as [Hl' Hx].
    apply Forall_app in Ha. destruct Ha as [Ha Hax].
    split; constructor; auto. now inversion Hax.
Qed.

(** The distinct values of a non-decreasing list are increasing. *)
Lemma first_occurrences_sorted (l : list Z) :
  StronglySorted Z.le l -> StronglySorted Z.lt (first_occurrences Z.eqb l).
Proof.
  induction l as [| x l IH] using rev_ind; intros Hs.
  - constructor.
  - apply StronglySorted_snoc_inv in Hs. destruct Hs as [Hl Hx].
    rewrite first_occurrences_snoc.
    destruct (existsb (Z.eqb x) (first_occurrences Z.eqb l)) eqn:E;
      [now apply IH |].
    apply StronglySorted_snoc; [now apply IH |].
    apply Forall_forall. intros y Hy.
    assert (Hne : y <> x).
    { intros ->. apply (proj2 (@existsb_eqb_In _ Z.eqb Z.eqb_eq _ _)) in Hy.
      congruence. }
    apply (proj1 (@first_occurrences_In _ Z.eqb Z.eqb_eq _ _)) in Hy.
    rewrite Forall_forall in Hx. specialize (Hx y Hy). lia.
Qed.

Lemma month_index_bounds (item : MarketData) : (1 <= month_index item <= 12)%Z.
Proof.
  unfold month_index. pose proof (month_bounds (Dayjs.of_day (date item))). lia.
Qed.

(** In an ascending series, the months of the points of one year do not
    decrease. *)
Lemma ascending_months (data : list MarketData) (year : Z) :
  ascending data ->
  StronglySorted Z.le (map month_index (filter (in_year year) data)).
Proof.
  induction 1 as [| a l Hl IH Ha]; simpl.
  - constructor.
  - destruct (in_year year a) eqn:Ea; [| exact IH].
    simpl. constructor; [exact IH |].
    apply Forall_forall. intros m Hm.
    apply in_map_iff in Hm. destruct Hm as (b & <- & Hb).
    apply filter_In in Hb. destruct Hb as [Hb Eb].
    rewrite Forall_forall in Ha. specialize (Ha b Hb).
    unfold in_year in Ea, Eb. apply Z.eqb_eq in Ea, Eb.
    unfold month_index.
    pose proof (@month_mono (date a) (date b) Ha) as Hmono.
    rewrite Ea, Eb in Hmono. specialize (Hmono eq_refl). lia.
Qed.

Lemma one_per_unit_first_occurrences (unit_of : MarketData -> Z)
    (data : list MarketData) (year : Z) :
  one_per_unit unit_of data year
    (first_occurrences Z.eqb (map unit_of (filter (in_year year) data))).
Proof.
  split; [apply first_occurrences_NoDup, Z.eqb_eq |].
  intros u. rewrite (@first_occurrences_In _ Z.eqb Z.eqb_eq), in_map_iff.
  split.
  - intros (item & Hu & Hin). apply filter_In in Hin. now exists item.
  - intros (item & Hin & Hy & Hu). exists item. split; [exact Hu |].
    now apply filter_In.
Qed.

Lemma weekKey_named (year : Z) (d : Dayjs.t) : array_index (weekKey year d) = None.
Proof. unfold weekKey. apply (dash_not_array_index (String_of_Z year)). Qed.

Lemma monthKey_named (year : Z) (d : Dayjs.t) : array_index (monthKey year d) = None.
Proof. unfold monthKey. apply (dash_not_array_index (String_of_Z year)). Qed.

(** Both aggregators return, without throwing, one record per group, in
    the order in which the groups were created. *)
Lemma aggregate_groups (key : Z -> Dayjs.t -> string) (data : list MarketData)
    (year : Z) :
  (forall d, array_index (key year d) = None) ->
  exists out,
    map_throwing aggregate_entry (JsObject.entries (group_year key data year))
      = Some out /\
    map period out =
      first_occurrences String.eqb
        (map (key_of key year) (filter (in_year year) data)) /\
    Qsum (map totalVolume out) == Qsum (map volume (filter (in_year year) data)).
Proof.
  intros Hnamed.
  destruct (aggregate_entries_Some (group_year_nonempty key year data))
    as (out & Hout & Hperiod & Hsum).
  exists out. split; [exact Hout |]. split.
  - rewrite Hperiod, entries_named; [apply group_year_keys |].
    intros k Hk. rewrite group_year_keys in Hk.
    apply (proj1 (@first_occurrences_In _ String.eqb String.eqb_eq _ _)) in Hk.
    apply in_map_iff in Hk.
    destruct Hk as (item & <- & _). apply Hnamed.
  - rewrite Hsum. apply group_year_volume.
Qed.

(** ** The sampler and the synthesizer *)

Lemma weightedRandom_loop_In (T : Type) (items : list T) :
  forall weights random item,
    weightedRandom_loop items weights random = Some item -> In item items.
Proof.
  induction items as [| x items IH]; intros weights random item; simpl.
  - discriminate.
  - destruct (leb _ _).
    + intros [= <-]. now left.
    + intros H. right. exact (IH _ _ _ H).
Qed.

Lemma nth_error_last_Some (T : Type) (items : list T) :
  items <> [] -> exists item, nth_error items (length items - 1) = Some item.
Proof.
  intros Hne.
  destruct (nth_error items (length items - 1)) as [item |] eqn:E.
  - now exists item.
  - apply nth_error_None in E.
    destruct items; [contradiction | simpl in E; lia].
Qed.

Lemma weightedRandom_Some_In (T : Type) (items : list T) (weights : list Q)
    (u : Q) :
  items <> [] ->
  exists item, weightedRandom items weights u = Some item /\ In item items.
Proof.
  intros Hne. unfold weightedRandom.
  destruct (weightedRandom_loop items weights _) as [item |] eqn:E.
  - exists item. split; [reflexivity |].
    exact (weightedRandom_loop_In _ _ _ E).
  - destruct (nth_error_last_Some Hne) as [item Hitem].
    exists item. split; [exact Hitem |].
    exact (nth_error_In _ _ Hitem).
Qed.

(** The loop never changes [current], so a condition that holds once holds
    forever: whatever the fuel, the loop is still running. *)
Lemma generate_loop_runs_forever (current end_ : Dayjs.t) :
  loop_continues current end_ = true ->
  forall fuel draws n data, generate_loop fuel current end_ draws n data = None.
Proof.
  unfold loop_continues. intros Hcond.
  induction fuel as [| fuel IH]; intros draws n data; simpl.
  - reflexivity.
  - rewrite Hcond.
    destruct (negb ((Dayjs.day current =? 0) || (Dayjs.day current =? 6))%Z);
      apply IH.
Qed.

Lemma generateMockMarketData_runs_forever (startDate endDate : Z) :
  (startDate <= endDate)%Z ->
  forall fuel draws, generateMockMarketData fuel startDate endDate draws = None.
Proof.
  intros Hle fuel draws. unfold generateMockMarketData.
  apply generate_loop_runs_forever.
  unfold loop_continues, Dayjs.isBefore, Dayjs.isSame_day, Dayjs.of_Date.
  destruct (Z.ltb_spec startDate endDate) as [Hlt | Hge]; [reflexivity |].
  assert (startDate = endDate) as -> by lia. simpl. apply Z.eqb_refl.
Qed.

(** When the start is a later day than the end, the loop is not entered. *)
Lemma generateMockMarketData_empty (startDate endDate : Z) :
  (Dayjs.day_number endDate < Dayjs.day_number startDate)%Z ->
  forall fuel draws,
    generateMockMarketData (S fuel) startDate endDate draws = Some [].
Proof.
  intros Hlt fuel draws. unfold generateMockMarketData. simpl.
  unfold Dayjs.isBefore, Dayjs.isSame_day, Dayjs.of_Date.
  destruct (Z.ltb_spec startDate endDate) as [Hlt' | _].
  - exfalso. unfold Dayjs.day_number, Dayjs.MILLISECONDS_A_DAY in Hlt.
    assert (startDate / 86400000 <= endDate / 86400000)%Z
      by (apply Z.div_le_mono; lia).
    lia.
  - destruct (Z.eqb_spec (Dayjs.day_number startDate) (Dayjs.day_number endDate));
      [lia | reflexivity].
Qed.

(** ** Numbers of the pattern and anomaly detectors *)

Lemma gtb_Fin (x y : Q) : gtb (Fin x) (Fin y) = true <-> y < x.
Proof. simpl. apply Qltb_lt. Qed.


Lemma Qeq_bool_false (x : Q) : ~ x == 0 -> Qeq_bool x 0 = false.
Proof.
  intros Hne. apply not_true_iff_false. intros E. now apply Qeq_bool_iff in E.
Qed.

Lemma of_nat_nonzero (n : nat) : (0 < n)%nat -> ~ inject_Z (Z.of_nat n) == 0.
Proof.
  intros Hn E. unfold Qeq in E. simpl in E. lia.
Qed.

Lemma div_Fin (x y : Q) : ~ y == 0 -> div (Fin x) (Fin y) = Fin (x / y).
Proof. intros Hy. simpl. now rewrite (Qeq_bool_false Hy). Qed.

Lemma div_of_nat (x : Q) (n : nat) :
  (0 < n)%nat -> div (Fin x) (of_nat n) = Fin (x / inject_Z (Z.of_nat n)).
Proof. intros Hn. apply div_Fin, of_nat_nonzero, Hn. Qed.


(** ** Sorting *)

Section SortFacts.
Variable A : Type.
Variable compare : A -> A -> number.

Lemma sort_insert_Permutation (a : A) (l : list A) :
  Permutation (sort_insert compare a l) (a :: l).
Proof.
  induction l as [| b l IH]; simpl.
  - reflexivity.
  - destruct (gtb (compare a b) (Fin 0)).
    + rewrite IH. apply perm_swap.
    + reflexivity.
Qed.

Lemma sort_Permutation (l : list A) : Permutation (sort compare l) l.
Proof.
  induction l as [| a l IH]; simpl.
  - reflexivity.
  - rewrite sort_insert_Permutation. now apply perm_skip.
Qed.

(** What survives sorting and truncation was in the array. *)
Lemma In_firstn_sort (k : nat) (l : list A) (a : A) :
  In a (firstn k (sort compare l)) -> In a l.
Proof.
  intros Hin. apply (Permutation_in a (sort_Permutation l)).
  rewrite <- (firstn_skipn k (sort compare l)). apply in_or_app. now left.
Qed.


End SortFacts.

(** ** Month groups and pattern strengths *)

Section GroupContents.
Variable kf : MarketData -> string.

(** Grouping by a key puts under each key the points with that key, in
    the order of the series. *)
Lemma group_get (l : list MarketData) (k : string) :
  JsObject.get k
    (fold_left (fun acc d => push_group (kf d) d acc) l JsObject.empty) =
  match filter (fun d => String.eqb k (kf d)) l with
  | [] => None
  | b => Some b
  end.
Proof.
  induction l as [| x l IH] using rev_ind.
  - reflexivity.
  - rewrite fold_left_app, filter_app. simpl.
    set (g := fold_left (fun acc d => push_group (kf d) d acc) l JsObject.empty)
      in *.
    unfold push_group.
    destruct (String.eqb k (kf x)) eqn:E.
    + apply String.eqb_eq in E. subst k. rewrite IH.
      destruct (filter (fun d => String.eqb (kf x) (kf d)) l) as [| y b];
        simpl; now rewrite (@get_set_same string _ string_PropertyKey).
    + assert (Hne : kf x <> k).
      { intros <-. now rewrite String.eqb_refl in E. }
      rewrite app_nil_r, <- IH.
      destruct (JsObject.get (kf x) g);
        now apply (@get_set_other string _ string_PropertyKey).
Qed.

Lemma group_entry (l : list MarketData) (k : string) :
  filter (fun d => String.eqb k (kf d)) l <> [] ->
  In (k, filter (fun d => String.eqb k (kf d)) l)
    (JsObject.entries
       (fold_left (fun acc d => push_group (kf d) d acc) l JsObject.empty)).
Proof.
  intros Hne.
  apply (Permutation_in _ (Permutation_sym (entries_Permutation _))).
  apply (@get_In string _ string_PropertyKey). rewrite group_get.
  now destruct (filter (fun d => String.eqb k (kf d)) l).
Qed.

End GroupContents.

Lemma format_MM_month (x : Dayjs.t) (m : Z) :
  (1 <= m <= 12)%Z ->
  String.eqb (padStart2 (String_of_Z m)) (Dayjs.format_MM x)
  = (Dayjs.month x + 1 =? m)%Z.
Proof.
  intros Hm. unfold Dayjs.format_MM.
  pose proof (month_bounds x) as Hb.
  destruct (Z.eqb_spec (Dayjs.month x + 1) m) as [-> | Hne].
  - apply String.eqb_refl.
  - apply String.eqb_neq. intros E. apply Hne.
    apply (f_equal parseInt) in E.
    rewrite !parseInt_padStart2 in E by lia. congruence.
Qed.


Lemma capped_strength_finite (x : number) (c k : Q) :
  (k ?= 0) = Gt ->
  gtb (abs x) (Fin c) = true ->
  is_finite (JsNum.min (Fin 100) (mul (abs x) (Fin k))).
Proof.
  intros Hk Hgt. destruct x as [a | | |]; simpl in *.
  - destruct (Qle_bool 100 (Qabs a * k)); eexists; reflexivity.
  - rewrite Hk. now exists 100.
  - rewrite Hk. now exists 100.
  - discriminate.
Qed.

Lemma volume_strength_finite (r : number) :
  gtb r (Fin 1.3) = true ->
  is_finite (JsNum.min (Fin 100) (mul (sub r (Fin 1)) (Fin 100))).
Proof.
  intros Hgt. destruct r as [a | | |]; simpl in *.
  - destruct (Qle_bool 100 ((a + - (1)) * 100)); eexists; reflexivity.
  - now exists 100.
  - discriminate.
  - discriminate.
Qed.

Section PatternFacts.
Import PatternAnalysis.

Lemma month_patterns_finite (e : string * list MarketData) :
  Forall (fun p => is_finite (SeasonalPattern.strength p)) (month_patterns e).
Proof.
  destruct e as [month data]. unfold month_patterns.
  destruct (Nat.ltb_spec (List.length data) 3) as [Hlt | Hge]; [constructor |].
  apply Forall_app. split.
  - destruct (gtb (abs (average priceChange data)) (Fin 2)) eqn:E;
      [| constructor].
    constructor; [| constructor]. cbn [SeasonalPattern.strength].
    now apply (capped_strength_finite _ 2 20).
  - destruct (gtb _ (Fin 0.6)); [| constructor].
    constructor; [| constructor]. cbn [SeasonalPattern.strength].
    unfold of_nat at 1, of_Z. rewrite div_of_nat by lia. eexists. reflexivity.
Qed.

Lemma day_patterns_finite (marketData : list MarketData)
    (e : string * list MarketData) :
  Forall (fun p => is_finite (SeasonalPattern.strength p))
    (day_patterns marketData e).
Proof.
  destruct e as [day data]. unfold day_patterns.
  destruct (Nat.ltb_spec (List.length data) 3) as [Hlt | Hge]; [constructor |].
  apply Forall_app. split.
  - destruct (gtb (abs (average priceChange data)) (Fin 1.5)) eqn:E;
      [| constructor].
    constructor; [| constructor]. cbn [SeasonalPattern.strength].
    now apply (capped_strength_finite _ 1.5 30).
  - destruct (gtb _ (Fin 1.3)) eqn:E; [| constructor].
    constructor; [| constructor]. cbn [SeasonalPattern.strength].
    now apply volume_strength_finite.
Qed.

Lemma detected_patterns_finite (marketData : list MarketData) :
  Forall (fun p => is_finite (SeasonalPattern.strength p))
    (detected_patterns marketData).
Proof.
  unfold detected_patterns. apply Forall_app. split.
  - apply Forall_flat_map, Forall_forall. intros e _.
    apply month_patterns_finite.
  - apply Forall_flat_map, Forall_forall. intros e _.
    apply day_patterns_finite.
Qed.

End PatternFacts.

Section SortedFacts.
Variable A : Type.
Variable compare : A -> A -> number.
Variable w : A -> Q.

Let descending (a b : A) : Prop := w b <= w a.

Lemma sort_insert_sorted (a : A) (l : list A) :
  (forall b, In b l -> gtb (compare a b) (Fin 0) = Qltb (w a) (w b)) ->
  StronglySorted descending l ->
  StronglySorted descending (sort_insert compare a l).
Proof.
  intros Hcmp Hs. induction Hs as [| b l Hs IH Hb]; simpl.
  - repeat constructor.
  - rewrite (Hcmp b) by now left.
    destruct (Qltb (w a) (w b)) eqn:E.
    + apply Qltb_lt in E. constructor.
      * apply IH. intros x Hx. apply Hcmp. now right.
      * apply Forall_forall. intros x Hx.
        apply (Permutation_in x (sort_insert_Permutation compare a l)) in Hx.
        destruct Hx as [<- | Hx].
        -- unfold descending. lra.
        -- rewrite Forall_forall in Hb. now apply Hb.
    + assert (Hle : w b <= w a).
      { unfold Qltb in E. apply negb_false_iff, Qle_bool_iff in E. exact E. }
      constructor; [now constructor |].
      constructor; [exact Hle |].
      apply Forall_forall. intros x Hx. rewrite Forall_forall in Hb.
      specialize (Hb x Hx). unfold descending in *. lra.
Qed.

Lemma sort_sorted (l : list A) :
  (forall a b, In a l -> In b l ->
     gtb (compare a b) (Fin 0) = Qltb (w a) (w b)) ->
  StronglySorted descending (sort compare l).
Proof.
  induction l as [| a l IH]; intros Hcmp; simpl.
  - constructor.
  - apply sort_insert_sorted.
    + intros b Hb. apply Hcmp; [now left | right].
      now apply (Permutation_in b (sort_Permutation compare l)).
    + apply IH. intros x y Hx Hy. apply Hcmp; now right.
Qed.


End SortedFacts.


Lemma by_strength_descending (a b : PatternAnalysis.SeasonalPattern.t) :
  is_finite (PatternAnalysis.SeasonalPattern.strength a) ->
  is_finite (PatternAnalysis.SeasonalPattern.strength b) ->
  gtb (PatternAnalysis.by_strength a b) (Fin 0) =
  Qltb (finite_part (PatternAnalysis.SeasonalPattern.strength a))
    (finite_part (PatternAnalysis.SeasonalPattern.strength b)).
Proof.
  intros [sa Ha] [sb Hb]. unfold PatternAnalysis.by_strength.
  rewrite Ha, Hb. simpl. apply eq_true_iff_eq. rewrite !Qltb_lt.
  split; intros H; lra.
Qed.


(** ** Buckets and their records *)

Lemma filter_filter_andb (A : Type) (f g : A -> bool) (l : list A) :
  filter f (filter g l) = filter (fun x => g x && f x) l.
Proof.
  induction l as [| x l IH]; simpl; [reflexivity |].
  destruct (g x); simpl; [destruct (f x) |]; now rewrite IH.
Qed.

Lemma filter_nil_iff (A : Type) (f : A -> bool) (l : list A) :
  filter f l = [] <-> forall x, In x l -> f x = false.
Proof.
  induction l as [| x l IH]; simpl.
  - split; [intros _ y [] | reflexivity].
  - destruct (f x) eqn:E.
    + split; [discriminate |]. intros Hall. specialize (Hall x (or_introl eq_refl)).
      congruence.
    + rewrite IH. split.
      * intros Hall y [<- | Hy]; [exact E | now apply Hall].
      * intros Hall y Hy. apply Hall. now right.
Qed.

Lemma group_year_fold (key : Z -> Dayjs.t -> string) (data : list MarketData)
    (year : Z) :
  group_year key data year =
  fold_left (fun acc d => push_group (key_of key year d) d acc)
    (filter (in_year year) data) JsObject.empty.
Proof.
  induction data as [| item data IH] using rev_ind.
  - reflexivity.
  - rewrite group_year_snoc, filter_app, fold_left_app, <- IH. simpl.
    destruct (in_year year item); reflexivity.
Qed.

Lemma group_year_get (key : Z -> Dayjs.t -> string) (data : list MarketData)
    (year : Z) (k : string) :
  JsObject.get k (group_year key data year) =
  match bucket_of key year data k with
  | [] => None
  | b => Some b
  end.
Proof. rewrite group_year_fold. apply (group_get (key_of key year)). Qed.

(** An object with distinct keys is determined by its keys and by what
    [get] returns for them. *)
Lemma object_of_keys (g : JsObject.t string (list MarketData))
    (f : string -> list MarketData) :
  NoDup (JsObject.keys g) ->
  (forall k, JsObject.get k g = match f k with [] => None | b => Some b end) ->
  g = map (fun k => (k, f k)) (JsObject.keys g).
Proof.
  intros Hnd Hget.
  assert (Hall : forall e, In e g -> snd e = f (fst e)).
  { intros [k b] He. apply (In_get_NoDup k b g Hnd) in He.
    rewrite Hget in He. simpl. destruct (f k); congruence. }
  clear Hnd Hget. unfold JsObject.keys.
  induction g as [| [k b] g IH]; simpl; [reflexivity |].
  pose proof (Hall (k, b) (or_introl eq_refl)) as E. simpl in E.
  rewrite <- E. f_equal. apply IH. intros e He. apply Hall. now right.
Qed.

(** The entries of the groups: one per distinct key of the year, in order
    of first occurrence, each with the points of that key. *)
Lemma group_year_entries (key : Z -> Dayjs.t -> string)
    (data : list MarketData) (year : Z) :
  (forall d, array_index (key year d) = None) ->
  JsObject.entries (group_year key data year) =
  map (fun k => (k, bucket_of key year data k))
    (first_occurrences String.eqb
       (map (key_of key year) (filter (in_year year) data))).
Proof.
  intros Hnamed. rewrite entries_named.
  - rewrite <- group_year_keys. apply object_of_keys.
    + rewrite group_year_keys. apply first_occurrences_NoDup, String.eqb_eq.
    + apply group_year_get.
  - intros k Hk. rewrite group_year_keys in Hk.
    apply (proj1 (@first_occurrences_In _ String.eqb String.eqb_eq _ _)) in Hk.
    apply in_map_iff in Hk. destruct Hk as (item & <- & _). apply Hnamed.
Qed.

(** A key has a group exactly when some point of the year has it. *)
Lemma group_key_iff (key : Z -> Dayjs.t -> string) (data : list MarketData)
    (year : Z) (k : string) :
  In k (first_occurrences String.eqb
          (map (key_of key year) (filter (in_year year) data))) <->
  bucket_of key year data k <> [].
Proof.
  rewrite (@first_occurrences_In _ String.eqb String.eqb_eq), in_map_iff.
  unfold bucket_of. rewrite filter_nil_iff. split.
  - intros (d & <- & Hd) Hall. specialize (Hall d Hd).
    now rewrite String.eqb_refl in Hall.
  - intros Hne.
    destruct (filter (fun d => String.eqb k (key_of key year d))
                (filter (in_year year) data)) as [| d b] eqn:E.
    + exfalso. apply Hne. now apply filter_nil_iff.
    + assert (Hd : In d (d :: b)) by now left.
      rewrite <- E in Hd. apply filter_In in Hd. destruct Hd as [Hd Hk].
      apply String.eqb_eq in Hk. now exists d.
Qed.









(** ** The sampler on NaN *)

Lemma weightedRandom_loop_NaN (T : Type) (items : list T) (weights : list Q) :
  weightedRandom_loop items weights NaN = None.
Proof.
  revert weights. induction items as [| x items IH]; intros weights; simpl.
  - reflexivity.
  - destruct (hd_error weights); simpl; apply IH.
Qed.

(** ** Groups of the pattern detector *)

Lemma StronglySorted_firstn (A : Type) (R : A -> A -> Prop) (k : nat)
    (l : list A) :
  StronglySorted R l -> StronglySorted R (firstn k l).
Proof.
  intros Hs. revert k. induction Hs as [| a l Hs IH Ha]; intros k.
  - rewrite firstn_nil. constructor.
  - destruct k as [| k]; simpl; [constructor |].
    constructor; [apply IH |].
    apply Forall_forall. intros x Hx. rewrite Forall_forall in Ha. apply Ha.
    rewrite <- (firstn_skipn k l). apply in_or_app. now left.
Qed.

Section GroupEntries.
Variable kf : MarketData -> string.

Let groups (l : list MarketData) : JsObject.t string (list MarketData) :=
  fold_left (fun acc d => push_group (kf d) d acc) l JsObject.empty.

Lemma group_keys (l : list MarketData) :
  JsObject.keys (groups l) = first_occurrences String.eqb (map kf l).
Proof.
  unfold groups. induction l as [| x l IH] using rev_ind.
  - reflexivity.
  - rewrite fold_left_app, map_app. simpl.
    now rewrite keys_push_group, IH, first_occurrences_snoc.
Qed.

(** The entries of the groups are the non-empty classes of the key. *)
Lemma group_entries_iff (l : list MarketData) (k : string)
    (b : list MarketData) :
  In (k, b) (JsObject.entries (groups l)) <->
  b = filter (fun d => String.eqb k (kf d)) l /\ b <> [].
Proof.
  split.
  - intros Hin.
    apply (Permutation_in _ (entries_Permutation _)) in Hin.
    apply (@In_get_NoDup string _ string_PropertyKey) in Hin.
    + unfold groups in Hin. rewrite group_get in Hin.
      destruct (filter (fun d => String.eqb k (kf d)) l) as [| y ys];
        [discriminate |].
      injection Hin as <-. split; [reflexivity | discriminate].
    + rewrite group_keys. apply first_occurrences_NoDup, String.eqb_eq.
  - intros [-> Hne]. now apply group_entry.
Qed.

End GroupEntries.

Lemma month_entry (marketData : list MarketData) (k : string)
    (b : list MarketData) :
  In (k, b) (JsObject.entries (PatternAnalysis.monthlyData marketData)) ->
  exists m,
    (1 <= m <= 12)%Z /\ k = padStart2 (String_of_Z m) /\
    b = points_of_month m marketData /\ b <> [].
Proof.
  intros Hin.
  apply (group_entries_iff (fun d => Dayjs.format_MM (Dayjs.of_day (date d))))
    in Hin.
  destruct Hin as [Hb Hne].
  destruct b as [| d b']; [contradiction |].
  assert (Hd : In d (d :: b')) by now left.
  rewrite Hb in Hd. apply filter_In in Hd. destruct Hd as [_ Hk].
  apply String.eqb_eq in Hk.
  exists (Dayjs.month (Dayjs.of_day (date d)) + 1)%Z.
  pose proof (month_bounds (Dayjs.of_day (date d))) as Hm.
  split; [lia |]. split; [exact Hk |]. split; [| discriminate].
  rewrite Hb. unfold points_of_month. apply filter_ext. intros x.
  rewrite Hk. apply format_MM_month. lia.
Qed.


Lemma day_bounds (x : Dayjs.t) : (0 <= Dayjs.day x <= 6)%Z.
Proof. unfold Dayjs.day. pose proof (Z.mod_pos_bound (Dayjs.day_number x + 4) 7). lia. Qed.

Lemma weekday_entry (marketData : list MarketData) (k : string)
    (b : list MarketData) :
  In (k, b) (JsObject.entries (PatternAnalysis.weeklyData marketData)) ->
  exists i,
    (0 <= i <= 6)%Z /\ k = String_of_Z i /\
    b = points_of_weekday i marketData /\ b <> [].
Proof.
  intros Hin.
  apply (group_entries_iff
           (fun d => String_of_Z (Dayjs.day (Dayjs.of_day (date d))))) in Hin.
  destruct Hin as [Hb Hne].
  destruct b as [| d b']; [contradiction |].
  assert (Hd : In d (d :: b')) by now left.
  rewrite Hb in Hd. apply filter_In in Hd. destruct Hd as [_ Hk].
  apply String.eqb_eq in Hk.
  exists (Dayjs.day (Dayjs.of_day (date d))).
  split; [apply day_bounds |]. split; [exact Hk |]. split; [| discriminate].
  rewrite Hb. unfold points_of_weekday. apply filter_ext. intros x.
  rewrite Hk. apply eq_true_iff_eq. rewrite String.eqb_eq, Z.eqb_eq.
  split; [intros E; symmetry; now apply String_of_Z_inj | now intros ->].
Qed.

Lemma dayName_of_index (i : Z) :
  (0 <= i <= 6)%Z ->
  PatternAnalysis.dayName (String_of_Z i) =
  nth (Z.to_nat i) PatternAnalysis.dayNames "undefined"%string.
Proof.
  intros Hi. unfold PatternAnalysis.dayName. rewrite parseInt_String_of_Z.
  destruct (Z.ltb_spec i 0); [lia | reflexivity].
Qed.

(** ** Strengths of the patterns *)


Lemma capped_strength_range (x : number) (c k : Q) :
  0 < k ->
  gtb (abs x) (Fin c) = true ->
  exists s,
    JsNum.min (Fin 100) (mul (abs x) (Fin k)) = Fin s /\
    s <= 100 /\ (c * k < s \/ s == 100).
Proof.
  intros Hk Hgt.
  assert (Hsign : (k ?= 0) = Gt) by (apply Qgt_alt; exact Hk).
  destruct x as [a | | |]; simpl in *.
  - apply Qltb_lt in Hgt.
    destruct (Qle_bool 100 (Qabs a * k)) eqn:E.
    + exists 100. split; [reflexivity |]. split; [lra | right; reflexivity].
    + exists (Qabs a * k). split; [reflexivity |].
      assert (Hlt : Qabs a * k < 100).
      { apply Qnot_le_lt. intros H. apply Qle_bool_iff in H. congruence. }
      split; [lra | left; nra].
  - rewrite Hsign. exists 100. split; [reflexivity |].
    split; [lra | right; reflexivity].
  - rewrite Hsign. exists 100. split; [reflexivity |].
    split; [lra | right; reflexivity].
  - discriminate.
Qed.

Lemma volume_strength_range (r : number) :
  gtb r (Fin 1.3) = true ->
  exists s,
    JsNum.min (Fin 100) (mul (sub r (Fin 1)) (Fin 100)) = Fin s /\
    30 < s /\ s <= 100.
Proof.
  intros Hgt. destruct r as [a | | |]; simpl in *.
  - apply Qltb_lt in Hgt.
    destruct (Qle_bool 100 ((a + - (1)) * 100)) eqn:E.
    + exists 100. split; [reflexivity | lra].
    + exists ((a + - (1)) * 100). split; [reflexivity |].
      assert (Hlt : (a + - (1)) * 100 < 100).
      { apply Qnot_le_lt. intros H. apply Qle_bool_iff in H. congruence. }
      lra.
  - exists 100. split; [reflexivity | lra].
  - discriminate.
  - discriminate.
Qed.

Lemma ratio_strength_range (count n : nat) :
  (count <= n)%nat -> (0 < n)%nat ->
  gtb (div (of_nat count) (of_nat n)) (Fin 0.6) = true ->
  exists s,
    mul (div (of_nat count) (of_nat n)) (Fin 100) = Fin s /\
    60 < s /\ s <= 100.
Proof.
  intros Hle Hn. unfold of_nat at 1 3, of_Z. rewrite div_of_nat by exact Hn.
  intros Hgt. apply gtb_Fin in Hgt.
  eexists. split; [reflexivity |].
  assert (Hn' : 0 < inject_Z (Z.of_nat n)).
  { change 0 with (inject_Z 0). rewrite <- Zlt_Qlt. lia. }
  assert (Hc : inject_Z (Z.of_nat count) <= inject_Z (Z.of_nat n)).
  { rewrite <- Zle_Qle. lia. }
  assert (H1 : inject_Z (Z.of_nat count) / inject_Z (Z.of_nat n) <= 1).
  { apply Qle_shift_div_r; [exact Hn' | lra]. }
  lra.
Qed.

Section PatternShapes.
Import PatternAnalysis.

Lemma month_patterns_well_formed (e : string * list MarketData) :
  Forall well_formed_pattern (month_patterns e).
Proof.
  destruct e as [month data]. unfold month_patterns.
  destruct (Nat.ltb_spec (List.length data) 3) as [Hlt | Hge]; [constructor |].
  apply Forall_app. split.
  - destruct (gtb (abs (average priceChange data)) (Fin 2)) eqn:E;
      [| constructor].
    constructor; [| constructor]. unfold well_formed_pattern.
    cbn [SeasonalPattern.strength SeasonalPattern.frequency SeasonalPattern.type].
    destruct (@capped_strength_range _ 2 20 ltac:(lra) E) as (s & Hs & Hle & Hlow).
    split; [exists s; split; [exact Hs |]; lra |].
    split; [exact Hge |].
    destruct (gtb (average priceChange data) (Fin 0)); discriminate.
  - destruct (gtb _ (Fin 0.6)) eqn:E; [| constructor].
    constructor; [| constructor]. unfold well_formed_pattern.
    cbn [SeasonalPattern.strength SeasonalPattern.frequency SeasonalPattern.type].
    destruct (@ratio_strength_range _ (List.length data)
                (filter_length_le _ data) ltac:(lia) E) as (s & Hs & Hlow & Hle).
    split; [exists s; split; [exact Hs |]; lra |].
    split; [exact Hge | discriminate].
Qed.

Lemma day_patterns_well_formed (marketData : list MarketData)
    (e : string * list MarketData) :
  Forall well_formed_pattern (day_patterns marketData e).
Proof.
  destruct e as [day data]. unfold day_patterns.
  destruct (Nat.ltb_spec (List.length data) 3) as [Hlt | Hge]; [constructor |].
  apply Forall_app. split.
  - destruct (gtb (abs (average priceChange data)) (Fin 1.5)) eqn:E;
      [| constructor].
    constructor; [| constructor]. unfold well_formed_pattern.
    cbn [SeasonalPattern.strength SeasonalPattern.frequency SeasonalPattern.type].
    destruct (@capped_strength_range _ 1.5 30 ltac:(lra) E) as (s & Hs & Hle & Hlow).
    split; [exists s; split; [exact Hs |]; lra |].
    split; [exact Hge |].
    destruct (gtb (average priceChange data) (Fin 0)); discriminate.
  - destruct (gtb _ (Fin 1.3)) eqn:E; [| constructor].
    constructor; [| constructor]. unfold well_formed_pattern.
    cbn [SeasonalPattern.strength SeasonalPattern.frequency SeasonalPattern.type].
    destruct (volume_strength_range _ E) as (s & Hs & Hlow & Hle).
    split; [exists s; split; [exact Hs |]; lra |].
    split; [exact Hge | discriminate].
Qed.

Lemma month_patterns_label (e : string * list MarketData) :
  Forall
    (fun p =>
       SeasonalPattern.period p = ("Month " ++ fst e)%string /\
       SeasonalPattern.frequency p = List.length (snd e))
    (month_patterns e).
Proof.
  destruct e as [month data]. unfold month_patterns. cbn [fst snd].
  destruct (List.length data <? 3)%nat; [constructor |].
  apply Forall_app. split.
  - destruct (gtb _ (Fin 2)); repeat constructor.
  - destruct (gtb _ (Fin 0.6)); repeat constructor.
Qed.

Lemma day_patterns_label (marketData : list MarketData)
    (e : string * list MarketData) :
  Forall
    (fun p =>
       SeasonalPattern.period p = dayName (fst e) /\
       SeasonalPattern.frequency p = List.length (snd e))
    (day_patterns marketData e).
Proof.
  destruct e as [day data]. unfold day_patterns. cbn [fst snd].
  destruct (List.length data <? 3)%nat; [constructor |].
  apply Forall_app. split.
  - destruct (gtb _ (Fin 1.5)); repeat constructor.
  - destruct (gtb _ (Fin 1.3)); repeat constructor.
Qed.

(** A property of everything detected holds of everything returned. *)
Lemma seasonalPatterns_Forall (P : SeasonalPattern.t -> Prop)
    (marketData : list MarketData) :
  Forall P (detected_patterns marketData) ->
  Forall P (seasonalPatterns marketData).
Proof.
  intros Hall. unfold seasonalPatterns.
  destruct (List.length marketData <? 30)%nat; [constructor |].
  apply Forall_forall. intros p Hp. apply In_firstn_sort in Hp.
  rewrite Forall_forall in Hall. now apply Hall.
Qed.

End PatternShapes.

Lemma StronglySorted_app_inv (A : Type) (R : A -> A -> Prop) (l1 l2 : list A) :
  StronglySorted R (l1 ++ l2) ->
  forall x y, In x l1 -> In y l2 -> R x y.
Proof.
  induction l1 as [| a l1 IH]; simpl; intros Hs x y Hx Hy; [contradiction |].
  inversion Hs as [| ? ? Hs' Ha]; subst.
  destruct Hx as [<- | Hx].
  - rewrite Forall_forall in Ha. apply Ha, in_or_app. now right.
  - now apply IH.
Qed.





(** ** Where anomalies come from *)



Lemma StronglySorted_impl (A : Type) (R R' : A -> A -> Prop) (l : list A) :
  (forall a b, R a b -> R' a b) -> StronglySorted R l -> StronglySorted R' l.
Proof.
  intros Himpl. induction 1 as [| a l Hs IH Ha]; constructor; [exact IH |].
  eapply Forall_impl; [| exact Ha]. apply Himpl.
Qed.

Section AnomalyFacts.
Import PatternAnalysis.
Variable Math_sqrt : Q -> Q.




Lemma by_date_descending_later (a b : Anomaly.t) :
  gtb (by_date_descending a b) (Fin 0) =
  Qltb (inject_Z (Anomaly.date a)) (inject_Z (Anomaly.date b)).
Proof.
  unfold by_date_descending, of_Z, Dayjs.valueOf, Dayjs.of_day,
    Dayjs.MILLISECONDS_A_DAY.
  cbn [gtb]. apply eq_true_iff_eq. rewrite !Qltb_lt.
  change 0 with (inject_Z 0). rewrite <- !Zlt_Qlt. lia.
Qed.

End AnomalyFacts.

(** ** The calendar, month by month *)

Section MonthFacts.
Local Open Scope Z_scope.
Import Dayjs.

Ltac div_lia := Z.to_euclidean_division_equations; lia.

Lemma days_from_civil_day y m d :
  days_from_civil y m d = days_from_civil y m 1 + (d - 1).
Proof. unfold days_from_civil. cbv zeta. lia. Qed.

(** The day number of the date of a day number is that day number. *)
Lemma civil_roundtrip z :
  let '(y, m, d) := civil_from_days z in days_from_civil y m d = z.
Proof.
  unfold civil_from_days. cbv zeta.
  pose proof (doe_bounds z) as Hdoe.
  pose proof (yoe_bounds Hdoe) as Hyoe.
  pose proof (doy_bounds Hdoe) as Hdoy.
  pose proof (mp_bounds Hdoy) as Hmp.
  set (mp := mp_of (doy_of (doe_of z))) in *.
  set (yoe := yoe_of (doe_of z)) in *.
  unfold days_from_civil. cbv zeta.
  assert (Hera : forall k, 0 <= k <= 399 ->
            (k + era_of z * 400) / 400 = era_of z).
  { intros k Hk. rewrite Z.div_add by lia. rewrite Z.div_small by lia. lia. }
  destruct (Z.ltb_spec mp 10) as [Hlt | Hge].
  - destruct (Z.leb_spec (mp + 3) 2); [lia |].
    destruct (Z.ltb_spec 2 (mp + 3)); [| lia].
    rewrite Hera by lia.
    replace (mp + 3 - 3) with mp by lia.
    replace (yoe + era_of z * 400 - era_of z * 400) with yoe by lia.
    unfold doy_of, doe_of in *. fold yoe. lia.
  - destruct (Z.leb_spec (mp - 9) 2); [| lia].
    destruct (Z.ltb_spec 2 (mp - 9)); [lia |].
    replace (yoe + era_of z * 400 + 1 - 1) with (yoe + era_of z * 400) by lia.
    rewrite Hera by lia.
    replace (mp - 9 + 9) with mp by lia.
    replace (yoe + era_of z * 400 - era_of z * 400) with yoe by lia.
    unfold doy_of, doe_of in *. fold yoe. lia.
Qed.

(** A month has 28 to 31 days. *)
Lemma month_length y m :
  1 <= m <= 12 ->
  28 <= (if m =? 12 then days_from_civil (y + 1) 1 1
         else days_from_civil y (m + 1) 1)
        - days_from_civil y m 1 <= 31.
Proof.
  intros Hm. unfold days_from_civil. cbv zeta.
  change (1 <=? 2) with true. change (2 <? 1) with false. cbv iota.
  repeat match goal with
         | |- context [?a <=? ?b] => destruct (Z.leb_spec a b); try lia
         | |- context [?a <? ?b] => destruct (Z.ltb_spec a b); try lia
         | |- context [?a =? ?b] => destruct (Z.eqb_spec a b); try lia
         end.
  all: div_lia.
Qed.

Lemma next_year_start doe :
  0 <= doe <= 146096 ->
  yoe_of doe < 399 ->
  doe < 365 * (yoe_of doe + 1) + (yoe_of doe + 1) / 4 - (yoe_of doe + 1) / 100.
Proof. unfold yoe_of. intros. div_lia. Qed.

Lemma civil_date_lower z : 1 <= snd (civil_from_days z).
Proof.
  unfold civil_from_days. cbv zeta. cbn [snd].
  pose proof (doy_bounds (doe_bounds z)) as Hdoy.
  unfold mp_of. div_lia.
Qed.

(** A day lies before the first day of the month after its month. *)
Lemma before_next_month z :
  let '(y, m, d) := civil_from_days z in
  z < (if m =? 12 then days_from_civil (y + 1) 1 1
       else days_from_civil y (m + 1) 1).
Proof.
  unfold civil_from_days. cbv zeta.
  pose proof (doe_bounds z) as Hdoe.
  pose proof (yoe_bounds Hdoe) as Hyoe.
  pose proof (doy_bounds Hdoe) as Hdoy.
  pose proof (mp_bounds Hdoy) as Hmp.
  pose proof (next_year_start Hdoe) as Hnext.
  assert (Hz : z = era_of z * 146097 + doe_of z - 719468)
    by (unfold doe_of; lia).
  assert (Hd : doe_of z =
               365 * yoe_of (doe_of z) + yoe_of (doe_of z) / 4
               - yoe_of (doe_of z) / 100 + doy_of (doe_of z))
    by (unfold doy_of; lia).
  assert (Hm : mp_of (doy_of (doe_of z)) = (5 * doy_of (doe_of z) + 2) / 153)
    by reflexivity.
  set (mp := mp_of (doy_of (doe_of z))) in *.
  set (doy := doy_of (doe_of z)) in *.
  set (yoe := yoe_of (doe_of z)) in *.
  set (era := era_of z) in *.
  set (doe := doe_of z) in *.
  clearbody mp doy yoe era doe.
  unfold days_from_civil. cbv zeta.
  change (1 <=? 2) with true. change (2 <? 1) with false. cbv iota.
  assert (Hera : forall k, 0 <= k <= 399 -> (k + era * 400) / 400 = era).
  { intros k Hk. rewrite Z.div_add by lia. rewrite Z.div_small by lia. lia. }
  assert (Hera' : (400 + era * 400) / 400 = era + 1).
  { replace (400 + era * 400) with ((era + 1) * 400) by lia.
    now rewrite Z.div_mul. }
  destruct (Z.ltb_spec mp 10) as [Hlt | Hge].
  - destruct (Z.leb_spec (mp + 3) 2); [lia |].
    destruct (Z.eqb_spec (mp + 3) 12) as [E | E].
    + replace (yoe + era * 400 + 1 - 1) with (yoe + era * 400) by lia.
      rewrite Hera by lia.
      replace (yoe + era * 400 - era * 400) with yoe by lia.
      div_lia.
    + destruct (Z.leb_spec (mp + 3 + 1) 2); [lia |].
      destruct (Z.ltb_spec 2 (mp + 3 + 1)); [| lia].
      rewrite Hera by lia.
      replace (yoe + era * 400 - era * 400) with yoe by lia.
      div_lia.
  - destruct (Z.leb_spec (mp - 9) 2); [| lia].
    destruct (Z.eqb_spec (mp - 9) 12); [lia |].
    destruct (Z.leb_spec (mp - 9 + 1) 2).
    + destruct (Z.ltb_spec 2 (mp - 9 + 1)); [lia |].
      replace (yoe + era * 400 + 1 - 1) with (yoe + era * 400) by lia.
      rewrite Hera by lia.
      replace (yoe + era * 400 - era * 400) with yoe by lia.
      div_lia.
    + destruct (Z.ltb_spec 2 (mp - 9 + 1)); [| lia].
      destruct (Z.eq_dec yoe 399) as [-> | Hy].
      * replace (399 + era * 400 + 1) with (400 + era * 400) by lia.
        rewrite Hera'. div_lia.
      * replace (yoe + era * 400 + 1) with ((yoe + 1) + era * 400) by lia.
        rewrite Hera by lia.
        replace (yoe + 1 + era * 400 - era * 400) with (yoe + 1) by lia.
        specialize (Hnext ltac:(lia)).
        div_lia.
Qed.



(** The first day of the month of [x], as a day number. *)
Lemma startOf_month_day x :
  day_number (startOf_month x) = days_from_civil (year x) (month x + 1) 1.
Proof. unfold startOf_month. apply day_number_of_day. Qed.

(** A day lies in its month: from the first day of the month, and before
    the first day of the next. *)
Lemma day_in_month x :
  days_from_civil (year x) (month x + 1) 1 <= day_number x < next_month_start x.
Proof.
  unfold next_month_start, year, month. cbv zeta.
  pose proof (civil_roundtrip (day_number x)) as Hr.
  pose proof (before_next_month (day_number x)) as Hn.
  pose proof (civil_date_lower (day_number x)) as Hd.
  destruct (civil_from_days (day_number x)) as [[y m] d]. cbn [fst snd] in *.
  rewrite days_from_civil_day in Hr.
  replace (m - 1 + 1) with m by lia. lia.
Qed.

Lemma month_days x :
  28 <= next_month_start x - days_from_civil (year x) (month x + 1) 1 <= 31.
Proof.
  unfold next_month_start. cbv zeta.
  pose proof (month_bounds x) as Hm.
  apply month_length. lia.
Qed.

Lemma add_day_of_day z : add_day (of_day z) 1 = of_day (z + 1).
Proof. unfold add_day, of_day. lia. Qed.

(** The condition of the loop of the month grid, for a midnight. *)
Lemma grid_loop_condition z e :
  isBefore (of_day z) (of_day (e + 1) - 1) ||
  isSame_day (of_day z) (of_day (e + 1) - 1) = (z <=? e).
Proof.
  unfold isBefore, isSame_day, day_number, of_day, MILLISECONDS_A_DAY.
  assert (Hday : ((e + 1) * 86400000 - 1) / 86400000 = e) by div_lia.
  rewrite Hday, Z.div_mul by lia.
  destruct (Z.leb_spec z e) as [Hle | Hgt].
  - apply orb_true_iff.
    destruct (Z.eq_dec z e) as [-> | Hne];
      [right; apply Z.eqb_refl | left; apply Z.ltb_lt; lia].
  - apply orb_false_iff. split; [apply Z.ltb_ge | apply Z.eqb_neq]; lia.
Qed.

End MonthFacts.

(** The loop of the month grid, started at midnight of day [z] with [n]
    days to go until the day after the last one, pushes these [n] days
    and returns, if it has fuel for [n] rounds and the final test. *)
Lemma days_loop_runs (e : Z) :
  forall (n fuel : nat) (z : Z) (days : list Z),
    (n < fuel)%nat ->
    (z + Z.of_nat n = e + 1)%Z ->
    Calendar.days_loop fuel (Dayjs.of_day z) (Dayjs.of_day (e + 1) - 1)%Z days =
    Some (days ++
          map (fun i => Dayjs.toDate (Dayjs.of_day (z + Z.of_nat i))) (seq 0 n)).
Proof.
  induction n as [| n IH]; intros fuel z days Hfuel Hz;
    (destruct fuel as [| fuel]; [lia |]); cbn [Calendar.days_loop];
    rewrite grid_loop_condition.
  - destruct (Z.leb_spec z e); [lia |]. now rewrite app_nil_r.
  - destruct (Z.leb_spec z e); [| lia].
    rewrite add_day_of_day, IH by lia.
    rewrite <- app_assoc. do 2 f_equal. cbn [app seq map].
    rewrite Z.add_0_r. f_equal.
    rewrite <- seq_shift, map_map. apply map_ext. intros i.
    do 2 f_equal. lia.
Qed.

(** ** Four-digit years *)



(** ** Strings of the volume display *)

Lemma append_empty_r (s : string) : (s ++ "")%string = s.
Proof. induction s as [| c s IH]; simpl; [reflexivity | now rewrite IH]. Qed.

Lemma Qfloor_bounds (x : Q) (lo hi : Z) :
  inject_Z lo <= x -> x < inject_Z hi + 1 -> (lo <= Qfloor x <= hi)%Z.
Proof.
  intros Hlo Hhi. split.
  - rewrite <- (Qfloor_Z lo). now apply Qfloor_resp_le.
  - assert (H : (Qfloor x < hi + 1)%Z).
    { rewrite Zlt_Qlt, inject_Z_plus. change (inject_Z 1) with 1.
      pose proof (Qfloor_le x). lra. }
    lia.
Qed.

(** ** Lookups *)

Lemma find_first (A : Type) (f : A -> bool) (l : list A) :
  match find f l with
  | Some x =>
      exists before after,
        l = before ++ x :: after /\ f x = true /\
        Forall (fun y => f y = false) before
  | None => Forall (fun y => f y = false) l
  end.
Proof.
  induction l as [| y l IH]; simpl.
  - constructor.
  - destruct (f y) eqn:E.
    + exists [], l. split; [reflexivity |]. split; [exact E | constructor].
    + destruct (find f l) as [x |].
      * destruct IH as (before & after & -> & Hx & Hall).
        exists (y :: before), after. split; [reflexivity |].
        split; [exact Hx | now constructor].
      * now constructor.
Qed.



(** ** Binary64 arithmetic on the natural numbers below 2 ^ 53 *)

Lemma Qred_inject_Z (q : Q) (z : Z) : q == inject_Z z -> Qred q = inject_Z z.
Proof.
  intros E. rewrite (Qred_complete _ _ E).
  pose proof (Qred_correct (inject_Z z)) as Hc.
  pose proof (gcd_Qred (inject_Z z)) as Hg.
  destruct (Qred (inject_Z z)) as [n d]. unfold Qeq in Hc. simpl in Hc, Hg.
  assert (Hd : Zpos d = 1%Z).
  { assert (Hdiv : (Zpos d | n)%Z) by (exists z; lia).
    assert (Hdd : (Zpos d | Z.gcd n (Zpos d))%Z)
      by (apply Z.gcd_greatest; [exact Hdiv | apply Z.divide_refl]).
    rewrite Hg in Hdd. apply Z.divide_1_r_nonneg in Hdd; lia. }
  injection Hd as ->. unfold inject_Z. f_equal. lia.
Qed.

Lemma pow2_nonneg_exponent (e : Z) :
  (0 <= e)%Z -> Double.pow2 e = inject_Z (2 ^ e).
Proof.
  intros He. unfold Double.pow2. now destruct (Z.leb_spec 0 e); [| lia].
Qed.

Lemma pow2_shift (e : Z) :
  (e <= 0)%Z -> inject_Z (2 ^ (- e)) * Double.pow2 e == 1.
Proof.
  intros He. unfold Double.pow2.
  destruct (Z.leb_spec 0 e) as [H0 | Hneg].
  - assert (e = 0%Z) as -> by lia. reflexivity.
  - assert (Hpos : (0 < 2 ^ (- e))%Z) by (apply Z.pow_pos_nonneg; lia).
    unfold Qeq, Qmult, inject_Z. simpl. rewrite Z2Pos.id by exact Hpos. lia.
Qed.

Lemma nearest_even_inject_Z (x : Q) (m : Z) :
  x == inject_Z m -> Double.nearest_even x = m.
Proof.
  intros E. unfold Double.nearest_even.
  rewrite (Qfloor_comp _ _ E), Qfloor_Z.
  assert (E0 : x - inject_Z m == 0) by (rewrite E; ring).
  now rewrite (Qcompare_comp _ _ E0 (1 # 2) (1 # 2) (Qeq_refl _)).
Qed.

(** A natural number below [2 ^ 53] is a double. *)
Lemma round_natural (q : Q) (z : Z) :
  q == inject_Z z -> (0 <= z < 2 ^ 53)%Z ->
  Double.round q = Fin (inject_Z z).
Proof.
  intros E Hz. unfold Double.round. rewrite (Qred_inject_Z E).
  destruct (Z.eq_dec z 0) as [-> | Hnz]; [reflexivity |].
  assert (Hpos : (0 < z)%Z) by lia.
  assert (E0 : Qeq_bool (inject_Z z) 0 = false).
  { apply Qeq_bool_false. intros H.
    apply (inject_Z_injective z 0) in H. lia. }
  rewrite E0.
  assert (Eabs : Qabs (inject_Z z) = inject_Z z).
  { unfold Qabs, inject_Z. f_equal. lia. }
  rewrite Eabs.
  pose proof (Z.log2_spec z Hpos) as Hlog.
  pose proof (Z.log2_nonneg z) as Hlog0.
  assert (Hlog52 : (Z.log2 z <= 52)%Z).
  { assert (Z.log2 z < 53)%Z by (apply Z.log2_lt_pow2; lia). lia. }
  assert (Eilog : Double.ilog2 (inject_Z z) = Z.log2 z).
  { unfold Double.ilog2. cbn [Qnum Qden inject_Z].
    change (Z.log2 1) with 0%Z. rewrite Z.sub_0_r.
    rewrite pow2_nonneg_exponent by exact Hlog0.
    assert (Hle : Qle_bool (inject_Z (2 ^ Z.log2 z)) (inject_Z z) = true).
    { apply Qle_bool_iff. rewrite <- Zle_Qle. lia. }
    now rewrite Hle. }
  unfold Double.last_place. rewrite Eilog.
  set (e := Z.max (Z.log2 z - 52) (- 1074)).
  assert (He : (e <= 0)%Z) by (unfold e; lia).
  assert (Em : inject_Z z / Double.pow2 e == inject_Z (z * 2 ^ (- e))).
  { pose proof (pow2_shift He) as Hs.
    assert (Hne : ~ Double.pow2 e == 0).
    { intros H0. rewrite H0 in Hs. revert Hs. rewrite Qmult_0_r.
      intros Hs. discriminate Hs. }
    assert (Hinv : / Double.pow2 e == inject_Z (2 ^ (- e))).
    { rewrite <- (Qmult_1_l (/ Double.pow2 e)), <- Hs, <- Qmult_assoc.
      rewrite Qmult_inv_r by exact Hne. ring. }
    unfold Qdiv. now rewrite Hinv, inject_Z_mult. }
  rewrite (nearest_even_inject_Z Em).
  assert (Er : Qred (inject_Z (z * 2 ^ (- e)) * Double.pow2 e) = inject_Z z).
  { apply Qred_inject_Z. rewrite inject_Z_mult, <- Qmult_assoc.
    rewrite (pow2_shift He). ring. }
  rewrite Er.
  assert (Hover : Qle_bool (Double.pow2 1024) (inject_Z z) = false).
  { apply not_true_iff_false. intros H. apply Qle_bool_iff in H.
    rewrite pow2_nonneg_exponent in H by lia.
    rewrite <- Zle_Qle in H.
    assert ((2 ^ 53 < 2 ^ 1024)%Z) by (apply Z.pow_lt_mono_r; lia). lia. }
  rewrite Hover.
  assert (Hsign : Qltb (inject_Z z) 0 = false).
  { apply not_true_iff_false. intros H. apply Qltb_lt in H.
    change 0 with (inject_Z 0) in H. rewrite <- Zlt_Qlt in H. lia. }
  now rewrite Hsign.
Qed.

Lemma round_zero (q : Q) : q == 0 -> Double.round q = Fin 0.
Proof. intros E. apply (@round_natural q 0); [exact E | lia]. Qed.

Lemma add_natural (a b : Z) :
  (0 <= a)%Z -> (0 <= b)%Z -> (a + b < 2 ^ 53)%Z ->
  Double.add (Fin (inject_Z a)) (Fin (inject_Z b)) = Fin (inject_Z (a + b)).
Proof.
  intros Ha Hb Hab. unfold Double.add. cbn [JsNum.add Double.rounded].
  apply round_natural; [| lia]. now rewrite inject_Z_plus.
Qed.

(** ** Natural numbers *)

Lemma natural_floor (q : Q) : natural q -> (0 <= Qfloor q)%Z.
Proof.
  intros [H0 E]. rewrite E in H0. change 0 with (inject_Z 0) in H0.
  now rewrite <- Zle_Qle in H0.
Qed.

Lemma natural_inject_Z (z : Z) : (0 <= z)%Z -> natural (inject_Z z).
Proof.
  intros Hz. split.
  - change 0 with (inject_Z 0). now rewrite <- Zle_Qle.
  - now rewrite Qfloor_Z.
Qed.

Lemma natural_compat (p q : Q) : p == q -> natural p -> natural q.
Proof.
  intros E [H0 Hp]. split.
  - now rewrite <- E.
  - now rewrite <- (Qfloor_comp _ _ E), <- E.
Qed.

Lemma natural_plus (p q : Q) : natural p -> natural q -> natural (p + q).
Proof.
  intros Hp Hq. pose proof (natural_floor Hp). pose proof (natural_floor Hq).
  destruct Hp as [_ Ep], Hq as [_ Eq].
  apply (@natural_compat (inject_Z (Qfloor p + Qfloor q))).
  - now rewrite inject_Z_plus, <- Ep, <- Eq.
  - apply natural_inject_Z. lia.
Qed.

Lemma natural_Qsum (l : list Q) : Forall natural l -> natural (Qsum l).
Proof.
  induction 1 as [| q l Hq _ IH].
  - apply (natural_inject_Z (Z.le_refl 0)).
  - apply (@natural_compat (q + Qsum l)); [now rewrite Qsum_cons |].
    now apply natural_plus.
Qed.

Lemma natural_of_Q (q : Q) :
  natural q -> q < inject_Z (2 ^ 53) ->
  Double.of_Q q = Fin (inject_Z (Qfloor q)).
Proof.
  intros Hq Hlt. pose proof (natural_floor Hq) as H0. destruct Hq as [_ E].
  apply round_natural; [exact E |]. split; [exact H0 |].
  rewrite E in Hlt. now rewrite <- Zlt_Qlt in Hlt.
Qed.

Lemma Qsum_In_le (l : list Q) (x : Q) :
  Forall (fun q => 0 <= q) l -> In x l -> x <= Qsum l.
Proof.
  induction 1 as [| q l Hq Hl IH]; [contradiction |].
  rewrite Qsum_cons. pose proof (Qsum_nonneg Hl) as Hs.
  intros [-> | Hin]; [lra |]. specialize (IH Hin). lra.
Qed.

(** A sum of doubles that are natural numbers is exact as long as it
    stays below [2 ^ 53]. *)
Lemma fold_add_naturals (xs : list number) (qs : list Q) (a : Z) :
  Forall2 (fun x q => natural q /\ x = Fin (inject_Z (Qfloor q))) xs qs ->
  (0 <= a)%Z -> inject_Z a + Qsum qs < inject_Z (2 ^ 53) ->
  fold_left Double.add xs (Fin (inject_Z a)) =
  Fin (inject_Z (Qfloor (inject_Z a + Qsum qs))).
Proof.
  intros Hall. revert a.
  induction Hall as [| x q xs qs [Hq ->] Hall IH]; intros a Ha Hlt.
  - cbn [fold_left]. f_equal. f_equal. rewrite <- (Qfloor_Z a) at 1.
    apply Qfloor_comp. rewrite Qsum_nil. ring.
  - cbn [fold_left]. pose proof (natural_floor Hq) as Hq0.
    assert (Hqs : 0 <= Qsum qs).
    { apply Qsum_nonneg. clear - Hall.
      induction Hall as [| ? ? ? ? [[H0 _] _] _ IH]; constructor; auto. }
    assert (Hsum : inject_Z (a + Qfloor q) + Qsum qs
                   == inject_Z a + Qsum (q :: qs)).
    { rewrite Qsum_cons, inject_Z_plus. destruct Hq as [_ E].
      rewrite <- E. ring. }
    rewrite add_natural; [| exact Ha | exact Hq0 |].
    + rewrite IH; [| lia | now rewrite Hsum].
      f_equal. f_equal. now apply Qfloor_comp.
    + rewrite Zlt_Qlt. rewrite <- Hsum in Hlt. lra.
Qed.

Lemma sum_of_naturals (xs : list number) (qs : list Q) :
  Forall2 (fun x q => natural q /\ x = Fin (inject_Z (Qfloor q))) xs qs ->
  Qsum qs < inject_Z (2 ^ 53) ->
  Double.sum xs = Fin (inject_Z (Qfloor (Qsum qs))).
Proof.
  intros Hall Hlt. unfold Double.sum.
  change (Fin 0) with (Fin (inject_Z 0)).
  rewrite (fold_add_naturals Hall (Z.le_refl 0)).
  - f_equal. f_equal. apply Qfloor_comp. change (inject_Z 0) with 0. ring.
  - change (inject_Z 0) with 0. now rewrite Qplus_0_l.
Qed.

(** Read as doubles and added from left to right, natural numbers with a
    sum below [2 ^ 53] give their exact sum. *)
Lemma sum_of_Q_naturals (A : Type) (field : A -> Q) (l : list A) :
  Forall (fun d => natural (field d)) l ->
  Qsum (map field l) < inject_Z (2 ^ 53) ->
  Double.sum (map (fun d => Double.of_Q (field d)) l) =
  Fin (inject_Z (Qfloor (Qsum (map field l)))).
Proof.
  intros Hnat Hlt. apply sum_of_naturals; [| exact Hlt].
  assert (Hle : forall d, In d l -> field d <= Qsum (map field l)).
  { intros d Hd. apply Qsum_In_le; [| now apply in_map].
    apply Forall_map. eapply Forall_impl; [| exact Hnat]. now intros ? [H0 _]. }
  assert (Hall : Forall (fun d => natural (field d) /\
                                  field d < inject_Z (2 ^ 53)) l).
  { apply Forall_forall. intros d Hd. rewrite Forall_forall in Hnat.
    split; [now apply Hnat |]. specialize (Hle d Hd). lra. }
  clear Hnat Hlt Hle.
  induction Hall as [| d l [Hd Hlt] _ IH]; cbn [map]; constructor.
  - split; [exact Hd | now apply natural_of_Q].
  - exact IH.
Qed.

(** ** Binary64 arithmetic against the reference of the Standard Library *)

(** On the numbers of the examples below, [Double] computes what the
    reference computes: the doubles nearest to 0.1, 0.2 and 0.3 and their
    sums in both orders; and for ten volumes of 5e-152 the mean, the
    deviation of a volume from it, and the square of the deviation, which
    is zero. *)
Example binary64_reference :
  let tenth := Reference.div (Reference.of_Z 1) (Reference.of_Z 10) in
  let fifth := Reference.div (Reference.of_Z 2) (Reference.of_Z 10) in
  let three_tenths := Reference.div (Reference.of_Z 3) (Reference.of_Z 10) in
  let tiny := Reference.of_number (Double.of_Q 5e-152) in
  let mean :=
    Reference.div (fold_left Reference.add (repeat tiny 10) (Reference.of_Z 0))
      (Reference.of_Z 10) in
  let deviation := Reference.sub tiny mean in
  Reference.value tenth = Double.of_Q 0.1 /\
  Reference.value fifth = Double.of_Q 0.2 /\
  Reference.value three_tenths = Double.of_Q 0.3 /\
  Reference.value (Reference.add (Reference.add tenth fifth) three_tenths)
    = Double.add (Double.add (Double.of_Q 0.1) (Double.of_Q 0.2))
        (Double.of_Q 0.3) /\
  Reference.value (Reference.add tenth (Reference.add fifth three_tenths))
    = Double.add (Double.of_Q 0.1)
        (Double.add (Double.of_Q 0.2) (Double.of_Q 0.3)) /\
  Reference.value tiny = Double.of_Q 5e-152 /\
  Reference.value mean = Rounded.PatternAnalysis.avgVolume tiny_constant_series /\
  Reference.value deviation
    = Double.sub (Double.of_Q 5e-152)
        (Rounded.PatternAnalysis.avgVolume tiny_constant_series) /\
  Reference.value (Reference.mul deviation deviation)
    = Rounded.PatternAnalysis.square
        (Double.sub (Double.of_Q 5e-152)
           (Rounded.PatternAnalysis.avgVolume tiny_constant_series)) /\
  Reference.mul deviation deviation = SpecFloat.S754_zero false.
Proof.
  cbv zeta.
  repeat match goal with |- _ /\ _ => split end; vm_compute; reflexivity.
Qed.

(** ** The aggregators in binary64 arithmetic *)

Lemma fold_left_map_acc (A B C : Type) (f : C -> B -> C) (g : A -> B)
    (l : list A) (c : C) :
  fold_left (fun acc x => f acc (g x)) l c = fold_left f (map g l) c.
Proof. revert c. induction l as [| x l IH]; intros c; simpl; auto. Qed.

Lemma reduce_sum_sum (field : MarketData -> Q) (bucket : list MarketData) :
  Rounded.reduce_sum field bucket =
  Double.sum (map (fun d => Double.of_Q (field d)) bucket).
Proof.
  unfold Rounded.reduce_sum, Double.sum.
  apply (fold_left_map_acc Double.add (fun d => Double.of_Q (field d))).
Qed.

Lemma rounded_aggregate_entry_Some (p : string) (bucket : list MarketData) :
  bucket <> [] ->
  exists a,
    Rounded.aggregate_entry (p, bucket) = Some a /\
    Rounded.period a = p /\
    Rounded.totalVolume a = Rounded.reduce_sum volume bucket.
Proof.
  intros Hne. unfold Rounded.aggregate_entry.
  destruct (@getMostFrequent_spec _ VolatilityLevel_PropertyKey volatilityLevel
              (fun _ => eq_refl) bucket Hne) as (v & Hv & _).
  destruct (@getMostFrequent_spec _ Performance_PropertyKey performance
              (fun _ => eq_refl) bucket Hne) as (q & Hq & _).
  unfold getMostFrequentVolatility, getMostFrequentPerformance.
  rewrite Hv, Hq. eexists. split; [reflexivity |]. split; reflexivity.
Qed.

(** Both aggregators never throw; the totals of their records are the
    sums of the buckets, in order of first occurrence of the keys. *)
Lemma rounded_totals (key : Z -> Dayjs.t -> string) (data : list MarketData)
    (year : Z) :
  (forall d, array_index (key year d) = None) ->
  exists out,
    map_throwing Rounded.aggregate_entry
      (JsObject.entries (group_year key data year)) = Some out /\
    map Rounded.totalVolume out =
    map (fun k => Rounded.reduce_sum volume (bucket_of key year data k))
      (first_occurrences String.eqb
         (map (key_of key year) (filter (in_year year) data))).
Proof.
  intros Hnamed. rewrite (group_year_entries key data year Hnamed).
  set (keys := first_occurrences String.eqb
                 (map (key_of key year) (filter (in_year year) data))).
  assert (Hkeys : forall k, In k keys -> bucket_of key year data k <> []).
  { intros k Hk. now apply group_key_iff. }
  clearbody keys. induction keys as [| k keys IH]; cbn [map map_throwing].
  - exists []. split; reflexivity.
  - destruct (@rounded_aggregate_entry_Some k (bucket_of key year data k))
      as (a & Ha & _ & Hs); [apply Hkeys; now left |].
    destruct IH as (out & Hout & Hall); [intros k' Hk'; apply Hkeys; now right |].
    exists (a :: out). rewrite Ha, Hout. split; [reflexivity |].
    cbn [map]. now rewrite Hs, Hall.
Qed.

(** The volumes of the buckets add up to the volume of the year. *)
Lemma bucket_volumes (key : Z -> Dayjs.t -> string) (data : list MarketData)
    (year : Z) :
  (forall d, array_index (key year d) = None) ->
  Qsum (map (fun k => bucket_volume (bucket_of key year data k))
          (first_occurrences String.eqb
             (map (key_of key year) (filter (in_year year) data))))
  == Qsum (map volume (filter (in_year year) data)).
Proof.
  intros Hnamed. rewrite <- (group_year_volume key year data).
  unfold object_sum.
  rewrite <- (Qsum_Permutation
                (Permutation_map (fun e => bucket_volume (snd e))
                   (entries_Permutation (group_year key data year)))).
  rewrite (group_year_entries key data year Hnamed), map_map. reflexivity.
Qed.

Lemma bucket_of_incl (key : Z -> Dayjs.t -> string) (data : list MarketData)
    (year : Z) (k : string) (d : MarketData) :
  In d (bucket_of key year data k) -> In d (filter (in_year year) data).
Proof. unfold bucket_of. intros Hd. now apply filter_In in Hd. Qed.

(** Natural volumes with a total below [2 ^ 53]: the totals of the
    records, added from left to right, and the volumes of the points of
    the year, added from left to right, both give the exact total. *)
Lemma rounded_total_volume (key : Z -> Dayjs.t -> string)
    (data : list MarketData) (year : Z) :
  (forall d, array_index (key year d) = None) ->
  Forall (fun d => natural (volume d)) (filter (in_year year) data) ->
  Qsum (map volume (filter (in_year year) data)) < inject_Z (2 ^ 53) ->
  exists out,
    map_throwing Rounded.aggregate_entry
      (JsObject.entries (group_year key data year)) = Some out /\
    Double.sum (map Rounded.totalVolume out) =
      Fin (inject_Z (Qfloor (Qsum (map volume (filter (in_year year) data))))) /\
    Double.sum (volumes (filter (in_year year) data)) =
      Fin (inject_Z (Qfloor (Qsum (map volume (filter (in_year year) data))))).
Proof.
  intros Hnamed Hnat Hlt.
  destruct (rounded_totals key data year Hnamed) as (out & Hout & Htot).
  exists out. split; [exact Hout |]. split.
  - rewrite Htot. pose proof (bucket_volumes key data year Hnamed) as Hsum.
    set (keys := first_occurrences String.eqb
                   (map (key_of key year) (filter (in_year year) data))) in *.
    rewrite <- (Qfloor_comp _ _ Hsum). apply sum_of_naturals.
    + assert (Hb : forall k, In k keys ->
                Forall (fun d => natural (volume d)) (bucket_of key year data k)).
      { intros k _. apply Forall_forall. intros d Hd.
        rewrite Forall_forall in Hnat. eapply Hnat, bucket_of_incl, Hd. }
      assert (Hle : forall k, In k keys ->
                bucket_volume (bucket_of key year data k) < inject_Z (2 ^ 53)).
      { intros k Hk.
        apply Qle_lt_trans
          with (Qsum (map (fun k => bucket_volume (bucket_of key year data k))
                        keys)); [| rewrite Hsum; exact Hlt].
        apply Qsum_In_le.
        - apply Forall_map, Forall_forall. intros k' Hk'.
          apply natural_Qsum, Forall_map, Hb, Hk'.
        - apply in_map_iff. now exists k. }
      clear Hsum Htot Hout. clearbody keys.
      induction keys as [| k keys IH]; cbn [map]; constructor.
      * split.
        -- apply natural_Qsum, Forall_map, Hb. now left.
        -- rewrite reduce_sum_sum. apply sum_of_Q_naturals.
           ++ apply Hb. now left.
           ++ apply Hle. now left.
      * apply IH; intros k' Hk'; [apply Hb | apply Hle]; now right.
    + now rewrite Hsum.
  - unfold volumes. now apply sum_of_Q_naturals.
Qed.

(** ** The anomaly detector in binary64 arithmetic *)

Lemma div_zero_zero : Double.div (Fin 0) (Fin 0) = NaN.
Proof. reflexivity. Qed.

Lemma sub_same_natural (z : Z) :
  Double.sub (Fin (inject_Z z)) (Fin (inject_Z z)) = Fin 0.
Proof.
  unfold Double.sub, JsNum.sub. cbn [opp JsNum.add Double.rounded].
  apply round_zero. ring.
Qed.

(** The quotient of a natural number below [2 ^ 53] by one of its
    divisors is exact. *)
Lemma div_natural (p : Q) (n : nat) (z : Z) :
  (0 < n)%nat -> p == inject_Z (Z.of_nat n) * inject_Z z ->
  (0 <= z < 2 ^ 53)%Z ->
  Double.div (Fin p) (of_nat n) = Fin (inject_Z z).
Proof.
  intros Hn E Hz. unfold Double.div. rewrite (div_of_nat _ Hn).
  cbn [Double.rounded]. apply round_natural; [| exact Hz].
  rewrite E. field. now apply of_nat_nonzero.
Qed.

Section RoundedAnomalyFacts.
Import Rounded.PatternAnalysis.
Variable Math_sqrt : Q -> Q.


(** Every detected anomaly of type [volume_spike] comes from the volume
    rule of a point of the series. *)
Lemma rounded_volume_spike_origin
    (avgVolume volumeStdDev avgPriceChange priceChangeStdDev : number)
    (rest : list MarketData) (prev : option MarketData) (a : Anomaly.t) :
  In a (detect_from avgVolume volumeStdDev avgPriceChange priceChangeStdDev
          prev rest) ->
  Anomaly.type a = PatternAnalysis.Anomaly.volume_spike ->
  exists data, In data rest /\ In a (volume_rule avgVolume volumeStdDev data).
Proof.
  revert prev. induction rest as [| d rest IH]; intros prev; simpl.
  - contradiction.
  - intros Hin Htype.
    apply in_app_or in Hin. destruct Hin as [Hin | Hin].
    { exists d. split; [now left | exact Hin]. }
    apply in_app_or in Hin. destruct Hin as [Hin | Hin].
    { unfold volatility_rule in Hin.
      destruct (_ && _); [| contradiction].
      destruct Hin as [<- | []]. discriminate Htype. }
    apply in_app_or in Hin. destruct Hin as [Hin | Hin].
    { unfold gap_rule in Hin. destruct prev as [p |]; [| contradiction].
      destruct (gtb _ (Fin 5)); [| contradiction].
      destruct Hin as [<- | []]. discriminate Htype. }
    destruct (IH _ Hin Htype) as (data & Hdata & Ha).
    exists data. split; [now right | exact Ha].
Qed.




Lemma fold_add_zeros (A : Type) (f : A -> number) (l : list A) :
  Forall (fun x => f x = Fin 0) l ->
  fold_left (fun sum x => Double.add sum (f x)) l (Fin 0) = Fin 0.
Proof.
  induction 1 as [| x l Hx _ IH]; cbn [fold_left]; [reflexivity |].
  rewrite Hx. exact IH.
Qed.

(** Equal natural volumes whose sum stays below [2 ^ 53]: the mean is
    the common volume and the standard deviation is zero. *)
Lemma constant_volume_statistics (marketData : list MarketData) (c : Q) :
  (0 < List.length marketData)%nat ->
  Forall (fun d => volume d == c) marketData ->
  natural c ->
  inject_Z (Z.of_nat (List.length marketData)) * c < inject_Z (2 ^ 53) ->
  (forall d, In d marketData ->
     Double.of_Q (volume d) = Fin (inject_Z (Qfloor c))) /\
  avgVolume marketData = Fin (inject_Z (Qfloor c)) /\
  volumeStdDev Math_sqrt marketData = Fin 0.
Proof.
  intros Hn Hconst Hc Hlt.
  pose proof (natural_floor Hc) as Hc0. destruct Hc as [Hc1 Ec].
  assert (Hn1 : 1 <= inject_Z (Z.of_nat (List.length marketData))).
  { change 1 with (inject_Z 1). rewrite <- Zle_Qle. lia. }
  assert (Hclt : c < inject_Z (2 ^ 53)) by nra.
  assert (Hz : (0 <= Qfloor c < 2 ^ 53)%Z).
  { split; [exact Hc0 |]. rewrite Ec in Hclt. now rewrite <- Zlt_Qlt in Hclt. }
  assert (Hvol : forall d, In d marketData ->
            Double.of_Q (volume d) = Fin (inject_Z (Qfloor c))).
  { intros d Hd. rewrite Forall_forall in Hconst.
    apply round_natural; [| exact Hz]. now rewrite (Hconst d Hd). }
  assert (Hsum : Qsum (map volume marketData)
                 == inject_Z (Z.of_nat (List.length marketData)) * c).
  { rewrite (@Qsum_constant (map volume marketData) c), length_map.
    - reflexivity.
    - now apply Forall_map. }
  assert (Havg : avgVolume marketData = Fin (inject_Z (Qfloor c))).
  { unfold avgVolume. rewrite reduce_sum_sum, sum_of_Q_naturals.
    - apply div_natural; [exact Hn | | exact Hz].
      assert (Hs : natural (Qsum (map volume marketData))).
      { apply (@natural_compat
                 (inject_Z (Z.of_nat (List.length marketData) * Qfloor c))).
        - now rewrite Hsum, inject_Z_mult, <- Ec.
        - apply natural_inject_Z. lia. }
      destruct Hs as [_ Es]. now rewrite <- Es, Hsum, <- Ec.
    - eapply Forall_impl; [| exact Hconst]. intros d Hd.
      apply (@natural_compat c); [now symmetry | now split].
    - now rewrite Hsum. }
  split; [exact Hvol |]. split; [exact Havg |].
  unfold volumeStdDev. rewrite Havg.
  rewrite (fold_add_zeros
             (fun d => square (Double.sub (Double.of_Q (volume d))
                                 (Fin (inject_Z (Qfloor c)))))).
  - assert (E : Double.div (Fin 0) (of_nat (List.length marketData)) = Fin 0).
    { change (Fin 0) with (Fin (inject_Z 0)).
      apply div_natural; [exact Hn | | lia].
      change (inject_Z 0) with 0. ring. }
    rewrite E. reflexivity.
  - apply Forall_forall. intros d Hd. rewrite (Hvol d Hd), sub_same_natural.
    reflexivity.
Qed.

End RoundedAnomalyFacts.

(** * Theorems *)

(** ** C1: the dominant category of a bucket *)

(** C1, as the claim states it, fails: in a week bucket with one [low] day
    followed by one [high] day the dominant volatility is [high], the value
    seen last, not the value seen first. *)
Lemma dominant_first_seen_counterexample :
  option_map (map avgVolatility) (aggregateDataByWeek tied_bucket 2024)
    = Some [high] /\
  ~ (exists v,
       getMostFrequentVolatility tied_bucket = Some v /\
       is_mode VolatilityLevel_eqb (map volatilityLevel tied_bucket) v /\
       first_seen_wins_ties VolatilityLevel_eqb
         (map volatilityLevel tied_bucket) v).
Proof.
  split; [vm_compute; reflexivity |].
  intros (v & Hv & _ & Hties).
  vm_compute in Hv. injection Hv as <-.
  destruct (Hties low) as (i & j & Hi & Hj & Hij); [discriminate | reflexivity |].
  vm_compute in Hi, Hj. injection Hi as <-. injection Hj as <-. lia.
Qed.

(** C1 (amended). For every non-empty bucket, the dominant volatility and
    the dominant performance are a value of the bucket with the highest
    number of occurrences; when several values tie for the highest count,
    the one whose first occurrence in the bucket comes last is returned. *)
Theorem dominant_category_is_last_seen_mode (bucket : list MarketData) :
  bucket <> [] ->
  (exists v,
     getMostFrequentVolatility bucket = Some v /\
     is_mode VolatilityLevel_eqb (map volatilityLevel bucket) v /\
     last_seen_wins_ties VolatilityLevel_eqb (map volatilityLevel bucket) v) /\
  (exists p,
     getMostFrequentPerformance bucket = Some p /\
     is_mode Performance_eqb (map performance bucket) p /\
     last_seen_wins_ties Performance_eqb (map performance bucket) p).
Proof.
  intros Hne. split.
  - destruct (@getMostFrequent_spec _ VolatilityLevel_PropertyKey volatilityLevel
                (fun _ => eq_refl) bucket Hne)
      as (v & Hv & Hin & Hmax & Hties).
    exists v. repeat split; assumption.
  - destruct (@getMostFrequent_spec _ Performance_PropertyKey performance
                (fun _ => eq_refl) bucket Hne)
      as (p & Hp & Hin & Hmax & Hties).
    exists p. repeat split; assumption.
Qed.

Lemma dominant_category_is_last_seen_mode_witness :
  (exists v,
     getMostFrequentVolatility tied_bucket = Some v /\
     is_mode VolatilityLevel_eqb (map volatilityLevel tied_bucket) v /\
     last_seen_wins_ties VolatilityLevel_eqb
       (map volatilityLevel tied_bucket) v) /\
  (exists p,
     getMostFrequentPerformance tied_bucket = Some p /\
     is_mode Performance_eqb (map performance tied_bucket) p /\
     last_seen_wins_ties Performance_eqb (map performance tied_bucket) p).
Proof.
  apply dominant_category_is_last_seen_mode. discriminate.
Defined.

(** ** C2: the synthesizer's loop *)

(** C2. On the single-day range 2024-01-01 to 2024-01-01 the synthesizer
    does not return one point: for every bound on the number of iterations
    and every random source the loop is still running. *)
Theorem generateMockMarketData_single_day_does_not_return :
  forall fuel draws,
    generateMockMarketData fuel monday_2024_01_01 monday_2024_01_01 draws = None.
Proof.
  intros fuel draws. apply generateMockMarketData_runs_forever. lia.
Qed.

(** ** C3: conservation of volume by month aggregation *)

(** C3, as the claim states it, fails in the arithmetic of the program:
    with volumes 0.1 in January and 0.2 and 0.3 in February the totals
    of the two records are 0.1 and 0.5 and add up to 0.6, while the three
    volumes add up to 0.6000000000000001. *)
Lemma monthly_total_volume_counterexample :
  exists out,
    Rounded.aggregateDataByMonth rounding_series 2024 = Some out /\
    map Rounded.totalVolume out = [Double.of_Q 0.1; Double.of_Q 0.5] /\
    Double.sum (map Rounded.totalVolume out) = Double.of_Q 0.6 /\
    Double.sum (volumes (filter (in_year 2024) rounding_series))
      = Double.of_Q 0.6000000000000001 /\
    Double.sum (map Rounded.totalVolume out) <>
    Double.sum (volumes (filter (in_year 2024) rounding_series)).
Proof.
  eexists. split; [vm_compute; reflexivity |].
  split; [vm_compute; reflexivity |].
  split; [vm_compute; reflexivity |].
  split; [vm_compute; reflexivity |].
  vm_compute. intros H. injection H as H. discriminate H.
Qed.

(** C3 (amended). For every input series and every target year such that
    the volumes of the points of that year are natural numbers with a sum
    below [2 ^ 53], month aggregation returns (it does not throw) and the
    sum of [totalVolume] over the returned records equals the sum of
    [volume] over the input points whose date falls in that year; both
    are the exact sum. *)
Theorem monthly_total_volume_of_natural_volumes (data : list MarketData)
    (year : Z) :
  Forall (fun d => natural (volume d)) (filter (in_year year) data) ->
  Qsum (map volume (filter (in_year year) data)) < inject_Z (2 ^ 53) ->
  exists out,
    Rounded.aggregateDataByMonth data year = Some out /\
    Double.sum (map Rounded.totalVolume out) =
    Double.sum (volumes (filter (in_year year) data)) /\
    same (Double.sum (map Rounded.totalVolume out))
      (Fin (Qsum (map volume (filter (in_year year) data)))).
Proof.
  intros Hnat Hlt.
  destruct (@rounded_total_volume monthKey data year (monthKey_named year)
              Hnat Hlt) as (out & Hout & Htot & Hvol).
  exists out. split; [exact Hout |]. rewrite Htot, Hvol.
  split; [reflexivity |].
  destruct (natural_Qsum (proj2 (Forall_map volume natural _) Hnat)) as [_ E].
  cbn [same]. now symmetry.
Qed.

Lemma monthly_total_volume_of_natural_volumes_witness :
  exists out,
    Rounded.aggregateDataByMonth month_test_series 2024 = Some out /\
    Double.sum (map Rounded.totalVolume out) =
    Double.sum (volumes (filter (in_year 2024) month_test_series)) /\
    same (Double.sum (map Rounded.totalVolume out))
      (Fin (Qsum (map volume (filter (in_year 2024) month_test_series)))).
Proof.
  apply monthly_total_volume_of_natural_volumes.
  - apply Forall_forall. intros d Hd.
    apply (proj1 (filter_In (in_year 2024) d month_test_series)) in Hd.
    destruct Hd as [[<- | [<- | [<- | []]]] _]; eapply natural_inject_Z; lia.
  - vm_compute. reflexivity.
Defined.

(** ** C4: one record per unit index, and their order *)

(** C4, as the claim states it, fails in week mode: Monday 2024-12-30 is in
    week 1, so the records come in the order week 52, week 1. *)
Lemma week_order_counterexample :
  ascending year_end_series /\
  option_map (map period) (aggregateDataByWeek year_end_series 2024)
    = Some ["2024-W52"%string; "2024-W1"%string] /\
  ~ (exists out units,
       aggregateDataByWeek year_end_series 2024 = Some out /\
       map period out = map (week_label 2024) units /\
       StronglySorted Z.lt units).
Proof.
  assert (Hc : option_map (map period) (aggregateDataByWeek year_end_series 2024)
               = Some [week_label 2024 52; week_label 2024 1])
    by (vm_compute; reflexivity).
  split; [| split].
  - repeat constructor; vm_compute; discriminate.
  - rewrite Hc. vm_compute. reflexivity.
  - intros (out & units & Hout & Hperiod & Hsorted).
    rewrite Hout in Hc. cbn [option_map] in Hc. rewrite Hperiod in Hc.
    clear Hout Hperiod.
    destruct units as [| a [| b [| c units]]]; try discriminate Hc.
    cbn [map] in Hc. injection Hc as Ha Hb.
    apply String_of_Z_inj in Ha, Hb. subst.
    inversion Hsorted as [| ? ? _ Hall]; subst.
    inversion Hall as [| ? ? Hlt _]; subst. lia.
Qed.

(** C4 (amended). For every input series ordered ascending by date and
    every target year, each aggregator returns exactly one record per unit
    index that has a point in that year; in month mode the records are in
    ascending order of the month, in week mode they are in the order in
    which the weeks first occur in the series. *)
Theorem one_period_per_unit_in_creation_order (data : list MarketData)
    (year : Z) :
  ascending data ->
  (exists out units,
     aggregateDataByWeek data year = Some out /\
     map period out = map (week_label year) units /\
     one_per_unit week_index data year units /\
     units =
       first_occurrences Z.eqb (map week_index (filter (in_year year) data))) /\
  (exists out units,
     aggregateDataByMonth data year = Some out /\
     map period out = map (month_label year) units /\
     one_per_unit month_index data year units /\
     StronglySorted Z.lt units).
Proof.
  intros Hasc. split.
  - destruct (@aggregate_groups weekKey data year (weekKey_named year))
      as (out & Hout & Hperiod & _).
    exists out, (first_occurrences Z.eqb
                   (map week_index (filter (in_year year) data))).
    split; [exact Hout |]. split; [| split].
    + rewrite Hperiod.
      rewrite <- (@first_occurrences_map _ _ Z.eqb String.eqb (week_label year)).
      * now rewrite map_map.
      * apply Z.eqb_eq.
      * apply String.eqb_eq.
      * intros a b _ _. apply week_label_inj.
    + apply one_per_unit_first_occurrences.
    + reflexivity.
  - destruct (@aggregate_groups monthKey data year (monthKey_named year))
      as (out & Hout & Hperiod & _).
    exists out, (first_occurrences Z.eqb
                   (map month_index (filter (in_year year) data))).
    split; [exact Hout |]. split; [| split].
    + rewrite Hperiod.
      rewrite <- (@first_occurrences_map _ _ Z.eqb String.eqb (month_label year)).
      * now rewrite map_map.
      * apply Z.eqb_eq.
      * apply String.eqb_eq.
      * intros a b Ha Hb. apply in_map_iff in Ha, Hb.
        destruct Ha as (ia & <- & _). destruct Hb as (ib & <- & _).
        apply month_label_inj; apply month_index_bounds.
    + apply one_per_unit_first_occurrences.
    + apply first_occurrences_sorted, ascending_months, Hasc.
Qed.

Lemma one_period_per_unit_in_creation_order_witness :
  (exists out units,
     aggregateDataByWeek month_test_series 2024 = Some out /\
     map period out = map (week_label 2024) units /\
     one_per_unit week_index month_test_series 2024 units /\
     units =
       first_occurrences Z.eqb
         (map week_index (filter (in_year 2024) month_test_series))) /\
  (exists out units,
     aggregateDataByMonth month_test_series 2024 = Some out /\
     map period out = map (month_label 2024) units /\
     one_per_unit month_index month_test_series 2024 units /\
     StronglySorted Z.lt units).
Proof.
  apply one_period_per_unit_in_creation_order.
  repeat constructor; vm_compute; discriminate.
Defined.

(** ** C5 and C6: volume spikes *)


Section VolumeSpikes.
Import Rounded.PatternAnalysis.
Variable Math_sqrt : Q -> Q.


(** C6 (amended). For every series of at least 10 points in which all
    volumes are equal to one natural number whose product with the number
    of points is below [2 ^ 53], the standard deviation of the volume is
    zero and the z-score of every point is NaN (zero divided by zero, no
    error is raised), so no [volume_spike] is detected or returned. *)
Theorem constant_volume_has_no_spike (marketData : list MarketData) (c : Q) :
  (10 <= List.length marketData)%nat ->
  Forall (fun d => volume d == c) marketData ->
  natural c ->
  inject_Z (Z.of_nat (List.length marketData)) * c < inject_Z (2 ^ 53) ->
  volumeStdDev Math_sqrt marketData = Fin 0 /\
  (forall data, In data marketData ->
     volumeZScore (avgVolume marketData) (volumeStdDev Math_sqrt marketData)
       data = NaN) /\
  (forall a, In a (detected_anomalies Math_sqrt marketData) ->
     Anomaly.type a <> PatternAnalysis.Anomaly.volume_spike) /\
  (forall a, In a (anomalies Math_sqrt marketData) ->
     Anomaly.type a <> PatternAnalysis.Anomaly.volume_spike).
Proof.
  intros Hlen Hconst Hc Hlt.
  destruct (@constant_volume_statistics Math_sqrt marketData c)
    as (Hvol & Havg & Hsd); [lia | exact Hconst | exact Hc | exact Hlt |].
  assert (Hz : forall data, In data marketData ->
                 volumeZScore (avgVolume marketData)
                   (volumeStdDev Math_sqrt marketData) data = NaN).
  { intros data Hin. unfold volumeZScore.
    rewrite (Hvol data Hin), Havg, Hsd, sub_same_natural.
    exact div_zero_zero. }
  assert (Hnone : forall a, In a (detected_anomalies Math_sqrt marketData) ->
                    Anomaly.type a <> PatternAnalysis.Anomaly.volume_spike).
  { intros a Ha Htype. unfold detected_anomalies in Ha. cbv zeta in Ha.
    destruct (rounded_volume_spike_origin _ _ _ _ _ _ _ Ha Htype)
      as (data & Hin & Hrule).
    unfold volume_rule in Hrule. now rewrite (Hz data Hin) in Hrule. }
  split; [exact Hsd |]. split; [exact Hz |]. split; [exact Hnone |].
  intros a Ha. apply Hnone. unfold anomalies in Ha.
  destruct (List.length marketData <? 10)%nat; [contradiction |].
  now apply In_firstn_sort in Ha.
Qed.

End VolumeSpikes.


(** On the twelve days, the z-score of the first day is 2 and that of the
    second is the double nearest to 2.01; the first day is not flagged
    and the second is the only anomaly, of severity [low]. *)
Example threshold_series_anomalies :
  map (z_score sqrt_of_squares (volumes threshold_series))
    (firstn 2 (volumes threshold_series))
    = [Fin 2; Double.of_Q 2.01] /\
  map (fun a => (Rounded.PatternAnalysis.Anomaly.date a,
                 Rounded.PatternAnalysis.Anomaly.type a,
                 Rounded.PatternAnalysis.Anomaly.severity a))
    (Rounded.PatternAnalysis.anomalies sqrt_of_squares threshold_series)
    = [(Dayjs.days_from_civil 2024 3 2, PatternAnalysis.Anomaly.volume_spike,
        PatternAnalysis.Anomaly.low)].
Proof. split; vm_compute; reflexivity. Qed.

(** C6, as the claim states it, fails in the arithmetic of the program:
    ten volumes of 5e-152 have a mean just below them, the squares of the
    deviations underflow to zero, so the standard deviation is zero, every
    z-score is +Infinity and ten [volume_spike]s of severity [high] are
    returned. *)
Lemma tiny_constant_volume_counterexample :
  (10 <= List.length tiny_constant_series)%nat /\
  Forall (fun d => volume d == 5e-152) tiny_constant_series /\
  Rounded.PatternAnalysis.volumeStdDev sqrt_of_squares tiny_constant_series
    = Fin 0 /\
  map (fun a => (Rounded.PatternAnalysis.Anomaly.date a,
                 Rounded.PatternAnalysis.Anomaly.type a,
                 Rounded.PatternAnalysis.Anomaly.severity a))
    (Rounded.PatternAnalysis.anomalies sqrt_of_squares tiny_constant_series)
    = map (fun i => (Dayjs.days_from_civil 2024 3 (10 - Z.of_nat i),
                     PatternAnalysis.Anomaly.volume_spike,
                     PatternAnalysis.Anomaly.high))
        (seq 0 10).
Proof.
  split; [vm_compute; lia |].
  split; [repeat constructor |].
  split; vm_compute; reflexivity.
Qed.

Lemma constant_volume_has_no_spike_witness :
  Rounded.PatternAnalysis.volumeStdDev sqrt_of_squares constant_series
    = Fin 0 /\
  (forall data, In data constant_series ->
     Rounded.PatternAnalysis.volumeZScore
       (Rounded.PatternAnalysis.avgVolume constant_series)
       (Rounded.PatternAnalysis.volumeStdDev sqrt_of_squares constant_series)
       data = NaN) /\
  (forall a,
     In a (Rounded.PatternAnalysis.detected_anomalies sqrt_of_squares
             constant_series) ->
     Rounded.PatternAnalysis.Anomaly.type a
       <> PatternAnalysis.Anomaly.volume_spike) /\
  (forall a,
     In a (Rounded.PatternAnalysis.anomalies sqrt_of_squares constant_series) ->
     Rounded.PatternAnalysis.Anomaly.type a
       <> PatternAnalysis.Anomaly.volume_spike).
Proof.
  apply (@constant_volume_has_no_spike sqrt_of_squares constant_series 1000).
  - simpl. lia.
  - repeat constructor.
  - apply (@natural_inject_Z 1000). lia.
  - vm_compute. reflexivity.
Defined.

(** ** C7: the volatility weights of a day *)

(** C7, as the claim states it, fails: 2024-12-26 is neither one of the
    last five days of December (the 27th to the 31st) nor in a
    quarter-opening month, and its weights are the raised ones. *)
Lemma volatility_weights_counterexample :
  Dayjs.day thursday_2024_12_26 = 4%Z /\
  volatilityWeights thursday_2024_12_26 = [0.2; 0.4; 0.4] /\
  ~ (volatilityWeights thursday_2024_12_26 = [0.2; 0.4; 0.4] <->
     in_last_five_days thursday_2024_12_26 = true \/
     isEarningsSeason thursday_2024_12_26 = true).
Proof.
  split; [vm_compute; reflexivity |].
  split; [vm_compute; reflexivity |].
  intros [Hweights _].
  destruct (Hweights ltac:(vm_compute; reflexivity)) as [H | H];
    vm_compute in H; discriminate H.
Qed.

(** C7 (amended). For every day the synthesizer generates, the volatility
    category is sampled with the weights 0.2, 0.4, 0.4 exactly when the day
    of the month is greater than 25 or the month is January, April, July or
    October, and with the weights 0.5, 0.3, 0.2 otherwise. *)
Theorem volatility_weights_by_day_of_month (current : Dayjs.t) (draws : Random)
    (n : nat) :
  (volatilityWeights current = [0.2; 0.4; 0.4] <->
   (25 < Dayjs.date current)%Z \/
   In (Dayjs.month current + 1)%Z [1; 4; 7; 10]%Z) /\
  (volatilityWeights current = [0.5; 0.3; 0.2] <->
   ~ ((25 < Dayjs.date current)%Z \/
      In (Dayjs.month current + 1)%Z [1; 4; 7; 10]%Z)) /\
  weightedRandom volatilityLevels (volatilityWeights current) (draws n)
    = Some (volatilityLevel (mock_point current draws n)).
Proof.
  assert (Hcond : isMonthEnd current || isEarningsSeason current = true <->
                  (25 < Dayjs.date current)%Z \/
                  In (Dayjs.month current + 1)%Z [1; 4; 7; 10]%Z).
  { unfold isMonthEnd, isEarningsSeason.
    rewrite orb_true_iff, Z.ltb_lt, existsb_exists.
    split; (intros [H | H]; [now left | right]).
    - destruct H as (m & Hin & E). apply Z.eqb_eq in E. now subst.
    - exists (Dayjs.month current + 1)%Z. split; [exact H | apply Z.eqb_refl]. }
  unfold volatilityWeights at 1 2.
  split; [| split].
  - rewrite <- Hcond.
    destruct (isMonthEnd current || isEarningsSeason current);
      split; try reflexivity; discriminate.
  - rewrite <- Hcond.
    destruct (isMonthEnd current || isEarningsSeason current); split.
    + discriminate.
    + intros H. now contradiction H.
    + intros _. discriminate.
    + reflexivity.
  - unfold mock_point. cbn [volatilityLevel].
    destruct (@weightedRandom_Some_In _ volatilityLevels
                (volatilityWeights current) (draws n)) as (v & Hv & _);
      [discriminate |].
    now rewrite Hv.
Qed.

(** ** C8: seasonal patterns *)




(** When more than six patterns are stronger, the January pattern is
    detected but cut off by [slice(0, 6)]. *)
Example january_pattern_cut_off :
  List.length crowded_series = 33%nat /\
  Qsum (map priceChange (points_of_month 1 crowded_series)) / 3 == 3 /\
  In "Month 01"%string
    (map PatternAnalysis.SeasonalPattern.period
       (PatternAnalysis.detected_patterns crowded_series)) /\
  map PatternAnalysis.SeasonalPattern.period
    (PatternAnalysis.seasonalPatterns crowded_series)
    = ["Month 02"; "Month 03"; "Month 04"; "Month 05"; "Month 06";
       "Month 07"]%string.
Proof.
  split; [vm_compute; reflexivity |].
  split; [vm_compute; reflexivity |].
  split; [vm_compute; left; reflexivity | vm_compute; reflexivity].
Qed.

(** ** C9: short and empty series *)

(** C9. On an empty series week aggregation, month aggregation, seasonal
    pattern detection and anomaly detection return an empty sequence
    without throwing; pattern detection returns an empty sequence for every
    series of fewer than 30 points and anomaly detection for every series
    of fewer than 10 points. *)
Theorem short_series_yield_nothing (Math_sqrt : Q -> Q) (year : Z) :
  aggregateDataByWeek [] year = Some [] /\
  aggregateDataByMonth [] year = Some [] /\
  PatternAnalysis.seasonalPatterns [] = [] /\
  PatternAnalysis.anomalies Math_sqrt [] = [] /\
  (forall marketData,
     (List.length marketData < 30)%nat ->
     PatternAnalysis.seasonalPatterns marketData = []) /\
  (forall marketData,
     (List.length marketData < 10)%nat ->
     PatternAnalysis.anomalies Math_sqrt marketData = []).
Proof.
  repeat split; try reflexivity.
  - intros marketData Hlen. unfold PatternAnalysis.seasonalPatterns.
    now apply Nat.ltb_lt in Hlen as ->.
  - intros marketData Hlen. unfold PatternAnalysis.anomalies.
    now apply Nat.ltb_lt in Hlen as ->.
Qed.

Lemma short_series_yield_nothing_witness :
  PatternAnalysis.seasonalPatterns threshold_series = [] /\
  PatternAnalysis.anomalies sqrt_of_squares (firstn 9 threshold_series) = [].
Proof.
  destruct (short_series_yield_nothing sqrt_of_squares 2024)
    as (_ & _ & _ & _ & Hpatterns & Hanomalies).
  split.
  - apply Hpatterns. simpl. lia.
  - apply Hanomalies. simpl. lia.
Defined.

(** ** C10: the weighted sampler *)

(** C10. For every non-empty item list and every weight list and whatever
    value the random draw has, the weighted sampler returns an element of
    the item list: when the loop ends without the running value reaching
    zero, the last item is returned. *)
Theorem weightedRandom_in_items (T : Type) (items : list T) (weights : list Q)
    (u : Q) :
  items <> [] ->
  exists item,
    weightedRandom items weights u = Some item /\ In item items /\
    (weightedRandom_loop items weights (Fin (u * Qsum weights)) = None ->
     nth_error items (List.length items - 1) = Some item).
Proof.
  intros Hne. unfold weightedRandom.
  destruct (weightedRandom_loop items weights (Fin (u * Qsum weights)))
    as [item |] eqn:E.
  - exists item. split; [reflexivity |]. split; [| discriminate].
    exact (weightedRandom_loop_In _ _ _ E).
  - destruct (nth_error_last_Some Hne) as [item Hitem].
    exists item. split; [exact Hitem |]. split; [| intros _; exact Hitem].
    exact (nth_error_In _ _ Hitem).
Qed.

Lemma weightedRandom_in_items_witness :
  exists item,
    weightedRandom volatilityLevels [0.5; 0.3] 0.99 = Some item /\
    In item volatilityLevels /\
    (weightedRandom_loop volatilityLevels [0.5; 0.3] (Fin (0.99 * Qsum [0.5; 0.3]))
       = None ->
     nth_error volatilityLevels (List.length volatilityLevels - 1) = Some item).
Proof.
  apply weightedRandom_in_items. discriminate.
Defined.

(** * Further properties of the code *)

(** ** market-utils.ts: the aggregators, record by record *)

(** X1 (aggregateDataByWeek). For every input series and every target
    year such that the volumes of the points of that year are natural
    numbers with a sum below [2 ^ 53], week aggregation returns (it does
    not throw) and the sum of [totalVolume] over the returned records
    equals the sum of [volume] over the input points whose date falls in
    that year; both are the exact sum. *)
Theorem weekly_total_volume_of_natural_volumes (data : list MarketData)
    (year : Z) :
  Forall (fun d => natural (volume d)) (filter (in_year year) data) ->
  Qsum (map volume (filter (in_year year) data)) < inject_Z (2 ^ 53) ->
  exists out,
    Rounded.aggregateDataByWeek data year = Some out /\
    Double.sum (map Rounded.totalVolume out) =
    Double.sum (volumes (filter (in_year year) data)) /\
    same (Double.sum (map Rounded.totalVolume out))
      (Fin (Qsum (map volume (filter (in_year year) data)))).
Proof.
  intros Hnat Hlt.
  destruct (@rounded_total_volume weekKey data year (weekKey_named year)
              Hnat Hlt) as (out & Hout & Htot & Hvol).
  exists out. split; [exact Hout |]. rewrite Htot, Hvol.
  split; [reflexivity |].
  destruct (natural_Qsum (proj2 (Forall_map volume natural _) Hnat)) as [_ E].
  cbn [same]. now symmetry.
Qed.

Lemma weekly_total_volume_of_natural_volumes_witness :
  exists out,
    Rounded.aggregateDataByWeek year_end_series 2024 = Some out /\
    Double.sum (map Rounded.totalVolume out) =
    Double.sum (volumes (filter (in_year 2024) year_end_series)) /\
    same (Double.sum (map Rounded.totalVolume out))
      (Fin (Qsum (map volume (filter (in_year 2024) year_end_series)))).
Proof.
  apply weekly_total_volume_of_natural_volumes.
  - apply Forall_forall. intros d Hd.
    apply (proj1 (filter_In (in_year 2024) d year_end_series)) in Hd.
    destruct Hd as [[<- | [<- | []]] _]; eapply natural_inject_Z; lia.
  - vm_compute. reflexivity.
Defined.

(** X2 (aggregateDataByWeek, aggregateDataByMonth). Points outside the
    target year have no effect: each aggregator returns on the whole
    series what it returns on the points of the year alone. *)
Theorem aggregation_reads_only_the_target_year (data : list MarketData)
    (year : Z) :
  aggregateDataByWeek data year =
    aggregateDataByWeek (filter (in_year year) data) year /\
  aggregateDataByMonth data year =
    aggregateDataByMonth (filter (in_year year) data) year.
Proof.
  assert (E : forall key,
            group_year key data year =
            group_year key (filter (in_year year) data) year).
  { intros key. rewrite !group_year_fold. f_equal.
    rewrite filter_filter_andb. apply filter_ext. intros d.
    now destruct (in_year year d). }
  unfold aggregateDataByWeek, aggregateDataByMonth. now rewrite <- !E.
Qed.

(** X3 (aggregateDataByWeek, aggregateDataByMonth). Each aggregator
    returns the empty array exactly when the series has no point in the
    target year; in particular on the empty series. *)
Theorem no_record_without_a_point_of_the_year (data : list MarketData)
    (year : Z) :
  (aggregateDataByWeek data year = Some [] <-> filter (in_year year) data = []) /\
  (aggregateDataByMonth data year = Some [] <-> filter (in_year year) data = []).
Proof.
  assert (Hkey : forall key,
            (forall d, array_index (key year d) = None) ->
            map_throwing aggregate_entry
              (JsObject.entries (group_year key data year)) = Some [] <->
            filter (in_year year) data = []).
  { intros key Hnamed.
    destruct (@aggregate_groups key data year Hnamed) as (out & Hout & Hp & _).
    rewrite Hout. split.
    - intros [= ->]. simpl in Hp.
      destruct (filter (in_year year) data) as [| d l]; [reflexivity |].
      exfalso.
      assert (Hin : In (key_of key year d)
                      (first_occurrences String.eqb
                         (map (key_of key year) (d :: l)))).
      { apply first_occurrences_In; [apply String.eqb_eq | now left]. }
      rewrite <- Hp in Hin. destruct Hin.
    - intros E. rewrite E in Hp. simpl in Hp. f_equal.
      now destruct out. }
  split.
  - apply (Hkey weekKey), weekKey_named.
  - apply (Hkey monthKey), monthKey_named.
Qed.


(** ** Calendar.tsx: the weekly view *)




(** ** market-utils.ts: the dominant category of an empty bucket *)

(** X7 (getMostFrequentVolatility, getMostFrequentPerformance). The two
    functions throw exactly on the empty array: [reduce] without an
    initial value finds no entry. *)
Theorem most_frequent_throws_iff_empty (data : list MarketData) :
  (getMostFrequentVolatility data = None <-> data = []) /\
  (getMostFrequentPerformance data = None <-> data = []).
Proof.
  split; (split; [| intros ->; reflexivity]); intros Hnone;
    (destruct data as [| d data]; [reflexivity | exfalso]).
  - destruct (@getMostFrequent_spec _ VolatilityLevel_PropertyKey
                volatilityLevel (fun _ => eq_refl) (d :: data))
      as (r & Hr & _); [discriminate |].
    unfold getMostFrequentVolatility in Hnone. congruence.
  - destruct (@getMostFrequent_spec _ Performance_PropertyKey
                performance (fun _ => eq_refl) (d :: data))
      as (r & Hr & _); [discriminate |].
    unfold getMostFrequentPerformance in Hnone. congruence.
Qed.

(** ** market-utils.ts: the sampler and the synthesizer *)

(** X10 (generateMockMarketData, the pushed record). When every draw of
    [Math.random()] is at least 0 and below 1, the record built for a day
    has that day as date, an integer volume from 100000 to 1099999, a
    price change from -5 (included) to 5 (excluded) and an integer
    liquidity from 1 to 100. *)
Theorem mock_point_ranges (current : Dayjs.t) (draws : Random) (n : nat) :
  (forall k, 0 <= draws k /\ draws k < 1) ->
  date (mock_point current draws n) = Dayjs.day_number current /\
  (exists v, volume (mock_point current draws n) == inject_Z v /\
             (100000 <= v <= 1099999)%Z) /\
  - 5 <= priceChange (mock_point current draws n) /\
  priceChange (mock_point current draws n) < 5 /\
  (exists l, liquidity (mock_point current draws n) == inject_Z l /\
             (1 <= l <= 100)%Z).
Proof.
  intros Hdraws.
  assert (Hfloor : forall (u : Q) (k : Z),
            0 <= u -> u < 1 -> (0 < k)%Z ->
            (0 <= Qfloor (u * inject_Z k) <= k - 1)%Z).
  { intros u k H0 H1 Hk.
    assert (Hk' : 0 < inject_Z k).
    { change 0 with (inject_Z 0). now rewrite <- Zlt_Qlt. }
    split.
    - change 0%Z with (Qfloor 0). apply Qfloor_resp_le. nra.
    - assert (Hlt : (Qfloor (u * inject_Z k) < k)%Z).
      { rewrite Zlt_Qlt. pose proof (Qfloor_le (u * inject_Z k)). nra. }
      lia. }
  cbn [mock_point date volume priceChange liquidity].
  split; [reflexivity |].
  destruct (Hdraws (n + 2)%nat) as [Hv0 Hv1].
  destruct (Hdraws (n + 3)%nat) as [Hp0 Hp1].
  destruct (Hdraws (n + 4)%nat) as [Hl0 Hl1].
  split; [| split; [| split]].
  - exists (Qfloor (draws (n + 2)%nat * 1000000) + 100000)%Z. split.
    + rewrite inject_Z_plus. reflexivity.
    + pose proof (Hfloor _ 1000000%Z Hv0 Hv1 eq_refl) as H.
      change (inject_Z 1000000) with 1000000 in H. lia.
  - lra.
  - lra.
  - exists (Qfloor (draws (n + 4)%nat * 100) + 1)%Z. split.
    + rewrite inject_Z_plus. reflexivity.
    + pose proof (Hfloor _ 100%Z Hl0 Hl1 eq_refl) as H.
      change (inject_Z 100) with 100 in H. lia.
Qed.

Lemma mock_point_ranges_witness :
  date (mock_point thursday_2024_12_26 (fun _ => 0.5) 0) =
    Dayjs.day_number thursday_2024_12_26 /\
  (exists v, volume (mock_point thursday_2024_12_26 (fun _ => 0.5) 0)
             == inject_Z v /\ (100000 <= v <= 1099999)%Z) /\
  - 5 <= priceChange (mock_point thursday_2024_12_26 (fun _ => 0.5) 0) /\
  priceChange (mock_point thursday_2024_12_26 (fun _ => 0.5) 0) < 5 /\
  (exists l, liquidity (mock_point thursday_2024_12_26 (fun _ => 0.5) 0)
             == inject_Z l /\ (1 <= l <= 100)%Z).
Proof.
  apply mock_point_ranges.
  intros k. split; vm_compute; [discriminate | reflexivity].
Defined.

(** X11 (generateMockMarketData). The synthesizer returns only for an
    empty range, that is, when the start is a later day than the end; and
    whenever it returns, its result is the empty array: it never returns
    a data point. *)
Theorem generateMockMarketData_returns_only_nothing (startDate endDate : Z)
    (draws : Random) :
  ((exists fuel out,
      generateMockMarketData fuel startDate endDate draws = Some out) <->
   (Dayjs.day_number endDate < Dayjs.day_number startDate)%Z) /\
  (forall fuel out,
     generateMockMarketData fuel startDate endDate draws = Some out ->
     out = []).
Proof.
  assert (Hcases :
            loop_continues (Dayjs.of_Date startDate) (Dayjs.of_Date endDate) = true \/
            (Dayjs.day_number endDate < Dayjs.day_number startDate)%Z).
  { unfold loop_continues, Dayjs.isBefore, Dayjs.isSame_day, Dayjs.of_Date.
    destruct (Z.ltb_spec startDate endDate) as [Hlt | Hge]; [now left |].
    destruct (Z.eqb_spec (Dayjs.day_number startDate) (Dayjs.day_number endDate))
      as [E | Hne]; [now left | right].
    assert (Dayjs.day_number endDate <= Dayjs.day_number startDate)%Z.
    { unfold Dayjs.day_number, Dayjs.MILLISECONDS_A_DAY.
      apply Z.div_le_mono; lia. }
    lia. }
  assert (Hcont :
            loop_continues (Dayjs.of_Date startDate) (Dayjs.of_Date endDate) = true ->
            ~ (Dayjs.day_number endDate < Dayjs.day_number startDate)%Z).
  { unfold loop_continues, Dayjs.isBefore, Dayjs.isSame_day, Dayjs.of_Date.
    intros H Hlt. apply orb_true_iff in H. destruct H as [H | H].
    - apply Z.ltb_lt in H.
      assert (Dayjs.day_number startDate <= Dayjs.day_number endDate)%Z.
      { unfold Dayjs.day_number, Dayjs.MILLISECONDS_A_DAY.
        apply Z.div_le_mono; lia. }
      lia.
    - apply Z.eqb_eq in H. lia. }
  split; [split |].
  - intros (fuel & out & Hout). destruct Hcases as [Hc | Hlt]; [| exact Hlt].
    unfold generateMockMarketData in Hout.
    rewrite (generate_loop_runs_forever _ _ Hc) in Hout. discriminate.
  - intros Hlt. exists 1%nat, [].
    destruct Hcases as [Hc | _]; [now apply Hcont in Hc |].
    unfold generateMockMarketData. cbn [generate_loop].
    destruct (Dayjs.isBefore _ _ || Dayjs.isSame_day _ _) eqn:E; [| reflexivity].
    exfalso. now apply (Hcont E).
  - intros fuel out Hout. unfold generateMockMarketData in Hout.
    destruct Hcases as [Hc | Hlt].
    + rewrite (generate_loop_runs_forever _ _ Hc) in Hout. discriminate.
    + destruct fuel as [| fuel]; [discriminate |].
      cbn [generate_loop] in Hout.
      destruct (Dayjs.isBefore _ _ || Dayjs.isSame_day _ _) eqn:E.
      * exfalso. now apply (Hcont E).
      * congruence.
Qed.

(** ** market-utils.ts: the sampler without items or without weights *)

(** X12 (weightedRandom). Without items the sampler returns [undefined],
    whatever the weights.  Without weights the subtraction of the missing
    weight gives NaN, no comparison with NaN holds, and the sampler falls
    through to its last line: it returns the last item, whatever the
    draw. *)
Theorem weightedRandom_without_items_or_weights (T : Type) :
  (forall (weights : list Q) (u : Q), weightedRandom (@nil T) weights u = None) /\
  (forall (items : list T) (u : Q),
     weightedRandom items [] u = nth_error items (List.length items - 1)).
Proof.
  split.
  - intros weights u. reflexivity.
  - intros items u. unfold weightedRandom.
    destruct items as [| x items]; [reflexivity |].
    cbn [weightedRandom_loop hd_error of_element tl sub add opp leb].
    now rewrite weightedRandom_loop_NaN.
Qed.

(** ** PatternAnalysis.tsx: the seasonal patterns *)

Section SeasonalPatternProperties.
Import PatternAnalysis.

(** X13 (seasonalPatterns). The detector returns at most six patterns, in
    order of strength, strongest first; and what it cuts off is no
    stronger than anything it returns. *)
Theorem seasonal_patterns_are_the_six_strongest (marketData : list MarketData) :
  (List.length (seasonalPatterns marketData) <= 6)%nat /\
  StronglySorted (fun a b => strength_of b <= strength_of a)
    (seasonalPatterns marketData) /\
  (forall p q,
     In p (seasonalPatterns marketData) ->
     In q (detected_patterns marketData) ->
     ~ In q (seasonalPatterns marketData) ->
     strength_of q <= strength_of p).
Proof.
  unfold seasonalPatterns.
  destruct (List.length marketData <? 30)%nat.
  { split; [simpl; lia |]. split; [constructor | intros p q []]. }
  set (l := detected_patterns marketData).
  assert (Hsorted : StronglySorted (fun a b => strength_of b <= strength_of a)
                      (sort by_strength l)).
  { apply (@sort_sorted _ by_strength strength_of). intros a b Ha Hb.
    pose proof (detected_patterns_finite marketData) as Hfin.
    rewrite Forall_forall in Hfin.
    apply by_strength_descending; now apply Hfin. }
  split; [apply firstn_le_length |].
  split; [now apply StronglySorted_firstn |].
  intros p q Hp Hq Hnq.
  apply (Permutation_in q (Permutation_sym (sort_Permutation by_strength l)))
    in Hq.
  rewrite <- (firstn_skipn 6 (sort by_strength l)) in Hq, Hsorted.
  apply in_app_or in Hq. destruct Hq as [Hq | Hq]; [contradiction |].
  exact (StronglySorted_app_inv _ _ Hsorted p q Hp Hq).
Qed.

(** X14 (seasonalPatterns). Every returned pattern has a finite strength
    above 30 and at most 100, comes from a group of at least three
    points, and has type bullish, bearish or volatile, never stable. *)
Theorem seasonal_patterns_are_well_formed (marketData : list MarketData) :
  Forall well_formed_pattern (seasonalPatterns marketData).
Proof.
  apply seasonalPatterns_Forall. unfold detected_patterns.
  apply Forall_app. split.
  - apply Forall_flat_map, Forall_forall. intros e _.
    apply month_patterns_well_formed.
  - apply Forall_flat_map, Forall_forall. intros e _.
    apply day_patterns_well_formed.
Qed.

(** X15 (seasonalPatterns). The period of every returned pattern is
    either ["Month MM"] for a month 01 to 12, or one of the seven day
    names (never ["undefined"]); its frequency is the number of points of
    the series in that month, of any year, or on that weekday. *)
Theorem seasonal_pattern_labels (marketData : list MarketData) :
  Forall
    (fun p =>
       (exists m,
          (1 <= m <= 12)%Z /\
          SeasonalPattern.period p = month_pattern_label m /\
          SeasonalPattern.frequency p =
            List.length (points_of_month m marketData)) \/
       (exists i,
          (0 <= i <= 6)%Z /\
          nth_error dayNames (Z.to_nat i) = Some (SeasonalPattern.period p) /\
          SeasonalPattern.frequency p =
            List.length (points_of_weekday i marketData)))
    (seasonalPatterns marketData).
Proof.
  apply seasonalPatterns_Forall. unfold detected_patterns.
  apply Forall_app. split.
  - apply Forall_flat_map, Forall_forall. intros [k b] He.
    apply month_entry in He. destruct He as (m & Hm & -> & -> & _).
    eapply Forall_impl; [| apply month_patterns_label].
    intros p [Hp Hf]. left. exists m. auto.
  - apply Forall_flat_map, Forall_forall. intros [k b] He.
    apply weekday_entry in He. destruct He as (i & Hi & -> & -> & _).
    eapply Forall_impl; [| apply day_patterns_label].
    cbn [fst snd]. intros p [Hp Hf]. right. exists i.
    split; [exact Hi |]. split; [| exact Hf].
    rewrite Hp, dayName_of_index by exact Hi.
    apply nth_error_nth'. simpl. lia.
Qed.



End SeasonalPatternProperties.

(** ** PatternAnalysis.tsx: the anomalies *)

Section AnomalyProperties.
Import PatternAnalysis.
Variable Math_sqrt : Q -> Q.

(** X17 (anomalies). The detector returns at most ten anomalies, latest
    first; and what it cuts off is no later than anything it returns. *)
Theorem anomalies_are_the_ten_latest (marketData : list MarketData) :
  (List.length (anomalies Math_sqrt marketData) <= 10)%nat /\
  StronglySorted (fun a b => (Anomaly.date b <= Anomaly.date a)%Z)
    (anomalies Math_sqrt marketData) /\
  (forall p q,
     In p (anomalies Math_sqrt marketData) ->
     In q (detected_anomalies Math_sqrt marketData) ->
     ~ In q (anomalies Math_sqrt marketData) ->
     (Anomaly.date q <= Anomaly.date p)%Z).
Proof.
  unfold anomalies.
  destruct (List.length marketData <? 10)%nat.
  { split; [simpl; lia |]. split; [constructor | intros p q []]. }
  set (l := detected_anomalies Math_sqrt marketData).
  assert (Hsorted : StronglySorted
                      (fun a b => (Anomaly.date b <= Anomaly.date a)%Z)
                      (sort by_date_descending l)).
  { apply (@StronglySorted_impl _
             (fun a b => inject_Z (Anomaly.date b) <= inject_Z (Anomaly.date a))).
    - intros a b H. now rewrite Zle_Qle.
    - apply (@sort_sorted _ by_date_descending
               (fun a => inject_Z (Anomaly.date a))).
      intros a b _ _. apply by_date_descending_later. }
  split; [apply firstn_le_length |].
  split; [now apply StronglySorted_firstn |].
  intros p q Hp Hq Hnq.
  apply (Permutation_in q
           (Permutation_sym (sort_Permutation by_date_descending l))) in Hq.
  rewrite <- (firstn_skipn 10 (sort by_date_descending l)) in Hq, Hsorted.
  apply in_app_or in Hq. destruct Hq as [Hq | Hq]; [contradiction |].
  exact (StronglySorted_app_inv _ _ Hsorted p q Hp Hq).
Qed.



End AnomalyProperties.


(** ** market-utils.ts: lookup and display *)

(** X21 (getMarketDataForDate). The lookup returns the first point of the
    series whose date is the calendar day of the given time, whatever the
    time of the day; it returns [undefined] exactly when the series has
    no point of that day. *)
Theorem getMarketDataForDate_first_of_the_day (data : list MarketData)
    (date_ : Z) :
  match getMarketDataForDate data date_ with
  | Some d =>
      exists before after,
        data = before ++ d :: after /\
        date d = Dayjs.day_number (Dayjs.of_Date date_) /\
        Forall (fun x => date x <> Dayjs.day_number (Dayjs.of_Date date_)) before
  | None =>
      Forall (fun x => date x <> Dayjs.day_number (Dayjs.of_Date date_)) data
  end /\
  (forall other,
     Dayjs.isSame_day (Dayjs.of_Date other) (Dayjs.of_Date date_) = true ->
     getMarketDataForDate data other = getMarketDataForDate data date_).
Proof.
  split.
  - unfold getMarketDataForDate, Dayjs.format_YYYY_MM_DD.
    pose proof (find_first
                  (fun d => (date d =? Dayjs.day_number (Dayjs.of_Date date_))%Z)
                  data) as H.
    destruct (find _ data) as [d |].
    + destruct H as (before & after & Hsplit & Hd & Hall).
      exists before, after. split; [exact Hsplit |].
      split; [now apply Z.eqb_eq |].
      eapply Forall_impl; [| exact Hall]. intros x. apply Z.eqb_neq.
    + eapply Forall_impl; [| exact H]. intros x. apply Z.eqb_neq.
  - intros other Hsame. unfold Dayjs.isSame_day in Hsame.
    apply Z.eqb_eq in Hsame.
    unfold getMarketDataForDate, Dayjs.format_YYYY_MM_DD. now rewrite Hsame.
Qed.

Section FormatVolumeProperties.
Variable Number_toString : Q -> string.

(** X22 (formatVolume, thousands). A volume from 1000 up to, but not
    including, one million is shown as a whole number of thousands
    followed by K: the volume divided by 1000 and rounded half up.  The
    number is between 1 and 1000; from 999500 on it is 1000, so the
    display is ["1000K"], not ["1.0M"]. *)
Theorem formatVolume_thousands (volume : Q) :
  1000 <= volume -> volume < 1000000 ->
  exists n,
    formatVolume Number_toString volume = (String_of_Z n ++ "K")%string /\
    n = Qfloor (volume / 1000 + (1 # 2)) /\
    (1 <= n <= 1000)%Z /\
    (999500 <= volume -> n = 1000%Z).
Proof.
  intros Hlo Hhi. unfold formatVolume.
  assert (E1 : Qle_bool 1000000 volume = false).
  { apply not_true_iff_false. intros H. apply Qle_bool_iff in H. lra. }
  assert (E2 : Qle_bool 1000 volume = true) by now apply Qle_bool_iff.
  rewrite E1, E2, div_Fin by discriminate.
  assert (Hq : 1 <= volume / 1000).
  { apply Qle_shift_div_l; lra. }
  assert (Hq' : volume / 1000 < 1000).
  { apply Qlt_shift_div_r; lra. }
  unfold toFixed.
  assert (E3 : Qltb (volume / 1000) 0 = false).
  { apply not_true_iff_false. intros H. apply Qltb_lt in H. lra. }
  rewrite E3. cbn [Z.of_nat Z.pow]. change (10 ^ 0)%Z with 1%Z.
  rewrite Z.div_1_r. cbn [append]. rewrite append_empty_r.
  eexists. split; [reflexivity |].
  assert (Eq : Qabs (volume / 1000) * inject_Z 1 + 0.5 == volume / 1000 + (1 # 2)).
  { rewrite Qabs_pos by lra. change (inject_Z 1) with 1. ring. }
  rewrite (Qfloor_comp _ _ Eq).
  split; [reflexivity |]. split.
  - apply Qfloor_bounds.
    + change (inject_Z 1) with 1. lra.
    + change (inject_Z 1000) with 1000. lra.
  - intros Hround.
    assert (Hq'' : 1000 <= volume / 1000 + (1 # 2)).
    { assert (999.5 <= volume / 1000) by (apply Qle_shift_div_l; lra). lra. }
    assert (H : (1000 <= Qfloor (volume / 1000 + (1 # 2)) <= 1000)%Z).
    { apply Qfloor_bounds.
      - change (inject_Z 1000) with 1000. lra.
      - change (inject_Z 1000) with 1000. lra. }
    lia.
Qed.

End FormatVolumeProperties.

Lemma formatVolume_thousands_witness :
  exists n,
    formatVolume (fun _ => ""%string) 999999 = (String_of_Z n ++ "K")%string /\
    n = Qfloor (999999 / 1000 + (1 # 2)) /\
    (1 <= n <= 1000)%Z /\
    (999500 <= 999999 -> n = 1000%Z).
Proof.
  apply formatVolume_thousands; vm_compute; [discriminate | reflexivity].
Defined.

(** ** Calendar.tsx: the daily and the monthly view *)

(** X24 (renderDailyView, getMarketDataForDate). The loop of the month
    grid terminates: with fuel for the cells and the final test (43
    rounds always suffice) it returns the midnights of consecutive days,
    from the Sunday on or before the first day of the month of the
    current date to the Saturday on or after its last day, that is, 4 to
    6 whole weeks that contain the whole month and the current date.
    Each cell shows the first point of the series dated that day, if
    any. *)
Theorem daily_view_grid (marketData : list MarketData)
    (currentDate : Dayjs.t) :
  exists (first : Z) (weeks : nat),
    (4 <= weeks <= 6)%nat /\
    Dayjs.day (Dayjs.of_day first) = 0%Z /\
    (first <= Dayjs.day_number (Dayjs.startOf_month currentDate)
     < first + 7)%Z /\
    (first + 7 * Z.of_nat weeks - 7
     <= Dayjs.day_number (Dayjs.endOf_month currentDate)
     < first + 7 * Z.of_nat weeks)%Z /\
    (Dayjs.day_number (Dayjs.startOf_month currentDate)
     <= Dayjs.day_number currentDate
     <= Dayjs.day_number (Dayjs.endOf_month currentDate))%Z /\
    forall fuel, (7 * weeks < fuel)%nat ->
      Calendar.renderDailyView_days fuel currentDate =
        Some (map (fun i => Dayjs.toDate (Dayjs.of_day (first + Z.of_nat i)))
                (seq 0 (7 * weeks))) /\
      Calendar.renderDailyView_cells fuel marketData currentDate =
        Some (map (fun i =>
                     find (fun d => (date d =? first + Z.of_nat i)%Z) marketData)
                (seq 0 (7 * weeks))).
Proof.
  pose proof (day_in_month currentDate) as Hin.
  pose proof (month_days currentDate) as Hlen.
  pose proof (startOf_month_day currentDate) as Hs.
  set (sm := Dayjs.days_from_civil (Dayjs.year currentDate)
               (Dayjs.month currentDate + 1) 1) in *.
  set (nm := Dayjs.next_month_start currentDate) in *.
  assert (He : Dayjs.day_number (Dayjs.endOf_month currentDate) = (nm - 1)%Z).
  { unfold Dayjs.endOf_month, Dayjs.day_number, Dayjs.of_day,
      Dayjs.MILLISECONDS_A_DAY. fold nm.
    Z.to_euclidean_division_equations; lia. }
  set (first := (sm - (sm + 4) mod 7)%Z).
  set (e := (nm - 1 - (nm - 1 + 4) mod 7 + 6)%Z).
  assert (HS : Dayjs.startOf_week (Dayjs.startOf_month currentDate)
               = Dayjs.of_day first).
  { unfold Dayjs.startOf_week, Dayjs.day. now rewrite Hs. }
  assert (HE : Dayjs.endOf_week (Dayjs.endOf_month currentDate)
               = (Dayjs.of_day (e + 1) - 1)%Z).
  { unfold Dayjs.endOf_week, Dayjs.startOf_week, Dayjs.day. rewrite He.
    unfold e, Dayjs.of_day, Dayjs.MILLISECONDS_A_WEEK, Dayjs.MILLISECONDS_A_DAY.
    lia. }
  assert (Hdiv : exists k, (e + 1 - first = 7 * k /\ 4 <= k <= 6)%Z).
  { exists ((e + 1 - first) / 7)%Z. unfold e, first.
    Z.to_euclidean_division_equations; lia. }
  destruct Hdiv as (k & Hk & Hk46).
  exists first, (Z.to_nat k).
  split; [lia |].
  split.
  { unfold Dayjs.day. rewrite day_number_of_day. unfold first.
    Z.to_euclidean_division_equations; lia. }
  split.
  { rewrite Hs. unfold first. Z.to_euclidean_division_equations; lia. }
  split.
  { rewrite He. rewrite Z2Nat.id by lia.
    unfold e in Hk. Z.to_euclidean_division_equations; lia. }
  split; [rewrite Hs, He; lia |].
  intros fuel Hfuel.
  assert (Hdays : Calendar.renderDailyView_days fuel currentDate =
                  Some (map (fun i => Dayjs.toDate (Dayjs.of_day (first + Z.of_nat i)))
                          (seq 0 (7 * Z.to_nat k)))).
  { unfold Calendar.renderDailyView_days. rewrite HS, HE.
    rewrite (@days_loop_runs e (7 * Z.to_nat k)); [reflexivity | lia | lia]. }
  split; [exact Hdays |].
  unfold Calendar.renderDailyView_cells. rewrite Hdays. cbn [option_map].
  rewrite map_map. f_equal. apply map_ext. intros i.
  unfold getMarketDataForDate, Dayjs.format_YYYY_MM_DD, Dayjs.of_Date,
    Dayjs.toDate.
  now rewrite day_number_of_day.
Qed.


